(** * FMS to MFEM mesh conversion: a shallow embedding of fem/fmsconvert.cpp

    The development follows the source function by function.  The FMS
    handles the code queries are records holding what the FMS getters
    return; the target [Mesh] is a record of the lists the mesh mutation
    API fills; the single exit point of [FmsMeshToMesh] (the [func_exit]
    label with its integer [err]) is an error monad whose [Exit] carries
    the code; reads and writes outside an array have no meaning in C++ and
    are the third outcome, [Undef].

    Integers are in [Z].  The wrap-around of the unsigned [FmsInt] is
    written out where the code computes [dim-1], the expected number of
    nodes and the indices of the coordinate scatter; the narrowing to
    [int] where the scatter stores an index in an [int] or passes one to
    the node array; the reading of 32-bit cells through [int*] where tags
    and entity ids are cast.  The counters of entities and the offsets into
    the arrays of vertex tuples, which the number of entities bounds, are
    plain sums and products.

    The parts of the library behind the calls of the conversion
    (the topology tables of [Mesh], the finite element space of the nodes)
    are a parameter, [MeshKernel], of every definition that needs them. *)

From Stdlib Require Import ZArith List Lia Bool Permutation String.
From stdpp Require Import base option list sorting gmap.
Import ListNotations.

Local Open Scope Z_scope.

(** ** Machine integers *)

Module MachineInt.

(** [INT_MAX] of <climits>, for the 32-bit [int] of the platform. *)
Definition INT_MAX : Z := 2147483647.

(** Bits of a 32-bit cell read through an [int*]: the two's-complement
    value of the pattern. *)
Definition as_int32 (v : Z) : Z := (v + 2 ^ 31) mod 2 ^ 32 - 2 ^ 31.

(** [FmsInt] is an unsigned 64-bit integer: arithmetic wraps. *)
Definition FmsInt_wrap (v : Z) : Z := v mod 2 ^ 64.

Definition FmsInt_sub (a b : Z) : Z := FmsInt_wrap (a - b).
Definition FmsInt_mul (a b : Z) : Z := FmsInt_wrap (a * b).

End MachineInt.
Export MachineInt.

(** ** The error monad of the single exit point *)

(** [Ok a]: control reaches the end of the block with value [a];
    [Exit err]: [err = n; goto func_exit;];
    [Undef]: an access outside an array (no defined behaviour). *)
Inductive result (A : Type) : Type :=
| Ok (a : A)
| Exit (err : Z)
| Undef.
Arguments Ok {A} a.
Arguments Exit {A} err.
Arguments Undef {A}.

Definition bind {A B} (c : result A) (k : A -> result B) : result B :=
  match c with
  | Ok a => k a
  | Exit e => Exit e
  | Undef => Undef
  end.

Declare Scope conv_scope.
Delimit Scope conv_scope with conv.
Notation "x <- c ;; k" := (bind c (fun x => k))
  (at level 100, c at next level, right associativity) : conv_scope.
Local Open Scope conv_scope.

(** A defined array read: [a[i]] with [0 <= i < size]. *)
Definition rd {A} (a : list A) (i : Z) : result A :=
  if i <? 0 then Undef
  else match a !! Z.to_nat i with
       | Some x => Ok x
       | None => Undef
       end.

(** A defined array write: [a[i] = x]. *)
Definition wr {A} (a : list A) (i : Z) (x : A) : result (list A) :=
  if (0 <=? i) && (i <? Z.of_nat (length a))
  then Ok (<[Z.to_nat i := x]> a)
  else Undef.

(** [for (x in l) s = f x s], left to right, leaving at the first
    [Exit] or [Undef]. *)
Fixpoint foldM {A S} (f : A -> S -> result S) (l : list A) (s : S) : result S :=
  match l with
  | [] => Ok s
  | x :: l' => s' <- f x s ;; foldM f l' s'
  end.

(** [for (i = 0; i < n; i++) s = f i s]. *)
Definition for_range {S} (n : Z) (f : Z -> S -> result S) (s : S) : result S :=
  foldM f (seqZ 0 n) s.

(** ** FMS: the source mesh as the getters of the FMS interface show it *)

Inductive FmsEntityType :=
| FMS_VERTEX | FMS_EDGE | FMS_TRIANGLE | FMS_QUADRILATERAL
| FMS_TETRAHEDRON | FMS_HEXAHEDRON.

(** The range [FMS_VERTEX .. FMS_NUM_ENTITY_TYPES-1] of the loops over [et]. *)
Definition FmsEntityTypes : list FmsEntityType :=
  [FMS_VERTEX; FMS_EDGE; FMS_TRIANGLE; FMS_QUADRILATERAL;
   FMS_TETRAHEDRON; FMS_HEXAHEDRON].

Definition FmsEntityDim (et : FmsEntityType) : Z :=
  match et with
  | FMS_VERTEX => 0
  | FMS_EDGE => 1
  | FMS_TRIANGLE | FMS_QUADRILATERAL => 2
  | FMS_TETRAHEDRON | FMS_HEXAHEDRON => 3
  end.

Definition FmsEntityNumVerts (et : FmsEntityType) : Z :=
  match et with
  | FMS_VERTEX => 1
  | FMS_EDGE => 2
  | FMS_TRIANGLE => 3
  | FMS_QUADRILATERAL => 4
  | FMS_TETRAHEDRON => 4
  | FMS_HEXAHEDRON => 8
  end.

Inductive FmsIntType :=
| FMS_INT8 | FMS_INT16 | FMS_INT32 | FMS_INT64
| FMS_UINT8 | FMS_UINT16 | FMS_UINT32 | FMS_UINT64.

Inductive FmsScalarType :=
| FMS_FLOAT | FMS_DOUBLE | FMS_COMPLEX_FLOAT | FMS_COMPLEX_DOUBLE.

Inductive FmsLayoutType := FMS_BY_NODES | FMS_BY_VDIM.

Inductive FmsFieldDescriptorType := FMS_FIXED_ORDER | FMS_FD_TYPE_OTHER.

Inductive FmsFieldType :=
| FMS_CONTINUOUS | FMS_DISCONTINUOUS | FMS_DISCONTINUOUS_WEIGHTED | FMS_HDIV.

Inductive FmsBasisType :=
| FMS_NODAL_GAUSS_OPEN | FMS_NODAL_GAUSS_CLOSED | FMS_POSITIVE.

(** A [double] is only ever copied by the conversion: its 64-bit pattern. *)
Definition double : Type := Z.

(** [FmsDomainGetEntitiesVerts]: vertex [j] of entity [e] of a type. *)
Record FmsDomain := {
  dom_entity_vert : FmsEntityType -> Z -> Z -> Z
}.

(** What [FmsComponentGetPart] returns for one (part, entity type):
    the domain, the type of the ids, the ids ([None] is the NULL of "all
    entities of the domain"), the orientation array ([None] is NULL) and
    the number of entities; with explicit ids their number is the length of
    the array. *)
Record FmsPartEntities := {
  pe_domain : FmsDomain;
  pe_id_type : FmsIntType;
  pe_ents : option (list Z);
  pe_ents_ori : option (list Z);
  pe_num_all : Z
}.

Definition pe_num_ents (pe : FmsPartEntities) : Z :=
  match pe_ents pe with
  | Some ids => Z.of_nat (length ids)
  | None => Z.max 0 (pe_num_all pe)
  end.

Definition FmsPart : Type := FmsEntityType -> FmsPartEntities.

Record FmsFieldDescriptor := {
  fd_num_dofs : Z;
  fd_type : FmsFieldDescriptorType;
  fd_field_type : FmsFieldType;
  fd_basis_type : FmsBasisType;
  fd_order : Z
}.

Record FmsField := {
  fld_fd : FmsFieldDescriptor;
  fld_num_vec_comp : Z;
  fld_layout : FmsLayoutType;
  fld_data_type : FmsScalarType;
  fld_data : list double
}.

(** A component; the components it is related to are named by their
    index in the mesh. *)
Record FmsComponent := {
  comp_coords : option FmsField;
  comp_dim : Z;
  comp_num_entities : Z;
  comp_parts : list FmsPart;
  comp_relations : list Z
}.

(** A tag: the component it is attached to (its index in the mesh), the
    integer type of its cells and the values stored in them. *)
Record FmsTag := {
  tag_comp : Z;
  tag_type : FmsIntType;
  tag_data : list Z
}.

Record FmsMesh := {
  fms_comps : list FmsComponent;
  fms_tags : list FmsTag
}.

Record FmsDataCollection := {
  fdc_mesh : FmsMesh
}.

(** ** MFEM: the target mesh *)

Module Geometry.
Inductive Type_ := POINT | SEGMENT | TRIANGLE | SQUARE | TETRAHEDRON | CUBE.
End Geometry.

Module Ordering.
Inductive Type_ := byNODES | byVDIM.
End Ordering.

(** An element or boundary element: geometry, vertices, attribute. *)
Record Element := {
  el_geom : Geometry.Type_;
  el_verts : list Z;
  el_attr : Z
}.

(** Modelled from the spec: the class [Mesh] (its definition, mesh/mesh.cpp, lies
    outside the file verified here).  The spec gives the target mesh a vertex array, an
    element list and a boundary-element list (geometry type, attribute,
    vertex indices), filled in insertion order by the add operations, and,
    once curved, one node array. *)
Record Mesh := {
  vertices : list (list double);
  elements : list Element;
  boundary : list Element;
  Nodes : option (list double)
}.

Module MeshOps.

(** [new Mesh(dim, n_vert, n_elem, n_bdr_elem, space_dim)]: the
    constructor is given the dimensions and the sizes to allocate for; the
    mesh of the spec has no field for them, and starts with empty lists and
    without nodes. *)
Definition new_Mesh (dim n_vert n_elem n_bdr_elem space_dim : Z) : Mesh :=
  {| vertices := []; elements := []; boundary := []; Nodes := None |}.

Definition GetNE (m : Mesh) : Z := Z.of_nat (length (elements m)).
Definition GetNBE (m : Mesh) : Z := Z.of_nat (length (boundary m)).

Definition set_elements (els : list Element) (m : Mesh) : Mesh :=
  {| vertices := vertices m; elements := els; boundary := boundary m;
     Nodes := Nodes m |}.

Definition set_boundary (els : list Element) (m : Mesh) : Mesh :=
  {| vertices := vertices m; elements := elements m; boundary := els;
     Nodes := Nodes m |}.

Definition set_vertices (vs : list (list double)) (m : Mesh) : Mesh :=
  {| vertices := vs; elements := elements m; boundary := boundary m;
     Nodes := Nodes m |}.

Definition set_Nodes (n : option (list double)) (m : Mesh) : Mesh :=
  {| vertices := vertices m; elements := elements m; boundary := boundary m;
     Nodes := n |}.

(** The add operations read [nv] indices at the pointer [vi]. *)
Definition add_element (g : Geometry.Type_) (nv : nat)
    (vi : list Z) (attr : Z) (m : Mesh) : Mesh :=
  set_elements
    (elements m ++ [{| el_geom := g; el_verts := take nv vi; el_attr := attr |}]) m.

Definition add_bdr_element (g : Geometry.Type_) (nv : nat)
    (vi : list Z) (attr : Z) (m : Mesh) : Mesh :=
  set_boundary
    (boundary m ++ [{| el_geom := g; el_verts := take nv vi; el_attr := attr |}]) m.

Definition AddTriangle := add_element Geometry.TRIANGLE 3.
Definition AddQuad := add_element Geometry.SQUARE 4.
Definition AddTet := add_element Geometry.TETRAHEDRON 4.
Definition AddHex := add_element Geometry.CUBE 8.
Definition AddBdrSegment := add_bdr_element Geometry.SEGMENT 2.
Definition AddBdrTriangle := add_bdr_element Geometry.TRIANGLE 3.
Definition AddBdrQuad := add_bdr_element Geometry.SQUARE 4.

Definition AddVertex (x : list double) (m : Mesh) : Mesh :=
  set_vertices (vertices m ++ [x]) m.

End MeshOps.
Export MeshOps.

(** What the conversion asks of the node space of the curved mesh:
    [fes = nodes.FESpace()], [fec = fes->FEColl()] and [nodes.Size()]. *)
Record FiniteElementSpace := {
  GetVDim : Z;
  DofForGeometry : Geometry.Type_ -> Z;
  DofOrderForOrientation : Geometry.Type_ -> Z -> list Z;
  GetElementInteriorDofs : Z -> list Z;
  GetEdgeInteriorDofs : Z -> list Z;
  GetFaceInteriorDofs : Z -> list Z;
  DofToVDof : Z -> Z -> Z;
  nodes_Size : Z
}.

(** The parts of the library the conversion calls and this development
    does not open: the edge and face tables [FinalizeTopology] derives from
    the connectivity ([GetNEdges], [GetEdgeVertices], [GetNFaces],
    [GetFaceVertices]) and the node space [SetCurvature] allocates for an
    order, a vector dimension and an ordering. *)
Record MeshKernel := {
  edge_vertices : Mesh -> list (Z * Z);
  face_vertices : Mesh -> list (list Z);
  nodes_space : Mesh -> Z -> Z -> Ordering.Type_ -> FiniteElementSpace
}.

(** ** The canonical entity index *)

Module HashTable.

(** Modelled from the spec: the class template [HashTable] (its
    definition, general/hash.hpp, lies outside the file verified here).  The spec has it map a sorted
    2-tuple (edges) or 4-tuple (faces) of vertex indices to an index; an
    insertion returns the index of the key when the key is present and the
    next sequential index otherwise; a lookup returns the index or a
    not-found signal. *)
Definition t : Type := list (list Z).

Definition empty : t := [].

Definition sorted_key (ps : list Z) : list Z := merge_sort Z.le ps.

Definition SearchList (tbl : t) (key : list Z) : option nat :=
  fst <$> list_find (λ k, k = key) tbl.

Definition GetId (tbl : t) (ps : list Z) : Z * t :=
  let key := sorted_key ps in
  match SearchList tbl key with
  | Some i => (Z.of_nat i, tbl)
  | None => (Z.of_nat (length tbl), tbl ++ [key])
  end.

Definition FindId (tbl : t) (ps : list Z) : Z :=
  match SearchList tbl (sorted_key ps) with
  | Some i => Z.of_nat i
  | None => -1
  end.

End HashTable.

(** ** Objects and results of the two conversion functions *)

(** The running state of the coordinate scatter (lines 336-338): the
    nodes of the mesh, the read cursor in the source field, the entity
    counters by dimension and the vertex count before the current batch.
    The cursor is kept as the sum of its advances; the indices of the data
    computed from it are reduced modulo [2^64] where they are used. *)
Record scatter_state := {
  nodes : list double;
  fms_dof_offset : Z;
  mfem_ent_cnt : list Z;
  mfem_last_vert_cnt : Z
}.

(** A [Mesh*] or [DataCollection*] is [None] (nullptr) or the address of
    a live object; the heap maps the addresses of the live objects to
    their contents.  A call returns with a code, the heap it leaves and
    the content of the cell its output pointer points to, or has no
    defined behaviour. *)
Inductive outcome :=
| Returned (ret : Z) (heap : gmap nat Mesh) (out : option nat)
| Undefined.

Record DataCollection := {
  dc_name : string;
  dc_mesh : option nat
}.

Record dc_outcome := {
  retval : Z;
  dc_heap : gmap nat Mesh;
  dc_objects : gmap nat DataCollection;
  dc_out : option nat
}.

Definition collection_name : string := "collection".

(** ** FmsMeshToMesh *)

Section Conversion.

Variable K : MeshKernel.

(** *** Lines 23-71: the main component, the counts, the boundary *)

(** The first component that has coordinates. *)
Fixpoint find_main_comp (comps : list FmsComponent) (comp_id : Z)
  : option (Z * FmsComponent * FmsField) :=
  match comps with
  | [] => None
  | comp :: rest =>
      match comp_coords comp with
      | Some coords => Some (comp_id, comp, coords)
      | None => find_main_comp rest (comp_id + 1)
      end
  end.

(** [n_ents[et]]: the entities of a type, summed over the parts. *)
Definition count_ents (parts : list FmsPart) (et : FmsEntityType) : Z :=
  fold_left (fun n part => FmsInt_wrap (n + pe_num_ents (part et))) parts 0.

(** The first related component of dimension [dim-1]. *)
Fixpoint find_bdr_comp (comps : list FmsComponent) (dim : Z)
    (rel_comp_ids : list Z) : result (option (Z * FmsComponent)) :=
  match rel_comp_ids with
  | [] => Ok None
  | id :: rest =>
      comp <- rd comps id ;;
      if comp_dim comp =? FmsInt_sub dim 1 then Ok (Some (id, comp))
      else find_bdr_comp comps dim rest
  end.

(** *** Lines 77-121: the tags and the attribute arrays *)

Definition is_bdr_comp (bdr_id : option Z) (comp : Z) : bool :=
  match bdr_id with
  | Some b => comp =? b
  | None => false
  end.

Definition select_tag_step (main_id : Z) (bdr_id : option Z)
    (sel : option FmsTag * option FmsTag) (tag : FmsTag)
  : option FmsTag * option FmsTag :=
  let (elem_tag, bdr_tag) := sel in
  if negb (bool_decide (is_Some elem_tag)) && (tag_comp tag =? main_id)
  then (Some tag, bdr_tag)
  else if negb (bool_decide (is_Some bdr_tag)) && is_bdr_comp bdr_id (tag_comp tag)
  then (elem_tag, Some tag)
  else (elem_tag, bdr_tag).

Definition select_tags (tags : list FmsTag) (main_id : Z) (bdr_id : option Z)
  : option FmsTag * option FmsTag :=
  fold_left (select_tag_step main_id bdr_id) tags (None, None).

(** The [Array<int>] made of a tag: a copy of the 8-bit cells, each
    converted to [int]; the 32-bit cells themselves, read as [int]
    ([MakeRef] through an [int*] cast); any other type leaves with [err]. *)
Definition tag_attributes (tag : FmsTag) (err : Z) : result (list Z) :=
  match tag_type tag with
  | FMS_UINT8 => Ok (tag_data tag)
  | FMS_INT32 | FMS_UINT32 => Ok (map as_int32 (tag_data tag))
  | _ => Exit err
  end.

Definition attributes_of (tag : option FmsTag) (err : Z)
  : result (option (list Z)) :=
  match tag with
  | Some t => a <- tag_attributes t err ;; Ok (Some a)
  | None => Ok None
  end.

(** [tag ? attr[idx] : 1]. *)
Definition attribute_at (attr : option (list Z)) (idx : Z) : result Z :=
  match attr with
  | Some a => rd a idx
  | None => Ok 1
  end.

(** *** The vertices of the entities of a part *)

Definition ids_unsupported (pe : FmsPartEntities) : bool :=
  bool_decide (is_Some (pe_ents pe)) &&
  match pe_id_type pe with
  | FMS_INT32 | FMS_UINT32 => false
  | _ => true
  end.

(** [FmsDomainGetEntitiesVerts(domain, et, NULL, FMS_INT32, start, out, n)]. *)
Definition FmsDomainGetEntitiesVerts (domain : FmsDomain)
    (et : FmsEntityType) (start n : Z) : list Z :=
  concat (map (fun i => map (dom_entity_vert domain et (FmsInt_wrap (start + i)))
                            (seqZ 0 (FmsEntityNumVerts et)))
              (seqZ 0 n)).

(** [ents_verts]: filled in one call without ids, one entity at a time
    with ids, each id read through [const int*]. *)
Definition get_ents_verts (pe : FmsPartEntities) (et : FmsEntityType) : list Z :=
  match pe_ents pe with
  | None => FmsDomainGetEntitiesVerts (pe_domain pe) et 0 (pe_num_ents pe)
  | Some ei =>
      concat (map (fun id => FmsDomainGetEntitiesVerts (pe_domain pe) et
                               (FmsInt_wrap (as_int32 id)) 1) ei)
  end.

(** [&a[i]]: the array from cell [i] on. *)
Definition at_ (a : list Z) (i : Z) : list Z := drop (Z.to_nat i) a.

(** One [for (i < num_elems) mesh->Add...(&ents_verts[nv*i], attr)] loop. *)
Definition add_loop (add : list Z -> Z -> Mesh -> Mesh) (nv : Z)
    (ents_verts : list Z) (attr : option (list Z)) (elem_offset num_elems : Z)
    (mesh : Mesh) : result Mesh :=
  for_range num_elems
    (fun i mesh =>
       a <- attribute_at attr (elem_offset + i) ;;
       Ok (add (at_ ents_verts (nv * i)) a mesh))
    mesh.

(** *** Lines 123-188: add elements *)

Definition add_elements_step (dim : Z) (attr : option (list Z))
    (part : FmsPart) (et : FmsEntityType) (mesh : Mesh) : result Mesh :=
  if negb (FmsEntityDim et =? dim) then Ok mesh else
  let pe := part et in
  let num_elems := pe_num_ents pe in
  if num_elems =? 0 then Ok mesh else
  if ids_unsupported pe then Exit 3 else
  if bool_decide (is_Some (pe_ents_ori pe)) then Exit 4 else
  let ents_verts := get_ents_verts pe et in
  let elem_offset := GetNE mesh in
  match et with
  | FMS_EDGE => Exit 5
  | FMS_TRIANGLE => add_loop AddTriangle 3 ents_verts attr elem_offset num_elems mesh
  | FMS_QUADRILATERAL => add_loop AddQuad 4 ents_verts attr elem_offset num_elems mesh
  | FMS_TETRAHEDRON => add_loop AddTet 4 ents_verts attr elem_offset num_elems mesh
  | FMS_HEXAHEDRON => add_loop AddHex 8 ents_verts attr elem_offset num_elems mesh
  | _ => Ok mesh
  end.

Definition add_elements (dim : Z) (attr : option (list Z))
    (parts : list FmsPart) (mesh : Mesh) : result Mesh :=
  foldM (fun part => foldM (add_elements_step dim attr part) FmsEntityTypes)
        parts mesh.

(** *** Lines 190-253: add boundary elements *)

Definition add_bdr_elements_step (dim : Z) (bdr_attr : option (list Z))
    (part : FmsPart) (et : FmsEntityType) (mesh : Mesh) : result Mesh :=
  if negb (FmsEntityDim et =? FmsInt_sub dim 1) then Ok mesh else
  let pe := part et in
  let num_elems := pe_num_ents pe in
  if num_elems =? 0 then Ok mesh else
  if ids_unsupported pe then Exit 6 else
  if bool_decide (is_Some (pe_ents_ori pe)) then Exit 7 else
  let ents_verts := get_ents_verts pe et in
  let elem_offset := GetNBE mesh in
  match et with
  | FMS_EDGE => add_loop AddBdrSegment 2 ents_verts bdr_attr elem_offset num_elems mesh
  | FMS_TRIANGLE => add_loop AddBdrTriangle 3 ents_verts bdr_attr elem_offset num_elems mesh
  | FMS_QUADRILATERAL => add_loop AddBdrQuad 4 ents_verts bdr_attr elem_offset num_elems mesh
  | _ => Ok mesh
  end.

Definition add_bdr_elements (dim : Z) (bdr_attr : option (list Z))
    (bdr_comp : option FmsComponent) (n_bdr_elem : Z) (mesh : Mesh)
  : result Mesh :=
  match bdr_comp with
  | Some comp =>
      if 0 <? n_bdr_elem then
        foldM (fun part =>
                 foldM (add_bdr_elements_step dim bdr_attr part) FmsEntityTypes)
              (comp_parts comp) mesh
      else Ok mesh
  | None => Ok mesh
  end.

(** *** Lines 339-360: the canonical entity index *)

(** [for (i < GetNEdges()) if (mfem_edge.GetId(ev[0], ev[1]) != i) err = 13]. *)
Definition index_edge (i_ev : Z * (Z * Z)) (tbl : HashTable.t)
  : result HashTable.t :=
  let '(i, (ev0, ev1)) := i_ev in
  let (id, tbl') := HashTable.GetId tbl [ev0; ev1] in
  if id =? i then Ok tbl' else Exit 13.

Definition enumerate {A} (l : list A) : list (Z * A) :=
  zip (seqZ 0 (Z.of_nat (length l))) l.

Definition build_edge_index (edges : list (Z * Z)) : result HashTable.t :=
  foldM index_edge (enumerate edges) HashTable.empty.

(** [if (fv.Size() == 3) fv.Append(INT_MAX)], then the key of
    [fv[0], fv[1], fv[2], fv[3]]. *)
Definition face_key_verts (fv : list Z) : result (list Z) :=
  let fv := if Z.of_nat (length fv) =? 3 then fv ++ [INT_MAX] else fv in
  p1 <- rd fv 0 ;; p2 <- rd fv 1 ;; p3 <- rd fv 2 ;; p4 <- rd fv 3 ;;
  Ok [p1; p2; p3; p4].

Definition index_face (i_fv : Z * list Z) (tbl : HashTable.t)
  : result HashTable.t :=
  let (i, fv) := i_fv in
  ps <- face_key_verts fv ;;
  let (id, tbl') := HashTable.GetId tbl ps in
  if id =? i then Ok tbl' else Exit 14.

Definition build_face_index (faces : list (list Z)) : result HashTable.t :=
  foldM index_face (enumerate faces) HashTable.empty.

(** *** Lines 433-497: relative orientation *)

(** [ori = (ev[0] == m_ev[0]) ? 0 : 1]. *)
Definition edge_orientation (ev0 m_ev0 : Z) : Z :=
  if ev0 =? m_ev0 then 0 else 1.

(** [while (tv[ori] != m_ev0) { ori++; }] over the array [tv] points
    into: the first cell from [tv] on that holds [m_ev0], counted from
    [ori]; [None] when the search leaves the array. *)
Fixpoint rotation_search (tv : list Z) (m_ev0 : Z) (ori : Z) : option Z :=
  match tv with
  | [] => None
  | v :: tv' =>
      if v =? m_ev0 then Some ori else rotation_search tv' m_ev0 (ori + 1)
  end.

(** [int ori = 0; while (tv[ori] != m_ev[0]) { ori++; }
     ori = (tv[(ori+1)%n] == m_ev[1]) ? 2*ori : 2*ori+1;]
    with [n = 3] for a triangle and [n = 4] for a quadrilateral. *)
Definition face_orientation (n : Z) (tv m_ev : list Z) : result Z :=
  m_ev0 <- rd m_ev 0 ;;
  match rotation_search tv m_ev0 0 with
  | None => Undef
  | Some ori =>
      nxt <- rd tv ((ori + 1) mod n) ;;
      m_ev1 <- rd m_ev 1 ;;
      Ok (if nxt =? m_ev1 then 2 * ori else 2 * ori + 1)
  end.

(** *** Lines 362-502: coordinate scatter *)

Definition cnt_add (cnt : list Z) (d n : Z) : list Z :=
  <[Z.to_nat d := (cnt !!! Z.to_nat d) + n]> cnt.

Definition geometry_of (et : FmsEntityType) : Geometry.Type_ :=
  match et with
  | FMS_VERTEX => Geometry.POINT
  | FMS_EDGE => Geometry.SEGMENT
  | FMS_TRIANGLE => Geometry.TRIANGLE
  | FMS_QUADRILATERAL => Geometry.SQUARE
  | FMS_TETRAHEDRON => Geometry.TETRAHEDRON
  | FMS_HEXAHEDRON => Geometry.CUBE
  end.

Section Scatter.

Variable fes : FiniteElementSpace.
Variable coords_dbl_data : list double.
Variables nstride vstride : Z.
Variable dim : Z.
Variable edges : list (Z * Z).
Variable faces : list (list Z).
Variables mfem_edge mfem_face : HashTable.t.

Let vdim := GetVDim fes.

(** [ent_dofs[et]]. *)
Definition ent_dofs (et : FmsEntityType) : Z :=
  DofForGeometry fes (geometry_of et).

(** [nodes(dst) = coords_dbl_data[src]]. *)
Definition copy_value (dst src : Z) (nd : list double) : result (list double) :=
  v <- rd coords_dbl_data src ;;
  wr nd dst v.

(** The vertex case, lines 388-401.  The bound [num_ents*vert_dofs] of
    the loop is an [FmsInt]; [idx] is the [FmsInt] [i*nstride+j*vstride]
    stored in an [int]; the index of the node is an [FmsInt] passed to the
    [int] parameter of [nodes(...)], the index of the data an [FmsInt]. *)
Definition scatter_vertices (num_ents : Z) (st : scatter_state)
  : result scatter_state :=
  let vert_dofs := ent_dofs FMS_VERTEX in
  let mfem_dof_offset := (mfem_ent_cnt st !!! 0%nat) * vert_dofs in
  nd <- for_range (FmsInt_mul num_ents vert_dofs)
          (fun i =>
             for_range vdim
               (fun j =>
                  let idx := as_int32 (FmsInt_wrap (i * nstride + j * vstride)) in
                  copy_value
                    (as_int32 (FmsInt_wrap (mfem_dof_offset * nstride + idx)))
                    (FmsInt_wrap (fms_dof_offset st * nstride + idx))))
          (nodes st) ;;
  Ok {| nodes := nd;
        fms_dof_offset := fms_dof_offset st + num_ents * vert_dofs;
        mfem_last_vert_cnt := mfem_ent_cnt st !!! 0%nat;
        mfem_ent_cnt := cnt_add (mfem_ent_cnt st) 0 num_ents |}.

(** [for (i < n_dofs) for (j < vdim)
       nodes(fes->DofToVDof(dofs[i],j)) =
         coords_dbl_data[(offset+src i)*nstride+j*vstride];]
    the index of the data being an [FmsInt]. *)
Definition copy_dofs (n_dofs : Z) (dofs : list Z) (offset : Z)
    (src : Z -> result Z) (nd : list double) : result (list double) :=
  for_range n_dofs
    (fun i =>
       for_range vdim
         (fun j nd =>
            d <- rd dofs i ;;
            s <- src i ;;
            copy_value (DofToVDof fes d j)
                       (FmsInt_wrap ((offset + s) * nstride + j * vstride)) nd))
    nd.

(** The top-dimension case, lines 403-415: no permutation. *)
Definition scatter_elements (et : FmsEntityType) (num_ents : Z)
    (st : scatter_state) : result scatter_state :=
  st' <- for_range num_ents
           (fun e st =>
              let dofs :=
                GetElementInteriorDofs fes ((mfem_ent_cnt st !!! Z.to_nat dim) + e) in
              nd <- copy_dofs (ent_dofs et) dofs (fms_dof_offset st) Ok (nodes st) ;;
              Ok {| nodes := nd;
                    fms_dof_offset := fms_dof_offset st + Z.max 0 (ent_dofs et);
                    mfem_ent_cnt := mfem_ent_cnt st;
                    mfem_last_vert_cnt := mfem_last_vert_cnt st |})
           st ;;
  Ok {| nodes := nodes st';
        fms_dof_offset := fms_dof_offset st';
        mfem_ent_cnt := cnt_add (mfem_ent_cnt st') dim num_ents;
        mfem_last_vert_cnt := mfem_last_vert_cnt st' |}.

(** The copy of the interior DOFs of one edge or face through [perm]. *)
Definition scatter_permuted (n_dofs : Z) (perm dofs : list Z)
    (st : scatter_state) : result scatter_state :=
  nd <- copy_dofs n_dofs dofs (fms_dof_offset st) (rd perm) (nodes st) ;;
  Ok {| nodes := nd;
        fms_dof_offset := fms_dof_offset st + n_dofs;
        mfem_ent_cnt := mfem_ent_cnt st;
        mfem_last_vert_cnt := mfem_last_vert_cnt st |}.

(** One source edge, lines 435-450. *)
Definition scatter_edge (ents_verts : list Z) (part_ent_id : Z)
    (st : scatter_state) : result scatter_state :=
  let ev := at_ ents_verts (2 * part_ent_id) in
  ev0 <- rd ev 0 ;; ev1 <- rd ev 1 ;;
  let mfem_edge_id := HashTable.FindId mfem_edge [ev0; ev1] in
  if mfem_edge_id <? 0 then Exit 17 else
  m_ev <- rd edges mfem_edge_id ;;
  let ori := edge_orientation ev0 (fst m_ev) in
  let perm := DofOrderForOrientation fes Geometry.SEGMENT ori in
  let dofs := GetEdgeInteriorDofs fes mfem_edge_id in
  scatter_permuted (ent_dofs FMS_EDGE) perm dofs st.

(** One source triangle, lines 456-473. *)
Definition scatter_triangle (ents_verts : list Z) (part_ent_id : Z)
    (st : scatter_state) : result scatter_state :=
  let tv := at_ ents_verts (3 * part_ent_id) in
  tv0 <- rd tv 0 ;; tv1 <- rd tv 1 ;; tv2 <- rd tv 2 ;;
  let mfem_face_id := HashTable.FindId mfem_face [tv0; tv1; tv2; INT_MAX] in
  if mfem_face_id <? 0 then Exit 18 else
  m_ev <- rd faces mfem_face_id ;;
  ori <- face_orientation 3 tv m_ev ;;
  let perm := DofOrderForOrientation fes Geometry.TRIANGLE ori in
  let dofs := GetFaceInteriorDofs fes mfem_face_id in
  scatter_permuted (ent_dofs FMS_TRIANGLE) perm dofs st.

(** One source quadrilateral, lines 479-494. *)
Definition scatter_quad (ents_verts : list Z) (part_ent_id : Z)
    (st : scatter_state) : result scatter_state :=
  let qv := at_ ents_verts (4 * part_ent_id) in
  qv0 <- rd qv 0 ;; qv1 <- rd qv 1 ;; qv2 <- rd qv 2 ;; qv3 <- rd qv 3 ;;
  let mfem_face_id := HashTable.FindId mfem_face [qv0; qv1; qv2; qv3] in
  if mfem_face_id <? 0 then Exit 19 else
  m_ev <- rd faces mfem_face_id ;;
  ori <- face_orientation 4 qv m_ev ;;
  let perm := DofOrderForOrientation fes Geometry.SQUARE ori in
  let dofs := GetFaceInteriorDofs fes mfem_face_id in
  scatter_permuted (ent_dofs FMS_QUADRILATERAL) perm dofs st.

(** The body of the loop over the entity types of a part. *)
Definition scatter_step (part : FmsPart) (et : FmsEntityType)
    (st : scatter_state) : result scatter_state :=
  let pe := part et in
  let num_ents := pe_num_ents pe in
  if num_ents =? 0 then Ok st else
  if ent_dofs et =? 0 then
    Ok {| nodes := nodes st;
          fms_dof_offset := fms_dof_offset st;
          mfem_last_vert_cnt :=
            match et with
            | FMS_VERTEX => mfem_ent_cnt st !!! 0%nat
            | _ => mfem_last_vert_cnt st
            end;
          mfem_ent_cnt := cnt_add (mfem_ent_cnt st) (FmsEntityDim et) num_ents |}
  else
  if ids_unsupported pe then Exit 15 else
  if bool_decide (is_Some (pe_ents_ori pe)) then Exit 16 else
  match et with
  | FMS_VERTEX => scatter_vertices num_ents st
  | _ =>
      if FmsEntityDim et =? dim then scatter_elements et num_ents st else
      let ents_verts :=
        map (fun v => v + mfem_last_vert_cnt st) (get_ents_verts pe et) in
      st' <- match et with
             | FMS_EDGE => for_range num_ents (scatter_edge ents_verts) st
             | FMS_TRIANGLE => for_range num_ents (scatter_triangle ents_verts) st
             | FMS_QUADRILATERAL => for_range num_ents (scatter_quad ents_verts) st
             | _ => Ok st
             end ;;
      Ok {| nodes := nodes st';
            fms_dof_offset := fms_dof_offset st';
            mfem_ent_cnt := cnt_add (mfem_ent_cnt st') (FmsEntityDim et) num_ents;
            mfem_last_vert_cnt := mfem_last_vert_cnt st' |}
  end.

Definition scatter (parts : list FmsPart) (st : scatter_state)
  : result scatter_state :=
  foldM (fun part => foldM (scatter_step part) FmsEntityTypes) parts st.

End Scatter.

(** *** Lines 259-503: transfer coordinates *)

Definition guard (ok : bool) (err : Z) : result unit :=
  if ok then Ok tt else Exit err.

Definition is_double (t : FmsScalarType) : bool :=
  match t with FMS_DOUBLE => true | _ => false end.
Definition is_fixed_order (t : FmsFieldDescriptorType) : bool :=
  match t with FMS_FIXED_ORDER => true | _ => false end.
Definition is_continuous (t : FmsFieldType) : bool :=
  match t with FMS_CONTINUOUS => true | _ => false end.
Definition is_nodal_gauss_closed (t : FmsBasisType) : bool :=
  match t with FMS_NODAL_GAUSS_CLOSED => true | _ => false end.
Definition is_by_vdim (l : FmsLayoutType) : bool :=
  match l with FMS_BY_VDIM => true | _ => false end.

Definition origin : list double := [0; 0; 0].

Definition initial_scatter_state (nd : list double) : scatter_state :=
  {| nodes := nd; fms_dof_offset := 0;
     mfem_ent_cnt := [0; 0; 0; 0]; mfem_last_vert_cnt := 0 |}.

(** Lines 261-338: the checks of the field, the vertices, the
    finalization and the node space. *)
Record finalized := {
  fin_mesh : Mesh;
  fin_edges : list (Z * Z);
  fin_faces : list (list Z);
  fin_fes : FiniteElementSpace;
  fin_nstride : Z;
  fin_vstride : Z
}.

Definition finalize_mesh (coords : FmsField) (n_vert space_dim : Z)
    (mesh : Mesh) : result finalized :=
  let coords_fd := fld_fd coords in
  let coords_layout := fld_layout coords in
  let coords_num_dofs := fd_num_dofs coords_fd in
  _ <- guard (is_double (fld_data_type coords)) 8 ;;
  _ <- guard (is_fixed_order (fd_type coords_fd)) 9 ;;
  _ <- guard (is_continuous (fd_field_type coords_fd)) 10 ;;
  _ <- guard (is_nodal_gauss_closed (fd_basis_type coords_fd)) 11 ;;
  let nstride := if is_by_vdim coords_layout then space_dim else 1 in
  let vstride := if is_by_vdim coords_layout then 1 else coords_num_dofs in
  (* Set the vertex coordinates to zero *)
  let mesh := Nat.iter (Z.to_nat n_vert) (AddVertex origin) mesh in
  (* FinalizeTopology, SetCurvature, Finalize: the tables and the node
     space of the finalized mesh *)
  let fes := nodes_space K mesh (fd_order coords_fd) space_dim
               (if is_by_vdim coords_layout then Ordering.byVDIM
                else Ordering.byNODES) in
  _ <- guard (FmsInt_wrap (nodes_Size fes) =? FmsInt_mul coords_num_dofs space_dim) 12 ;;
  Ok {| fin_mesh := mesh;
        fin_edges := edge_vertices K mesh;
        fin_faces := face_vertices K mesh;
        fin_fes := fes;
        fin_nstride := nstride;
        fin_vstride := vstride |}.

(** Lines 339-360: the two tables, each built under its condition. *)
Definition build_edge_table (dim : Z) (fin : finalized) : result HashTable.t :=
  if (2 <=? dim) && (0 <? DofForGeometry (fin_fes fin) Geometry.SEGMENT)
  then build_edge_index (fin_edges fin) else Ok HashTable.empty.

Definition build_face_table (dim : Z) (n_ents : FmsEntityType -> Z)
    (fin : finalized) : result HashTable.t :=
  if (3 <=? dim) &&
     (((0 <? n_ents FMS_TRIANGLE) &&
       (0 <? DofForGeometry (fin_fes fin) Geometry.TRIANGLE)) ||
      ((0 <? n_ents FMS_QUADRILATERAL) &&
       (0 <? DofForGeometry (fin_fes fin) Geometry.SQUARE)))
  then build_face_index (fin_faces fin) else Ok HashTable.empty.

(** The nodes of the curved mesh interpolate the vertices, all at the
    origin, before the scatter overwrites them. *)
Definition initial_nodes (fes : FiniteElementSpace) : list double :=
  replicate (Z.to_nat (nodes_Size fes)) (0 : double).

Definition transfer_coordinates (coords : FmsField) (parts : list FmsPart)
    (dim n_vert space_dim : Z) (n_ents : FmsEntityType -> Z) (mesh : Mesh)
  : result Mesh :=
  fin <- finalize_mesh coords n_vert space_dim mesh ;;
  mfem_edge <- build_edge_table dim fin ;;
  mfem_face <- build_face_table dim n_ents fin ;;
  st <- scatter (fin_fes fin) (fld_data coords) (fin_nstride fin)
          (fin_vstride fin) dim (fin_edges fin) (fin_faces fin)
          mfem_edge mfem_face parts
          (initial_scatter_state (initial_nodes (fin_fes fin))) ;;
  Ok (set_Nodes (Some (nodes st)) (fin_mesh fin)).

(** *** Lines 73-503: from the allocation to [func_exit] *)

Definition n_bdr_elem_of (bdr : option (Z * FmsComponent)) : Z :=
  match bdr with
  | Some (_, comp) => comp_num_entities comp
  | None => 0
  end.

(** Lines 77-253: the tags, the attributes, the elements and the
    boundary elements. *)
Definition build_topology (fms_mesh : FmsMesh) (main_id : Z)
    (main_comp : FmsComponent) (bdr : option (Z * FmsComponent))
    (mesh : Mesh) : result Mesh :=
  let dim := comp_dim main_comp in
  let (elem_tag, bdr_tag) :=
    select_tags (fms_tags fms_mesh) main_id (fst <$> bdr) in
  attr <- attributes_of elem_tag 1 ;;
  bdr_attr <- attributes_of bdr_tag 2 ;;
  mesh <- add_elements dim attr (comp_parts main_comp) mesh ;;
  add_bdr_elements dim bdr_attr (snd <$> bdr) (n_bdr_elem_of bdr) mesh.

Definition build_mesh (fms_mesh : FmsMesh) (main_id : Z)
    (main_comp : FmsComponent) (coords : FmsField)
    (bdr : option (Z * FmsComponent)) (mesh : Mesh) : result Mesh :=
  let parts := comp_parts main_comp in
  let n_ents := count_ents parts in
  mesh <- build_topology fms_mesh main_id main_comp bdr mesh ;;
  transfer_coordinates coords parts (comp_dim main_comp)
    (n_ents FMS_VERTEX) (fld_num_vec_comp coords) n_ents mesh.

(** *** The function, with the heap of [Mesh] objects and the cell
    [*mfem_mesh] of the caller *)

Definition FmsMeshToMesh (fms_mesh : FmsMesh)
    (heap : gmap nat Mesh) (mfem_mesh : option nat) : outcome :=
  match find_main_comp (fms_comps fms_mesh) 0 with
  | None => Returned 1 heap mfem_mesh
  | Some (main_id, main_comp, coords) =>
      let dim := comp_dim main_comp in
      let n_elem := comp_num_entities main_comp in
      let n_vert := count_ents (comp_parts main_comp) FMS_VERTEX in
      match find_bdr_comp (fms_comps fms_mesh) dim (comp_relations main_comp) with
      | Ok bdr =>
          let n_bdr_elem := n_bdr_elem_of bdr in
          let space_dim := fld_num_vec_comp coords in
          (* mesh = new Mesh(...) *)
          let mesh := fresh (dom heap) in
          let heap := <[mesh := new_Mesh dim n_vert n_elem n_bdr_elem space_dim]> heap in
          match build_mesh fms_mesh main_id main_comp coords bdr
                  (new_Mesh dim n_vert n_elem n_bdr_elem space_dim) with
          | Ok m =>
              (* err == 0: *mfem_mesh = mesh *)
              Returned 0 (<[mesh := m]> heap) (Some mesh)
          | Exit err =>
              (* delete mesh *)
              Returned err (delete mesh heap) mfem_mesh
          | Undef => Undefined
          end
      | _ => Undefined
      end
  end.

(** ** FmsDataCollectionToDataCollection *)

Definition FmsDataCollectionToDataCollection (dc : FmsDataCollection)
    (heap : gmap nat Mesh) (objects : gmap nat DataCollection)
    (mfem_dc : option nat) : option dc_outcome :=
  let fms_mesh := fdc_mesh dc in
  (* Mesh *mesh = nullptr *)
  match FmsMeshToMesh fms_mesh heap None with
  | Returned ret heap mesh =>
      if ret =? 0 then
        let mdc := fresh (dom objects) in
        Some {| retval := 1 (* retval = true *);
                dc_heap := heap;
                dc_objects :=
                  <[mdc := {| dc_name := collection_name; dc_mesh := mesh |}]> objects;
                dc_out := Some mdc |}
      else
        Some {| retval := 1; dc_heap := heap; dc_objects := objects;
                dc_out := mfem_dc |}
  | Undefined => None
  end.

End Conversion.

(** * Example inputs *)

(** Kernels and source meshes the statements are evaluated on. *)
Module Examples.

(** A kernel for meshes of triangles and quadrilaterals in the plane
    with H1 nodes of order 1 or 2: the edges in order of first
    appearance, no faces; one DOF per vertex, [order-1] per edge; the
    DOFs numbered vertices first, then edges. *)
Definition element_edges (e : Element) : list (Z * Z) :=
  match el_verts e with
  | [a; b; c] => [(a, b); (b, c); (c, a)]
  | [a; b; c; d] => [(a, b); (b, c); (c, d); (d, a)]
  | _ => []
  end.

Definition same_edge (e1 e2 : Z * Z) : bool :=
  ((fst e1 =? fst e2) && (snd e1 =? snd e2)) ||
  ((fst e1 =? snd e2) && (snd e1 =? fst e2)).

Definition add_edge (acc : list (Z * Z)) (e : Z * Z) : list (Z * Z) :=
  if existsb (same_edge e) acc then acc else acc ++ [e].

Definition plane_edges (m : Mesh) : list (Z * Z) :=
  fold_left add_edge (concat (map element_edges (elements m))) [].

Definition plane_space (m : Mesh) (order vdim : Z) (ord : Ordering.Type_)
  : FiniteElementSpace :=
  let nv := Z.of_nat (length (vertices m)) in
  let ne := Z.of_nat (length (plane_edges m)) in
  let ndofs := nv + (order - 1) * ne in
  {| GetVDim := vdim;
     DofForGeometry g :=
       match g with
       | Geometry.POINT => 1
       | Geometry.SEGMENT => order - 1
       | _ => 0
       end;
     DofOrderForOrientation g ori := [0];
     GetElementInteriorDofs e := [];
     GetEdgeInteriorDofs i := [nv + i];
     GetFaceInteriorDofs i := [];
     DofToVDof dof vd :=
       match ord with
       | Ordering.byNODES => dof + vd * ndofs
       | Ordering.byVDIM => dof * vdim + vd
       end;
     nodes_Size := ndofs * vdim |}.

Definition plane_kernel : MeshKernel :=
  {| edge_vertices := plane_edges;
     face_vertices m := [];
     nodes_space := plane_space |}.

(** One triangle: a domain of 3 vertices, 3 edges, 1 triangle. *)
Definition tri_domain : FmsDomain :=
  {| dom_entity_vert et e j :=
       match et with
       | FMS_VERTEX => e
       | FMS_EDGE => (e + j) mod 3
       | _ => j
       end |}.

Definition all_ents (n : Z) (ori : option (list Z)) : FmsPartEntities :=
  {| pe_domain := tri_domain; pe_id_type := FMS_INT32; pe_ents := None;
     pe_ents_ori := ori; pe_num_all := n |}.

Definition tri_part (edge_ori : option (list Z)) : FmsPart :=
  fun et =>
    match et with
    | FMS_VERTEX => all_ents 3 None
    | FMS_EDGE => all_ents 3 edge_ori
    | FMS_TRIANGLE => all_ents 1 None
    | _ => all_ents 0 None
    end.

Definition bdr_part : FmsPart :=
  fun et =>
    match et with
    | FMS_EDGE => all_ents 3 None
    | _ => all_ents 0 None
    end.

Definition tri_coords (order : Z) (data : list double) : FmsField :=
  {| fld_fd := {| fd_num_dofs := Z.of_nat (length data) / 2;
                  fd_type := FMS_FIXED_ORDER;
                  fd_field_type := FMS_CONTINUOUS;
                  fd_basis_type := FMS_NODAL_GAUSS_CLOSED;
                  fd_order := order |};
     fld_num_vec_comp := 2; fld_layout := FMS_BY_VDIM;
     fld_data_type := FMS_DOUBLE; fld_data := data |}.

Definition tri_mesh (order : Z) (data : list double)
    (edge_ori : option (list Z)) (tags : list FmsTag) : FmsMesh :=
  {| fms_comps :=
       [ {| comp_coords := Some (tri_coords order data); comp_dim := 2;
            comp_num_entities := 1; comp_parts := [tri_part edge_ori];
            comp_relations := [1] |};
         {| comp_coords := None; comp_dim := 1; comp_num_entities := 3;
            comp_parts := [bdr_part]; comp_relations := [] |} ];
     fms_tags := tags |}.

End Examples.

(** A kernel for one tetrahedron with H1 nodes of order 3: six edges
    with two DOFs each, four triangular faces with one DOF each, no DOF
    inside; the DOFs numbered vertices, then edges, then faces. *)
Module TetExample.

Definition tet_edges : list (Z * Z) :=
  [(0, 1); (0, 2); (0, 3); (1, 2); (1, 3); (2, 3)].

Definition tet_faces : list (list Z) :=
  [[1; 2; 3]; [0; 3; 2]; [0; 1; 3]; [0; 2; 1]].

Definition tet_space (m : Mesh) (order vdim : Z) (ord : Ordering.Type_)
  : FiniteElementSpace :=
  {| GetVDim := vdim;
     DofForGeometry g :=
       match g with
       | Geometry.POINT => 1
       | Geometry.SEGMENT => 2
       | Geometry.TRIANGLE => 1
       | _ => 0
       end;
     DofOrderForOrientation g ori :=
       match g with
       | Geometry.SEGMENT => if ori =? 0 then [0; 1] else [1; 0]
       | _ => [0]
       end;
     GetElementInteriorDofs e := [];
     GetEdgeInteriorDofs i := [4 + 2 * i; 4 + 2 * i + 1];
     GetFaceInteriorDofs i := [16 + i];
     DofToVDof dof vd :=
       match ord with
       | Ordering.byNODES => dof + vd * 20
       | Ordering.byVDIM => dof * vdim + vd
       end;
     nodes_Size := 20 * vdim |}.

Definition tet_kernel : MeshKernel :=
  {| edge_vertices m := tet_edges;
     face_vertices m := tet_faces;
     nodes_space := tet_space |}.

(** The source: the edges and the triangles in an order and with vertex
    orders of their own. *)
Definition source_edges : list (list Z) :=
  [[1; 0]; [1; 2]; [2; 0]; [0; 3]; [3; 1]; [2; 3]].

Definition source_triangles : list (list Z) :=
  [[0; 1; 2]; [3; 1; 0]; [2; 3; 1]; [3; 0; 2]].

Definition tet_domain : FmsDomain :=
  {| dom_entity_vert et e j :=
       match et with
       | FMS_VERTEX => e
       | FMS_EDGE => nth (Z.to_nat j) (nth (Z.to_nat e) source_edges []) 0
       | FMS_TRIANGLE => nth (Z.to_nat j) (nth (Z.to_nat e) source_triangles []) 0
       | _ => j
       end |}.

Definition tet_ents (n : Z) : FmsPartEntities :=
  {| pe_domain := tet_domain; pe_id_type := FMS_INT32; pe_ents := None;
     pe_ents_ori := None; pe_num_all := n |}.

Definition tet_part : FmsPart :=
  fun et =>
    match et with
    | FMS_VERTEX => tet_ents 4
    | FMS_EDGE => tet_ents 6
    | FMS_TRIANGLE => tet_ents 4
    | FMS_TETRAHEDRON => tet_ents 1
    | _ => tet_ents 0
    end.

Definition tet_data : list double := seqZ 100 60.

Definition tet_coords : FmsField :=
  {| fld_fd := {| fd_num_dofs := 20;
                  fd_type := FMS_FIXED_ORDER;
                  fd_field_type := FMS_CONTINUOUS;
                  fd_basis_type := FMS_NODAL_GAUSS_CLOSED;
                  fd_order := 3 |};
     fld_num_vec_comp := 3; fld_layout := FMS_BY_VDIM;
     fld_data_type := FMS_DOUBLE; fld_data := tet_data |}.

Definition tet_mesh : FmsMesh :=
  {| fms_comps :=
       [ {| comp_coords := Some tet_coords; comp_dim := 3;
            comp_num_entities := 1; comp_parts := [tet_part];
            comp_relations := [] |} ];
     fms_tags := [] |}.

End TetExample.

(** Inputs of the examples: a source collection around a source mesh, and
    a heap with one live mesh at address 7. *)
Module ExampleCalls.
Import Examples.

Definition vertex_data : list double := [10; 11; 20; 21; 30; 31].
Definition vertex_edge_data : list double :=
  [10; 11; 20; 21; 30; 31; 40; 41; 50; 51; 60; 61].

(** Order 1, no tag, no orientation array. *)
Definition linear_triangle : FmsMesh := tri_mesh 1 vertex_data None [].

(** Order 2, the edges of the part with an orientation array. *)
Definition oriented_quadratic_triangle : FmsMesh :=
  tri_mesh 2 vertex_edge_data (Some [0; 0; 0]) [].

(** Order 1, the edges of the part with an orientation array. *)
Definition oriented_linear_triangle : FmsMesh :=
  tri_mesh 1 vertex_data (Some [0; 0; 0]) [].

(** Order 1, and a third component, neither main nor boundary, whose
    one triangle carries an orientation array. *)
Definition flagged_triangle_part : FmsPart :=
  fun et =>
    match et with
    | FMS_VERTEX => all_ents 3 None
    | FMS_EDGE => all_ents 3 None
    | FMS_TRIANGLE => all_ents 1 (Some [0])
    | _ => all_ents 0 None
    end.

Definition triangle_with_flagged_component : FmsMesh :=
  {| fms_comps :=
       fms_comps linear_triangle ++
       [ {| comp_coords := None; comp_dim := 2; comp_num_entities := 1;
            comp_parts := [flagged_triangle_part]; comp_relations := [] |} ];
     fms_tags := [] |}.

Definition old_heap : gmap nat Mesh := {[ 7%nat := new_Mesh 1 0 0 0 1 ]}.
Definition empty_heap : gmap nat Mesh := ∅.

(** Order 2, no tag, no orientation array. *)
Definition quadratic_triangle : FmsMesh := tri_mesh 2 vertex_edge_data None [].

(** A kernel whose finalization lists every edge twice. *)
Definition doubled_edges_kernel : MeshKernel :=
  {| edge_vertices m := plane_edges m ++ plane_edges m;
     face_vertices m := [];
     nodes_space := plane_space |}.

(** A mesh of dimension 1: one segment between two vertices, the two
    vertices as its boundary component. *)
Definition seg_domain : FmsDomain :=
  {| dom_entity_vert et e j := match et with FMS_VERTEX => e | _ => j end |}.

Definition seg_ents (n : Z) : FmsPartEntities :=
  {| pe_domain := seg_domain; pe_id_type := FMS_INT32; pe_ents := None;
     pe_ents_ori := None; pe_num_all := n |}.

Definition seg_part : FmsPart :=
  fun et =>
    match et with
    | FMS_VERTEX => seg_ents 2
    | FMS_EDGE => seg_ents 1
    | _ => seg_ents 0
    end.

Definition end_points_part : FmsPart :=
  fun et => match et with FMS_VERTEX => seg_ents 2 | _ => seg_ents 0 end.

Definition segment : FmsMesh :=
  {| fms_comps :=
       [ {| comp_coords := Some (tri_coords 1 [10; 11; 20; 21]); comp_dim := 1;
            comp_num_entities := 1; comp_parts := [seg_part];
            comp_relations := [1] |};
         {| comp_coords := None; comp_dim := 0; comp_num_entities := 2;
            comp_parts := [end_points_part]; comp_relations := [] |} ];
     fms_tags := [] |}.

(** Order 1, an unsigned 32-bit tag on the main component and an 8-bit
    tag on the boundary component. *)
Definition element_tag : FmsTag :=
  {| tag_comp := 0; tag_type := FMS_UINT32; tag_data := [4294967295] |}.
Definition boundary_tag : FmsTag :=
  {| tag_comp := 1; tag_type := FMS_UINT8; tag_data := [5; 6; 7] |}.
Definition tagged_triangle : FmsMesh :=
  tri_mesh 1 vertex_data None [element_tag; boundary_tag].

End ExampleCalls.

(** * Predicates of the statements *)

(** [exits P r]: when [r] leaves through [func_exit], its code is in [P]. *)
Definition exits {A} (P : Z -> Prop) (r : result A) : Prop :=
  forall e, r = Exit e -> P e.

(** [attrs_ok attr els]: the element at position [k] of [els] has the
    attribute [attr[k]] when there is a tag, 1 when there is none. *)
Definition attrs_ok (attr : option (list Z)) (els : list Element) : Prop :=
  forall (k : nat) (e : Element),
    els !! k = Some e -> attribute_at attr (Z.of_nat k) = Ok (el_attr e).

(** The codes [func_exit] is reached with. *)
Definition nonzero (e : Z) : Prop := 1 <= e <= 19.

(** [converts K fms m]: the main component is found, every check of the
    conversion passes and [m] is the mesh built. *)
Definition converts (K : MeshKernel) (fms_mesh : FmsMesh) (m : Mesh) : Prop :=
  exists main_id main_comp coords bdr,
    find_main_comp (fms_comps fms_mesh) 0 = Some (main_id, main_comp, coords) /\
    find_bdr_comp (fms_comps fms_mesh) (comp_dim main_comp)
      (comp_relations main_comp) = Ok bdr /\
    build_mesh K fms_mesh main_id main_comp coords bdr
      (new_Mesh (comp_dim main_comp)
         (count_ents (comp_parts main_comp) FMS_VERTEX)
         (comp_num_entities main_comp) (n_bdr_elem_of bdr)
         (fld_num_vec_comp coords)) = Ok m.

(** The keys of the canonical entity index: of an edge, and of a face
    (its first four vertices, a triangle padded with [INT_MAX]). *)
Definition edge_key (ev : Z * Z) : list Z :=
  HashTable.sorted_key [fst ev; snd ev].

Definition padded_face (fv : list Z) : list Z :=
  take 4 (if Z.of_nat (length fv) =? 3 then fv ++ [INT_MAX] else fv).

Definition face_key (fv : list Z) : list Z :=
  HashTable.sorted_key (padded_face fv).

(** The common shape of the two loops that build the index: insert the
    key of an entry, compare the index returned with its position. *)
Definition index_entry {A} (key_of : A -> result (list Z)) (err : Z)
    (i_x : Z * A) (tbl : HashTable.t) : result HashTable.t :=
  ps <- key_of (snd i_x) ;;
  let (id, tbl') := HashTable.GetId tbl ps in
  if id =? fst i_x then Ok tbl' else Exit err.

(** Some part of some component of the mesh has, for some entity type, a
    non-null orientation array. *)
Definition has_orientation_flags (fms_mesh : FmsMesh) : Prop :=
  exists comp part et,
    In comp (fms_comps fms_mesh) /\ In part (comp_parts comp) /\
    is_Some (pe_ents_ori (part et)).


(** The comment at line 356 says that the table uses the smallest three
    of the four indices to hash a face.  Should the table also tell faces
    apart by these three indices alone, a lookup would be the following. *)
Module ThreeSmallest.

Definition key3 (ps : list Z) : list Z := take 3 (HashTable.sorted_key ps).

Definition FindId3 (faces : list (list Z)) (ps : list Z) : Z :=
  match list_find (λ fv, key3 (padded_face fv) = key3 ps) faces with
  | Some (i, _) => Z.of_nat i
  | None => -1
  end.

End ThreeSmallest.

(** * Further predicates of the statements *)


(** The integer types an attribute array is made of (lines 99-107). *)
Definition supported_tag_type (t : FmsIntType) : bool :=
  match t with
  | FMS_UINT8 | FMS_INT32 | FMS_UINT32 => true
  | _ => false
  end.

(** ** The entities of a part as the elements they become *)

(** The entity of the domain behind entity [i] of an enumeration: entity
    [i] when the part lists no ids (lines 147-149), the entity named by
    cell [i] of the ids, read through [const int*], when it does
    (lines 150-156). *)
Definition entity_id (pe : FmsPartEntities) (i : Z) : Z :=
  match pe_ents pe with
  | None => FmsInt_wrap i
  | Some ei => FmsInt_wrap (as_int32 (ei !!! Z.to_nat i))
  end.

(** Its vertices, as the domain lists them. *)
Definition entity_verts (pe : FmsPartEntities) (et : FmsEntityType) (i : Z)
  : list Z :=
  map (dom_entity_vert (pe_domain pe) et (entity_id pe i))
      (seqZ 0 (FmsEntityNumVerts et)).

(** Geometry and vertices of an element. *)
Definition shape (e : Element) : Geometry.Type_ * list Z :=
  (el_geom e, el_verts e).

(** The entity types with a case in the switch of the element pass
    (lines 160-186) and of the boundary pass (lines 229-250) that adds. *)
Definition is_element_type (et : FmsEntityType) : bool :=
  match et with
  | FMS_TRIANGLE | FMS_QUADRILATERAL | FMS_TETRAHEDRON | FMS_HEXAHEDRON => true
  | _ => false
  end.

Definition is_bdr_element_type (et : FmsEntityType) : bool :=
  match et with
  | FMS_EDGE | FMS_TRIANGLE | FMS_QUADRILATERAL => true
  | _ => false
  end.

(** The entities of the selected types: part after part, in each part
    type after type, of each type entity after entity. *)
Definition entities_of_type (sel : FmsEntityType -> bool) (part : FmsPart)
    (et : FmsEntityType) : list (Geometry.Type_ * list Z) :=
  if sel et
  then map (fun i => (geometry_of et, entity_verts (part et) et i))
           (seqZ 0 (pe_num_ents (part et)))
  else [].

Definition entities_as_elements (sel : FmsEntityType -> bool)
    (parts : list FmsPart) : list (Geometry.Type_ * list Z) :=
  concat (map (fun part => concat (map (entities_of_type sel part) FmsEntityTypes))
              parts).

(** The number of entities of a type in the parts, as a plain sum. *)
Definition total_ents (parts : list FmsPart) (et : FmsEntityType) : Z :=
  foldr (fun part n => pe_num_ents (part et) + n) 0 parts.

(** ** The nodes of a mesh whose DOFs are all at vertices *)

(** Cell [k] of the node array holds the value of cell [k] of the data
    of the field. *)
Definition same_cell (data nd : list double) (k : Z) : Prop :=
  exists v, rd nd k = Ok v /\ rd data k = Ok v.

(** So do the cells of the components of the first [n] DOFs. *)
Definition copied_below (data : list double) (nstride vstride vdim n : Z)
    (nd : list double) : Prop :=
  forall i j, 0 <= i < n -> 0 <= j < vdim ->
    same_cell data nd (i * nstride + j * vstride).

(** What the scatter keeps true while vertices alone have DOFs: [c]
    vertices counted, the read cursor at their DOFs, the node array of its
    first size and equal to the data below the cursor. *)
Definition vertex_scatter_inv (fes : FiniteElementSpace) (data : list double)
    (nstride vstride : Z) (size : nat) (c : Z) (st : scatter_state) : Prop :=
  0 <= c /\
  length (mfem_ent_cnt st) = 4%nat /\
  mfem_ent_cnt st !!! 0%nat = c /\
  fms_dof_offset st = c * ent_dofs fes FMS_VERTEX /\
  length (nodes st) = size /\
  copied_below data nstride vstride (GetVDim fes)
    (c * ent_dofs fes FMS_VERTEX) (nodes st).

(** The [n] vertex DOFs are counted in an [int], and so are the indices
    [i*nstride + j*vstride] of their components, which the code stores in
    one (line 392). *)
Definition indices_fit_int (nstride vstride vdim n : Z) : Prop :=
  n < 2 ^ 31 /\
  forall i j, 0 <= i < n -> 0 <= j < vdim ->
    0 <= i * nstride + j * vstride < 2 ^ 31.

(** ** What the scatter stores *)

(** A node array of a given size whose cells hold 0, the value the
    nodes start from, or a value of the data of the field. *)
Definition nodes_from (data : list double) (size : nat) (nd : list double)
  : Prop :=
  length nd = size /\ Forall (fun v => v = 0 \/ In v data) nd.

(** ** The node space of the conversion *)

(** The node space [SetCurvature] allocates (lines 296-313) on the mesh
    [mesh1] the passes over the elements and the boundary elements leave:
    after the [n_vert] vertices, with the order, the vector dimension and
    the ordering of the coordinates field. *)
Definition built_space (K : MeshKernel) (coords : FmsField) (n_vert : Z)
    (mesh1 : Mesh) : FiniteElementSpace :=
  nodes_space K (Nat.iter (Z.to_nat n_vert) (AddVertex origin) mesh1)
    (fd_order (fld_fd coords)) (fld_num_vec_comp coords)
    (if is_by_vdim (fld_layout coords) then Ordering.byVDIM
     else Ordering.byNODES).

(** The mesh the two passes are run on, and the mesh they leave. *)
Definition allocated (main_comp : FmsComponent) (coords : FmsField)
    (bdr : option (Z * FmsComponent)) : Mesh :=
  new_Mesh (comp_dim main_comp) (count_ents (comp_parts main_comp) FMS_VERTEX)
    (comp_num_entities main_comp) (n_bdr_elem_of bdr) (fld_num_vec_comp coords).

(** [dofs_in_built_space K fms main_id main_comp coords bdr et P]: when
    the two passes complete, the number of DOFs the node space built on
    their mesh has for the type [et] satisfies [P]. *)
Definition dofs_in_built_space (K : MeshKernel) (fms : FmsMesh) (main_id : Z)
    (main_comp : FmsComponent) (coords : FmsField)
    (bdr : option (Z * FmsComponent)) (et : FmsEntityType) (P : Z -> Prop)
  : Prop :=
  forall mesh1,
    build_topology fms main_id main_comp bdr (allocated main_comp coords bdr)
      = Ok mesh1 ->
    P (ent_dofs
         (built_space K coords (count_ents (comp_parts main_comp) FMS_VERTEX) mesh1)
         et).

(** ** A mesh without its orientation arrays *)

Definition clear_ori (pe : FmsPartEntities) : FmsPartEntities :=
  {| pe_domain := pe_domain pe; pe_id_type := pe_id_type pe;
     pe_ents := pe_ents pe; pe_ents_ori := None; pe_num_all := pe_num_all pe |}.

Definition erase_part_ori (part : FmsPart) : FmsPart :=
  fun et => clear_ori (part et).

Definition erase_comp_ori (comp : FmsComponent) : FmsComponent :=
  {| comp_coords := comp_coords comp; comp_dim := comp_dim comp;
     comp_num_entities := comp_num_entities comp;
     comp_parts := map erase_part_ori (comp_parts comp);
     comp_relations := comp_relations comp |}.

Definition erase_ori (fms : FmsMesh) : FmsMesh :=
  {| fms_comps := map erase_comp_ori (fms_comps fms);
     fms_tags := fms_tags fms |}.

(** The orientation arrays of a mesh that no pass looks at: every
    orientation array on a part of the main component is on an empty
    enumeration or on entities that are not of the top dimension and have
    no DOF in the node space built; every one on a part of the boundary
    component, when that component reports entities, is on an empty
    enumeration or on entities that are not of dimension [dim-1].  The
    other components are not constrained. *)
Definition orientation_unchecked (K : MeshKernel) (fms : FmsMesh) (main_id : Z)
    (main_comp : FmsComponent) (coords : FmsField)
    (bdr : option (Z * FmsComponent)) : Prop :=
  (forall part et,
     In part (comp_parts main_comp) -> is_Some (pe_ents_ori (part et)) ->
     pe_num_ents (part et) = 0 \/
     (FmsEntityDim et <> comp_dim main_comp /\
      dofs_in_built_space K fms main_id main_comp coords bdr et (fun n => n = 0))) /\
  (forall bdr_id bdr_comp part et,
     bdr = Some (bdr_id, bdr_comp) -> 0 < comp_num_entities bdr_comp ->
     In part (comp_parts bdr_comp) -> is_Some (pe_ents_ori (part et)) ->
     pe_num_ents (part et) = 0 \/
     FmsEntityDim et <> FmsInt_sub (comp_dim main_comp) 1).

(** * Further example inputs *)

Module MoreExamples.
Import Examples.

(** The triangle of [tri_mesh] with a field of another kind. *)
Definition tri_mesh_with (coords : FmsField) (tags : list FmsTag) : FmsMesh :=
  {| fms_comps :=
       [ {| comp_coords := Some coords; comp_dim := 2;
            comp_num_entities := 1; comp_parts := [tri_part None];
            comp_relations := [1] |};
         {| comp_coords := None; comp_dim := 1; comp_num_entities := 3;
            comp_parts := [bdr_part]; comp_relations := [] |} ];
     fms_tags := tags |}.

Definition discontinuous_coords : FmsField :=
  {| fld_fd := {| fd_num_dofs := 3;
                  fd_type := FMS_FIXED_ORDER;
                  fd_field_type := FMS_DISCONTINUOUS;
                  fd_basis_type := FMS_NODAL_GAUSS_CLOSED;
                  fd_order := 1 |};
     fld_num_vec_comp := 2; fld_layout := FMS_BY_VDIM;
     fld_data_type := FMS_DOUBLE; fld_data := [10; 11; 20; 21; 30; 31] |}.

Definition discontinuous_triangle : FmsMesh :=
  tri_mesh_with discontinuous_coords [].

(** A 64-bit tag on the main component. *)
Definition wide_tag : FmsTag :=
  {| tag_comp := 0; tag_type := FMS_UINT64; tag_data := [1] |}.

Definition wide_tagged_triangle : FmsMesh :=
  tri_mesh 1 [10; 11; 20; 21; 30; 31] None [wide_tag].

(** Order 1, a tag on the main component and none on the boundary
    component. *)
Definition element_tagged_triangle : FmsMesh :=
  tri_mesh 1 [10; 11; 20; 21; 30; 31] None [ExampleCalls.element_tag].

End MoreExamples.

(** A triangle listed by an id of 64-bit type. *)
Module WideIds.
Import Examples.

(** The triangle of [tri_part], listed by an id of 64-bit type. *)
Definition wide_ids_part : FmsPart :=
  fun et =>
    match et with
    | FMS_TRIANGLE =>
        {| pe_domain := tri_domain; pe_id_type := FMS_UINT64;
           pe_ents := Some [0]; pe_ents_ori := Some [0]; pe_num_all := 1 |}
    | _ => tri_part None et
    end.

Definition wide_ids_triangle : FmsMesh :=
  {| fms_comps :=
       [ {| comp_coords := Some (tri_coords 1 [10; 11; 20; 21; 30; 31]);
            comp_dim := 2; comp_num_entities := 1;
            comp_parts := [wide_ids_part]; comp_relations := [1] |};
         {| comp_coords := None; comp_dim := 1; comp_num_entities := 3;
            comp_parts := [bdr_part]; comp_relations := [] |} ];
     fms_tags := [] |}.

(** The triangle with nodes of order 2, its edges listed by ids of
    64-bit type. *)
Definition wide_edge_ids_part : FmsPart :=
  fun et =>
    match et with
    | FMS_EDGE =>
        {| pe_domain := tri_domain; pe_id_type := FMS_UINT64;
           pe_ents := Some [0; 1; 2]; pe_ents_ori := None; pe_num_all := 3 |}
    | _ => tri_part None et
    end.

Definition wide_edge_ids_triangle : FmsMesh :=
  {| fms_comps :=
       [ {| comp_coords :=
              Some (tri_coords 2 [10; 11; 20; 21; 30; 31; 40; 41; 50; 51; 60; 61]);
            comp_dim := 2; comp_num_entities := 1;
            comp_parts := [wide_edge_ids_part]; comp_relations := [1] |};
         {| comp_coords := None; comp_dim := 1; comp_num_entities := 3;
            comp_parts := [bdr_part]; comp_relations := [] |} ];
     fms_tags := [] |}.

End WideIds.
(** * Properties *)

(** ** The monad *)

Lemma bind_Ok {A B} (c : result A) (k : A -> result B) (b : B) :
  bind c k = Ok b -> exists a, c = Ok a /\ k a = Ok b.
Proof. destruct c; simpl; intros H; try discriminate; eauto. Qed.

Lemma bind_Exit {A B} (c : result A) (k : A -> result B) (e : Z) :
  bind c k = Exit e -> c = Exit e \/ exists a, c = Ok a /\ k a = Exit e.
Proof.
  destruct c as [a|e'|]; simpl; intros H; try discriminate.
  - right. exists a. split; [reflexivity | exact H].
  - left. congruence.
Qed.

Section LoopFacts.

Context {A S : Type}.
Variable f : A -> S -> result S.

Lemma foldM_app (l1 l2 : list A) (s : S) :
  foldM f (l1 ++ l2) s = bind (foldM f l1 s) (foldM f l2).
Proof.
  revert s. induction l1 as [|x l1 IH]; intros s; simpl; [reflexivity|].
  destruct (f x s); simpl; auto.
Qed.

(** A property of the state kept by every completed iteration is kept
    by a completed loop. *)
Lemma foldM_invariant (I : S -> Prop) (l : list A) :
  (forall x s s', In x l -> I s -> f x s = Ok s' -> I s') ->
  forall s s', I s -> foldM f l s = Ok s' -> I s'.
Proof.
  induction l as [|x l IH]; simpl; intros Hf s s' Hs Hrun.
  - congruence.
  - apply bind_Ok in Hrun as (s1 & H1 & H2).
    apply (IH (fun y t t' Hy => Hf y t t' (or_intror Hy)) s1 s'); eauto.
Qed.

(** A loop with an iteration that never completes does not complete. *)
Lemma foldM_stuck (l : list A) (x : A) :
  In x l -> (forall s s', f x s <> Ok s') ->
  forall s s', foldM f l s <> Ok s'.
Proof.
  induction l as [|y l IH]; simpl; intros Hin Hx s s' Hrun; [tauto|].
  apply bind_Ok in Hrun as (s1 & H1 & H2).
  destruct Hin as [->|Hin]; [eapply Hx; eauto | eapply IH; eauto].
Qed.

End LoopFacts.

Lemma exits_Ok {A} (P : Z -> Prop) (a : A) : exits P (Ok a).
Proof. intros e He. discriminate. Qed.

Lemma exits_Undef {A} (P : Z -> Prop) : exits P (@Undef A).
Proof. intros e He. discriminate. Qed.

Lemma exits_Exit {A} (P : Z -> Prop) (e : Z) : P e -> exits P (@Exit A e).
Proof. intros He e' [= <-]. exact He. Qed.

Lemma exits_bind {A B} (P : Z -> Prop) (c : result A) (k : A -> result B) :
  exits P c -> (forall a, exits P (k a)) -> exits P (bind c k).
Proof.
  intros Hc Hk e He. apply bind_Exit in He as [He|(a & _ & He)].
  - exact (Hc e He).
  - exact (Hk a e He).
Qed.

Lemma exits_foldM {A S} (P : Z -> Prop) (f : A -> S -> result S) (l : list A) :
  (forall x s, exits P (f x s)) -> forall s, exits P (foldM f l s).
Proof.
  intros Hf. induction l as [|x l IH]; intros s; simpl.
  - apply exits_Ok.
  - apply exits_bind; auto.
Qed.

Lemma exits_weaken {A} (P Q : Z -> Prop) (r : result A) :
  (forall e, P e -> Q e) -> exits P r -> exits Q r.
Proof. intros HPQ Hr e He. auto. Qed.

Lemma exits_rd {A} (P : Z -> Prop) (a : list A) (i : Z) : exits P (rd a i).
Proof.
  unfold rd. destruct (i <? 0); [apply exits_Undef|].
  destruct (a !! Z.to_nat i); [apply exits_Ok | apply exits_Undef].
Qed.

Lemma exits_wr {A} (P : Z -> Prop) (a : list A) (i : Z) (x : A) : exits P (wr a i x).
Proof.
  unfold wr. destruct (_ && _); [apply exits_Ok | apply exits_Undef].
Qed.

(** ** Machine integers *)

Section MachineIntFacts.

Lemma as_int32_small v : - 2 ^ 31 <= v < 2 ^ 31 -> as_int32 v = v.
Proof.
intros Hv. unfold as_int32.
rewrite Z.mod_small by lia. lia.
Qed.

Lemma as_int32_high v : 2 ^ 31 <= v < 2 ^ 32 -> as_int32 v = v - 2 ^ 32.
Proof.
intros Hv. unfold as_int32.
replace (v + 2 ^ 31) with ((v - 2 ^ 31) + 1 * 2 ^ 32) by lia.
rewrite Z.mod_add by lia.
rewrite Z.mod_small by lia. lia.
Qed.

End MachineIntFacts.

(** ** Loops over a range *)

Lemma foldM_seqZ_invariant {St} (I : Z -> St -> Prop) (f : Z -> St -> result St)
    (k : nat) :
  forall m s s',
    I m s ->
    (forall i t t', m <= i < m + Z.of_nat k -> I i t -> f i t = Ok t' -> I (i + 1) t') ->
    foldM f (seqZ m (Z.of_nat k)) s = Ok s' ->
    I (m + Z.of_nat k) s'.
Proof.
  induction k as [|k IH]; intros m s s' Hs Hstep Hrun.
  - simpl in Hrun. injection Hrun as <-. now rewrite Z.add_0_r.
  - rewrite seqZ_cons in Hrun by lia. simpl in Hrun.
    apply bind_Ok in Hrun as (s1 & H1 & H2).
    replace (Z.pred (Z.of_nat (S k))) with (Z.of_nat k) in H2 by lia.
    replace (m + Z.of_nat (S k)) with (Z.succ m + Z.of_nat k) by lia.
    apply (IH (Z.succ m) s1 s'); [| |exact H2].
    + replace (Z.succ m) with (m + 1) by lia.
      apply (Hstep m s s1); [lia|exact Hs|exact H1].
    + intros i t t' Hi. apply Hstep. lia.
Qed.

Lemma for_range_invariant {St} (I : Z -> St -> Prop) (f : Z -> St -> result St)
    (n : Z) (s s' : St) :
  I 0 s ->
  (forall i t t', 0 <= i < n -> I i t -> f i t = Ok t' -> I (i + 1) t') ->
  for_range n f s = Ok s' ->
  I (Z.max 0 n) s'.
Proof.
  intros Hs Hstep Hrun. unfold for_range in Hrun.
  destruct (Z.le_gt_cases n 0) as [Hn|Hn].
  - rewrite seqZ_nil in Hrun by lia. simpl in Hrun. injection Hrun as <-.
    now replace (Z.max 0 n) with 0 by lia.
  - replace n with (Z.of_nat (Z.to_nat n)) in Hrun by lia.
    apply (foldM_seqZ_invariant I f (Z.to_nat n) 0 s s') in Hrun.
    + now replace (Z.max 0 n) with (0 + Z.of_nat (Z.to_nat n)) by lia.
    + exact Hs.
    + intros i t t' Hi. apply Hstep. lia.
Qed.

(** ** Attributes of the elements *)

Lemma rd_Ok {A} (a : list A) (i : Z) (x : A) :
  rd a i = Ok x <-> 0 <= i /\ a !! Z.to_nat i = Some x.
Proof.
  unfold rd. destruct (Z.ltb_spec i 0).
  - split; [discriminate | lia].
  - destruct (a !! Z.to_nat i) eqn:E; split; intros H'.
    + injection H' as <-. auto.
    + destruct H' as [_ [= <-]]. reflexivity.
    + discriminate.
    + destruct H' as [_ H']. discriminate.
Qed.

Section AddLoop.

(** The list an add operation appends to, and what else it keeps. *)
Variable get : Mesh -> list Element.
Variable add : list Z -> Z -> Mesh -> Mesh.
Hypothesis get_add :
  forall vi a m, exists e, get (add vi a m) = get m ++ [e] /\ el_attr e = a.

Lemma add_loop_attrs (nv : Z) (ents_verts : list Z) (attr : option (list Z))
    (num_elems : Z) (mesh mesh' : Mesh) :
  add_loop add nv ents_verts attr (Z.of_nat (length (get mesh))) num_elems mesh
    = Ok mesh' ->
  attrs_ok attr (get mesh) ->
  attrs_ok attr (get mesh').
Proof.
  intros Hrun Hok. unfold add_loop in Hrun.
  set (off := Z.of_nat (length (get mesh))) in *.
  apply (for_range_invariant
           (fun i m => Z.of_nat (length (get m)) = off + i /\ attrs_ok attr (get m)))
    in Hrun.
  - tauto.
  - split; [lia | exact Hok].
  - intros i t t' Hi [Hlen Ht] Hstep.
    apply bind_Ok in Hstep as (a & Ha & Hadd). injection Hadd as <-.
    destruct (get_add (at_ ents_verts (nv * i)) a t) as (e & -> & He).
    split.
    + rewrite length_app. simpl. lia.
    + intros k e' Hk.
      destruct (lookup_app_Some (get t) [e] k e') as [Hcases _].
      destruct (Hcases Hk) as [Hl|[Hge Hr]].
      * now apply Ht.
      * destruct (k - length (get t))%nat eqn:Ek; [|discriminate].
        injection Hr as <-. rewrite He.
        replace (Z.of_nat k) with (off + i) by lia. exact Ha.
Qed.

Lemma add_loop_frame {X} (other : Mesh -> X) (nv : Z) (ents_verts : list Z)
    (attr : option (list Z)) (off num_elems : Z) (mesh mesh' : Mesh) :
  (forall vi a m, other (add vi a m) = other m) ->
  add_loop add nv ents_verts attr off num_elems mesh = Ok mesh' ->
  other mesh' = other mesh.
Proof.
  intros Hframe Hrun. unfold add_loop, for_range in Hrun.
  apply (foldM_invariant _ (fun m => other m = other mesh)) in Hrun; auto.
  intros i t t' _ Ht Hstep.
  apply bind_Ok in Hstep as (a & _ & Hadd). injection Hadd as <-.
  now rewrite Hframe.
Qed.

End AddLoop.

(** ** Exit codes *)

Ltac exits_step :=
  first
    [ apply exits_Ok | apply exits_Undef | apply exits_rd | apply exits_wr
    | apply exits_Exit; simpl; lia
    | apply exits_bind; [|intros ?]
    | apply exits_foldM; intros ? ?
    | match goal with
      | |- exits _ (if ?b then _ else _) => destruct b
      | |- exits _ (match ?x with _ => _ end) => destruct x
      end ].

Ltac exits_tac := repeat exits_step.

Lemma exits_add_loop add nv ents_verts attr off n mesh :
  exits nonzero (add_loop add nv ents_verts attr off n mesh).
Proof. unfold add_loop, for_range, attribute_at. exits_tac. Qed.

Lemma exits_add_elements dim attr parts mesh :
  exits nonzero (add_elements dim attr parts mesh).
Proof.
  unfold add_elements. apply exits_foldM; intros part m.
  apply exits_foldM; intros et m'. unfold add_elements_step, nonzero.
  destruct (negb _); [exits_tac|].
  destruct (_ =? 0); [exits_tac|].
  destruct (ids_unsupported _); [exits_tac|].
  destruct (bool_decide _); [exits_tac|].
  destruct et; try apply exits_add_loop; exits_tac.
Qed.

Lemma exits_add_bdr_elements dim attr bdr n mesh :
  exits nonzero (add_bdr_elements dim attr bdr n mesh).
Proof.
  unfold add_bdr_elements. destruct bdr; [|exits_tac].
  destruct (0 <? n); [|exits_tac].
  apply exits_foldM; intros part m.
  apply exits_foldM; intros et m'. unfold add_bdr_elements_step, nonzero.
  destruct (negb _); [exits_tac|].
  destruct (_ =? 0); [exits_tac|].
  destruct (ids_unsupported _); [exits_tac|].
  destruct (bool_decide _); [exits_tac|].
  destruct et; try apply exits_add_loop; exits_tac.
Qed.

Lemma exits_build_topology fms main_id main_comp bdr mesh :
  exits nonzero (build_topology fms main_id main_comp bdr mesh).
Proof.
  unfold build_topology. destruct (select_tags _ _ _) as [elem_tag bdr_tag].
  apply exits_bind; [|intros attr].
  { unfold attributes_of, tag_attributes, nonzero. exits_tac. }
  apply exits_bind; [|intros bdr_attr].
  { unfold attributes_of, tag_attributes, nonzero. exits_tac. }
  apply exits_bind; [apply exits_add_elements|intros m].
  apply exits_add_bdr_elements.
Qed.

Lemma exits_finalize_mesh K coords n_vert space_dim mesh :
  exits nonzero (finalize_mesh K coords n_vert space_dim mesh).
Proof. unfold finalize_mesh, guard, nonzero. exits_tac. Qed.

Lemma exits_build_edge_index edges :
  exits (fun e => e = 13) (build_edge_index edges).
Proof.
  unfold build_edge_index. apply exits_foldM. intros [i [ev0 ev1]] tbl.
  unfold index_edge. destruct (HashTable.GetId _ _).
  destruct (_ =? _); [apply exits_Ok | now apply exits_Exit].
Qed.

Lemma exits_build_face_index faces :
  exits (fun e => e = 14) (build_face_index faces).
Proof.
  unfold build_face_index. apply exits_foldM. intros [i fv] tbl.
  unfold index_face.
  apply exits_bind; [unfold face_key_verts; exits_tac|intros ps].
  destruct (HashTable.GetId _ _).
  destruct (_ =? _); [apply exits_Ok | now apply exits_Exit].
Qed.

Lemma exits_copy_dofs fes data nstride vstride n dofs off src nd :
  (forall i, exits nonzero (src i)) ->
  exits nonzero (copy_dofs fes data nstride vstride n dofs off src nd).
Proof.
  intros Hsrc. unfold copy_dofs, for_range, copy_value.
  apply exits_foldM; intros i nd1. apply exits_foldM; intros j nd2.
  apply exits_bind; [apply exits_rd|intros d].
  apply exits_bind; [apply Hsrc|intros s].
  exits_tac.
Qed.

Lemma exits_scatter_permuted fes data nstride vstride n perm dofs st :
  exits nonzero (scatter_permuted fes data nstride vstride n perm dofs st).
Proof.
  unfold scatter_permuted. apply exits_bind; [|intros; apply exits_Ok].
  apply exits_copy_dofs. intros i. apply exits_rd.
Qed.

Lemma exits_face_orientation n tv m_ev :
  exits nonzero (face_orientation n tv m_ev).
Proof. unfold face_orientation. exits_tac. Qed.

Lemma exits_scatter_step fes data nstride vstride dim edges faces
    mfem_edge mfem_face part et st :
  exits nonzero
    (scatter_step fes data nstride vstride dim edges faces mfem_edge mfem_face
       part et st).
Proof.
  unfold scatter_step.
  destruct (_ =? 0); [exits_tac|].
  destruct (_ =? 0); [exits_tac|].
  destruct (ids_unsupported _); [apply exits_Exit; unfold nonzero; lia|].
  destruct (bool_decide _); [apply exits_Exit; unfold nonzero; lia|].
  assert (Helems : forall n s,
             exits nonzero (scatter_elements fes data nstride vstride dim et n s)).
  { intros n s. unfold scatter_elements, for_range.
    apply exits_bind; [|intros; apply exits_Ok].
    apply exits_foldM; intros e s1.
    apply exits_bind; [|intros; apply exits_Ok].
    apply exits_copy_dofs. intros i. apply exits_Ok. }
  assert (Hperm : forall ents_verts,
    exits nonzero
      (st' <- match et with
              | FMS_EDGE =>
                  for_range (pe_num_ents (part et))
                    (scatter_edge fes data nstride vstride edges mfem_edge ents_verts) st
              | FMS_TRIANGLE =>
                  for_range (pe_num_ents (part et))
                    (scatter_triangle fes data nstride vstride faces mfem_face ents_verts) st
              | FMS_QUADRILATERAL =>
                  for_range (pe_num_ents (part et))
                    (scatter_quad fes data nstride vstride faces mfem_face ents_verts) st
              | _ => Ok st
              end ;;
       Ok {| nodes := nodes st';
             fms_dof_offset := fms_dof_offset st';
             mfem_ent_cnt :=
               cnt_add (mfem_ent_cnt st') (FmsEntityDim et) (pe_num_ents (part et));
             mfem_last_vert_cnt := mfem_last_vert_cnt st' |})).
  { intros ents_verts. apply exits_bind; [|intros; apply exits_Ok].
    destruct et; try apply exits_Ok; unfold for_range;
      apply exits_foldM; intros p s.
    - unfold scatter_edge.
      repeat (apply exits_bind; [apply exits_rd|intros ?]).
      destruct (_ <? 0); [apply exits_Exit; unfold nonzero; lia|].
      apply exits_bind; [apply exits_rd|intros ?].
      apply exits_scatter_permuted.
    - unfold scatter_triangle.
      repeat (apply exits_bind; [apply exits_rd|intros ?]).
      destruct (_ <? 0); [apply exits_Exit; unfold nonzero; lia|].
      apply exits_bind; [apply exits_rd|intros ?].
      apply exits_bind; [apply exits_face_orientation|intros ?].
      apply exits_scatter_permuted.
    - unfold scatter_quad.
      repeat (apply exits_bind; [apply exits_rd|intros ?]).
      destruct (_ <? 0); [apply exits_Exit; unfold nonzero; lia|].
      apply exits_bind; [apply exits_rd|intros ?].
      apply exits_bind; [apply exits_face_orientation|intros ?].
      apply exits_scatter_permuted. }
  destruct et;
    try (destruct (_ =? dim);
         [apply Helems | first [exact (Hperm _) | exact (Hperm [])]]).
  unfold scatter_vertices, for_range, copy_value.
  apply exits_bind; [|intros; apply exits_Ok].
  exits_tac.
Qed.

Lemma exits_transfer_coordinates K coords parts dim n_vert space_dim n_ents mesh :
  exits nonzero
    (transfer_coordinates K coords parts dim n_vert space_dim n_ents mesh).
Proof.
  unfold transfer_coordinates.
  apply exits_bind; [apply exits_finalize_mesh|intros fin].
  apply exits_bind; [|intros mfem_edge].
  { unfold build_edge_table. destruct (_ && _); [|apply exits_Ok].
    eapply exits_weaken; [|apply exits_build_edge_index].
    intros e ->. unfold nonzero. lia. }
  apply exits_bind; [|intros mfem_face].
  { unfold build_face_table. destruct (_ && _); [|apply exits_Ok].
    eapply exits_weaken; [|apply exits_build_face_index].
    intros e ->. unfold nonzero. lia. }
  apply exits_bind; [|intros; apply exits_Ok].
  unfold scatter. apply exits_foldM; intros part s.
  apply exits_foldM; intros et s'. apply exits_scatter_step.
Qed.

Lemma exits_build_mesh K fms main_id main_comp coords bdr mesh :
  exits nonzero (build_mesh K fms main_id main_comp coords bdr mesh).
Proof.
  unfold build_mesh.
  apply exits_bind; [apply exits_build_topology|intros m].
  apply exits_transfer_coordinates.
Qed.

(** ** The exit of FmsMeshToMesh *)

Lemma heap_alloc_delete (heap : gmap nat Mesh) (m : Mesh) :
  delete (fresh (dom heap)) (<[fresh (dom heap) := m]> heap) = heap.
Proof.
  apply delete_insert_id, not_elem_of_dom, is_fresh.
Qed.

(** What a call leaves, by the result of the conversion. *)
Lemma FmsMeshToMesh_cases K fms heap out :
  (exists m, converts K fms m /\
     FmsMeshToMesh K fms heap out =
       Returned 0 (<[fresh (dom heap) := m]> heap) (Some (fresh (dom heap)))) \/
  (exists err, nonzero err /\ (forall m, ~ converts K fms m) /\
     FmsMeshToMesh K fms heap out = Returned err heap out) \/
  ((forall m, ~ converts K fms m) /\ FmsMeshToMesh K fms heap out = Undefined).
Proof.
  unfold FmsMeshToMesh.
  destruct (find_main_comp (fms_comps fms) 0) as [[[main_id main_comp] coords]|] eqn:Hmain.
  2:{ right; left. exists 1. split; [unfold nonzero; lia|]. split; [|reflexivity].
      intros m (i & c & f & b & H & _). congruence. }
  destruct (find_bdr_comp _ _ _) as [bdr|e|] eqn:Hbdr.
  - destruct (build_mesh _ _ _ _ _ _ _) as [m|e|] eqn:Hbuild.
    + left. exists m. split.
      * exists main_id, main_comp, coords, bdr. auto.
      * now rewrite insert_insert_eq.
    + right; left. exists e. split; [|split].
      * exact (exits_build_mesh _ _ _ _ _ _ _ _ Hbuild).
      * intros m (i & c & f & b & Ha & Hb & Hc).
        rewrite Hmain in Ha. injection Ha as <- <- <-.
        rewrite Hbdr in Hb. injection Hb as <-. congruence.
      * now rewrite heap_alloc_delete.
    + right; right. split; [|reflexivity].
      intros m (i & c & f & b & Ha & Hb & Hc).
      rewrite Hmain in Ha. injection Ha as <- <- <-.
      rewrite Hbdr in Hb. injection Hb as <-. congruence.
  - right; right. split; [|reflexivity].
    intros m (i & c & f & b & Ha & Hb & Hc).
    rewrite Hmain in Ha. injection Ha as <- <- <-. congruence.
  - right; right. split; [|reflexivity].
    intros m (i & c & f & b & Ha & Hb & Hc).
    rewrite Hmain in Ha. injection Ha as <- <- <-. congruence.
Qed.

(** C1. For every source mesh, heap and output cell: [FmsMeshToMesh]
    returns 0 exactly when the conversion succeeds, and then the heap has
    gained one object, the mesh built, at a fresh address stored in the
    output cell; on every nonzero code the heap is the one of the call (the
    mesh allocated has been deleted) and the output cell is unchanged, so
    that no mesh of the call is reachable by the caller; a run without
    defined behaviour is not a successful conversion either. *)
Theorem FmsMeshToMesh_ownership K fms heap out :
  match FmsMeshToMesh K fms heap out with
  | Returned ret heap' out' =>
      (ret = 0 /\
       exists mesh m, converts K fms m /\ heap !! mesh = None /\
         heap' = <[mesh := m]> heap /\ out' = Some mesh) \/
      (ret <> 0 /\ (forall m, ~ converts K fms m) /\ heap' = heap /\ out' = out)
  | Undefined => forall m, ~ converts K fms m
  end.
Proof.
  destruct (FmsMeshToMesh_cases K fms heap out)
    as [(m & Hm & ->)|[(err & Herr & Hno & ->)|[Hno ->]]].
  - left. split; [reflexivity|]. exists (fresh (dom heap)), m.
    split; [exact Hm|]. split; [|split; reflexivity].
    apply not_elem_of_dom, is_fresh.
  - right. unfold nonzero in Herr. split; [lia|]. auto.
  - exact Hno.
Qed.

Lemma FmsMeshToMesh_out_irrelevant K fms heap o1 o2 :
  FmsMeshToMesh K fms heap o2 =
    match FmsMeshToMesh K fms heap o1 with
    | Returned ret h o => Returned ret h (if ret =? 0 then o else o2)
    | Undefined => Undefined
    end.
Proof.
  unfold FmsMeshToMesh.
  destruct (find_main_comp _ _) as [[[main_id main_comp] coords]|]; [|reflexivity].
  destruct (find_bdr_comp _ _ _) as [bdr| |]; try reflexivity.
  destruct (build_mesh _ _ _ _ _ _ _) as [m|e|] eqn:Hbuild; try reflexivity.
  pose proof (exits_build_mesh _ _ _ _ _ _ _ _ Hbuild) as He. unfold nonzero in He.
  destruct (Z.eqb_spec e 0); [lia|reflexivity].
Qed.

(** C10. When the conversion of the mesh fails (nonzero code), the cell
    behind the output pointer of [FmsMeshToMesh] holds what the caller had
    stored in it, and so does the cell behind the output pointer of
    [FmsDataCollectionToDataCollection], which allocates no collection;
    both cells are assigned on the success path only, with the address of
    the new object. *)
Theorem output_cells_assigned_on_success_only
    K dc heap objects mfem_mesh mfem_dc ret heap' mesh' :
  FmsMeshToMesh K (fdc_mesh dc) heap mfem_mesh = Returned ret heap' mesh' ->
  (ret <> 0 ->
   mesh' = mfem_mesh /\
   exists r, FmsDataCollectionToDataCollection K dc heap objects mfem_dc = Some r /\
             dc_out r = mfem_dc /\ dc_objects r = objects) /\
  (ret = 0 ->
   mesh' = Some (fresh (dom heap)) /\
   exists r, FmsDataCollectionToDataCollection K dc heap objects mfem_dc = Some r /\
             dc_out r = Some (fresh (dom objects)) /\
             dc_objects r !! fresh (dom objects) =
               Some {| dc_name := collection_name;
                       dc_mesh := Some (fresh (dom heap)) |}).
Proof.
  intros Hcall.
  assert (Hinner : FmsMeshToMesh K (fdc_mesh dc) heap None =
                   Returned ret heap' (if ret =? 0 then mesh' else None)).
  { rewrite (FmsMeshToMesh_out_irrelevant K _ heap mfem_mesh None), Hcall.
    reflexivity. }
  destruct (FmsMeshToMesh_cases K (fdc_mesh dc) heap mfem_mesh)
    as [(m & Hm & Heq)|[(err & Herr & Hno & Heq)|[Hno Heq]]];
    rewrite Heq in Hcall; [| |discriminate]; injection Hcall as <- <- <-.
  - split; [intros Hne; now destruct Hne|intros _].
    split; [reflexivity|].
    unfold FmsDataCollectionToDataCollection. rewrite Hinner. simpl.
    eexists. split; [reflexivity|]. simpl. split; [reflexivity|].
    apply lookup_insert_eq.
  - unfold nonzero in Herr. split; [intros _|lia].
    split; [reflexivity|].
    unfold FmsDataCollectionToDataCollection. rewrite Hinner.
    destruct (Z.eqb_spec err 0); [lia|].
    eexists. split; [reflexivity|]. simpl. auto.
Qed.

Lemma output_cells_assigned_on_success_only_witness :
  let dc := {| fdc_mesh := ExampleCalls.oriented_quadratic_triangle |} in
  FmsMeshToMesh Examples.plane_kernel (fdc_mesh dc) ExampleCalls.old_heap (Some 7%nat)
    = Returned 16 ExampleCalls.old_heap (Some 7%nat) /\
  ((16 <> 0 ->
    Some 7%nat = Some 7%nat /\
    exists r, FmsDataCollectionToDataCollection Examples.plane_kernel dc
                ExampleCalls.old_heap ∅ (Some 3%nat) = Some r /\
              dc_out r = Some 3%nat /\ dc_objects r = ∅) /\
   (16 = 0 ->
    Some 7%nat = Some (fresh (dom ExampleCalls.old_heap)) /\
    exists r, FmsDataCollectionToDataCollection Examples.plane_kernel dc
                ExampleCalls.old_heap ∅ (Some 3%nat) = Some r /\
              dc_out r = Some (fresh (dom (∅ : gmap nat DataCollection))) /\
              dc_objects r !! fresh (dom (∅ : gmap nat DataCollection)) =
                Some {| dc_name := collection_name;
                        dc_mesh := Some (fresh (dom ExampleCalls.old_heap)) |})).
Proof.
  intros dc.
  assert (H : FmsMeshToMesh Examples.plane_kernel (fdc_mesh dc)
                ExampleCalls.old_heap (Some 7%nat)
              = Returned 16 ExampleCalls.old_heap (Some 7%nat))
    by (vm_compute; reflexivity).
  split; [exact H|].
  exact (output_cells_assigned_on_success_only Examples.plane_kernel dc
           ExampleCalls.old_heap ∅ (Some 7%nat) (Some 3%nat) 16
           ExampleCalls.old_heap (Some 7%nat) H).
Defined.

(** C4 (the code departs from it). Evaluated on a source collection whose
    mesh converts (code 0) and on one whose mesh does not (code 16),
    [FmsDataCollectionToDataCollection] returns the same value, 1: the
    success branch stores [true] in the [int] result, the failure branch
    stores 1. *)
Theorem FmsDataCollectionToDataCollection_same_retval :
  let good := {| fdc_mesh := ExampleCalls.linear_triangle |} in
  let bad := {| fdc_mesh := ExampleCalls.oriented_quadratic_triangle |} in
  (exists heap' mesh,
     FmsMeshToMesh Examples.plane_kernel (fdc_mesh good) ∅ None
       = Returned 0 heap' mesh) /\
  FmsMeshToMesh Examples.plane_kernel (fdc_mesh bad) ∅ None = Returned 16 ∅ None /\
  retval <$> FmsDataCollectionToDataCollection Examples.plane_kernel good ∅ ∅ None
    = Some 1 /\
  retval <$> FmsDataCollectionToDataCollection Examples.plane_kernel bad ∅ ∅ None
    = Some 1.
Proof.
  intros good bad. split; [|split; [|split]].
  - eexists _, _. vm_compute. reflexivity.
  - vm_compute. reflexivity.
  - vm_compute. reflexivity.
  - vm_compute. reflexivity.
Qed.

(** ** The element and boundary passes keep the attributes in step *)

Lemma elements_add_element g nv vi a m :
  exists e, elements (add_element g nv vi a m) = elements m ++ [e] /\ el_attr e = a.
Proof. eexists. split; reflexivity. Qed.

Lemma boundary_add_bdr_element g nv vi a m :
  exists e, boundary (add_bdr_element g nv vi a m) = boundary m ++ [e] /\ el_attr e = a.
Proof. eexists. split; reflexivity. Qed.

Lemma add_elements_step_spec dim attr part et mesh mesh' :
  add_elements_step dim attr part et mesh = Ok mesh' ->
  (attrs_ok attr (elements mesh) -> attrs_ok attr (elements mesh')) /\
  boundary mesh' = boundary mesh.
Proof.
  unfold add_elements_step.
  destruct (negb _); [intros [= <-]; auto|].
  destruct (_ =? 0); [intros [= <-]; auto|].
  destruct (ids_unsupported _); [discriminate|].
  destruct (bool_decide _); [discriminate|].
  unfold AddTriangle, AddQuad, AddTet, AddHex, GetNE.
  destruct et; try discriminate; try (intros [= <-]; auto; fail);
    intros Hrun; (split;
      [ intros Hok; eapply (add_loop_attrs elements); eauto;
        apply elements_add_element
      | eapply (add_loop_frame _ boundary); [|exact Hrun]; reflexivity ]).
Qed.

Lemma add_elements_spec dim attr parts mesh mesh' :
  add_elements dim attr parts mesh = Ok mesh' ->
  (attrs_ok attr (elements mesh) -> attrs_ok attr (elements mesh')) /\
  boundary mesh' = boundary mesh.
Proof.
  unfold add_elements. intros Hrun.
  apply (foldM_invariant _
           (fun m => (attrs_ok attr (elements mesh) -> attrs_ok attr (elements m)) /\
                     boundary m = boundary mesh)) in Hrun; auto.
  intros part m m' _ Hm Hpart.
  apply (foldM_invariant _
           (fun m => (attrs_ok attr (elements mesh) -> attrs_ok attr (elements m)) /\
                     boundary m = boundary mesh)) in Hpart; auto.
  intros et t t' _ [Ht1 Ht2] Hstep.
  apply add_elements_step_spec in Hstep as [Hs1 Hs2].
  split; [auto | congruence].
Qed.

Lemma add_bdr_elements_step_spec dim attr part et mesh mesh' :
  add_bdr_elements_step dim attr part et mesh = Ok mesh' ->
  (attrs_ok attr (boundary mesh) -> attrs_ok attr (boundary mesh')) /\
  elements mesh' = elements mesh.
Proof.
  unfold add_bdr_elements_step.
  destruct (negb _); [intros [= <-]; auto|].
  destruct (_ =? 0); [intros [= <-]; auto|].
  destruct (ids_unsupported _); [discriminate|].
  destruct (bool_decide _); [discriminate|].
  unfold AddBdrSegment, AddBdrTriangle, AddBdrQuad, GetNBE.
  destruct et; try discriminate; try (intros [= <-]; auto; fail);
    intros Hrun; (split;
      [ intros Hok; eapply (add_loop_attrs boundary); eauto;
        apply boundary_add_bdr_element
      | eapply (add_loop_frame _ elements); [|exact Hrun]; reflexivity ]).
Qed.

Lemma add_bdr_elements_spec dim attr bdr n mesh mesh' :
  add_bdr_elements dim attr bdr n mesh = Ok mesh' ->
  (attrs_ok attr (boundary mesh) -> attrs_ok attr (boundary mesh')) /\
  elements mesh' = elements mesh.
Proof.
  unfold add_bdr_elements.
  destruct bdr as [comp|]; [|intros [= <-]; auto].
  destruct (0 <? n); [|intros [= <-]; auto].
  intros Hrun.
  apply (foldM_invariant _
           (fun m => (attrs_ok attr (boundary mesh) -> attrs_ok attr (boundary m)) /\
                     elements m = elements mesh)) in Hrun; auto.
  intros part m m' _ Hm Hpart.
  apply (foldM_invariant _
           (fun m => (attrs_ok attr (boundary mesh) -> attrs_ok attr (boundary m)) /\
                     elements m = elements mesh)) in Hpart; auto.
  intros et t t' _ [Ht1 Ht2] Hstep.
  apply add_bdr_elements_step_spec in Hstep as [Hs1 Hs2].
  split; [auto | congruence].
Qed.

Lemma attrs_ok_nil attr : attrs_ok attr [].
Proof. intros k e Hk. discriminate. Qed.

(** The vertices added before the finalization and the nodes stored after
    the scatter leave the two element lists alone. *)
Lemma iter_AddVertex_lists n x mesh :
  elements (Nat.iter n (AddVertex x) mesh) = elements mesh /\
  boundary (Nat.iter n (AddVertex x) mesh) = boundary mesh.
Proof. induction n as [|n IH]; simpl; auto. Qed.

Lemma finalize_mesh_mesh K coords n_vert space_dim mesh fin :
  finalize_mesh K coords n_vert space_dim mesh = Ok fin ->
  fin_mesh fin = Nat.iter (Z.to_nat n_vert) (AddVertex origin) mesh.
Proof.
  unfold finalize_mesh, guard. intros Hrun.
  repeat (apply bind_Ok in Hrun as (? & _ & Hrun)).
  injection Hrun as <-. reflexivity.
Qed.

Lemma transfer_coordinates_lists K coords parts dim n_vert space_dim n_ents mesh mesh' :
  transfer_coordinates K coords parts dim n_vert space_dim n_ents mesh = Ok mesh' ->
  elements mesh' = elements mesh /\ boundary mesh' = boundary mesh.
Proof.
  unfold transfer_coordinates. intros Hrun.
  apply bind_Ok in Hrun as (fin & Hfin & Hrun).
  apply bind_Ok in Hrun as (mfem_edge & _ & Hrun).
  apply bind_Ok in Hrun as (mfem_face & _ & Hrun).
  apply bind_Ok in Hrun as (st & _ & Hrun).
  injection Hrun as <-. simpl.
  rewrite (finalize_mesh_mesh _ _ _ _ _ _ Hfin).
  apply iter_AddVertex_lists.
Qed.

(** The attributes of the mesh a successful [build_mesh] returns. *)
Lemma build_mesh_attrs K fms main_id main_comp coords bdr mesh m :
  elements mesh = [] -> boundary mesh = [] ->
  build_mesh K fms main_id main_comp coords bdr mesh = Ok m ->
  exists attr bdr_attr,
    attributes_of (fst (select_tags (fms_tags fms) main_id (fst <$> bdr))) 1 = Ok attr /\
    attributes_of (snd (select_tags (fms_tags fms) main_id (fst <$> bdr))) 2 = Ok bdr_attr /\
    attrs_ok attr (elements m) /\ attrs_ok bdr_attr (boundary m).
Proof.
  intros He Hb. unfold build_mesh, build_topology. intros Hrun.
  apply bind_Ok in Hrun as (m2 & Htopo & Htransfer).
  destruct (select_tags _ _ _) as [elem_tag bdr_tag]. simpl.
  apply bind_Ok in Htopo as (attr & Hattr & Htopo).
  apply bind_Ok in Htopo as (bdr_attr & Hbattr & Htopo).
  apply bind_Ok in Htopo as (m1 & Hel & Hbd).
  exists attr, bdr_attr. split; [exact Hattr|]. split; [exact Hbattr|].
  apply add_elements_spec in Hel as [Hel1 Hel2].
  apply add_bdr_elements_spec in Hbd as [Hbd1 Hbd2].
  apply transfer_coordinates_lists in Htransfer as [Ht1 Ht2].
  rewrite Ht1, Ht2, Hbd2. split.
  - apply Hel1. rewrite He. apply attrs_ok_nil.
  - apply Hbd1. rewrite Hel2, Hb. apply attrs_ok_nil.
Qed.

(** ** The tags selected *)

Lemma select_tags_fst_gen main_id bdr_id tags elem_tag bdr_tag :
  fst (fold_left (select_tag_step main_id bdr_id) tags (elem_tag, bdr_tag)) =
    match elem_tag with
    | Some t => Some t
    | None => find (fun t => tag_comp t =? main_id) tags
    end.
Proof.
  revert elem_tag bdr_tag.
  induction tags as [|tag tags IH]; intros elem_tag bdr_tag; simpl.
  - now destruct elem_tag.
  - destruct elem_tag as [t|].
    + rewrite bool_decide_eq_true_2 by eauto. simpl.
      destruct (_ && _); now rewrite IH.
    + rewrite bool_decide_eq_false_2 by (intros [? [=]]). simpl.
      destruct (tag_comp tag =? main_id); [now rewrite IH|].
      destruct (_ && _); now rewrite IH.
Qed.

Lemma select_tags_fst tags main_id bdr_id :
  fst (select_tags tags main_id bdr_id) =
    find (fun t => tag_comp t =? main_id) tags.
Proof. apply (select_tags_fst_gen main_id bdr_id tags None None). Qed.

Lemma select_tags_snd_gen main_id bdr_id tags elem_tag bdr_tag :
  bdr_id <> Some main_id ->
  snd (fold_left (select_tag_step main_id bdr_id) tags (elem_tag, bdr_tag)) =
    match bdr_tag with
    | Some t => Some t
    | None => find (fun t => is_bdr_comp bdr_id (tag_comp t)) tags
    end.
Proof.
  intros Hne. revert elem_tag bdr_tag.
  induction tags as [|tag tags IH]; intros elem_tag bdr_tag; simpl.
  - now destruct bdr_tag.
  - assert (Hmain : (tag_comp tag =? main_id) = true ->
                    is_bdr_comp bdr_id (tag_comp tag) = false).
    { intros Heq%Z.eqb_eq. destruct bdr_id as [b|]; simpl; [|reflexivity].
      apply Z.eqb_neq. congruence. }
    destruct (negb (bool_decide (is_Some elem_tag)) && (tag_comp tag =? main_id))
      eqn:Hfirst.
    + rewrite IH. apply andb_true_iff in Hfirst as [_ Hfirst].
      now rewrite (Hmain Hfirst).
    + destruct bdr_tag as [t|].
      * rewrite bool_decide_eq_true_2 by eauto. simpl. now rewrite IH.
      * rewrite bool_decide_eq_false_2 by (intros [? [=]]). simpl.
        destruct (is_bdr_comp bdr_id (tag_comp tag)); now rewrite IH.
Qed.

Lemma select_tags_snd tags main_id bdr_id :
  bdr_id <> Some main_id ->
  snd (select_tags tags main_id bdr_id) =
    find (fun t => is_bdr_comp bdr_id (tag_comp t)) tags.
Proof. intros H. now apply (select_tags_snd_gen main_id bdr_id tags None None). Qed.

(** The component found is the one at the index returned. *)
Lemma find_main_comp_lookup comps start main_id main_comp coords :
  find_main_comp comps start = Some (main_id, main_comp, coords) ->
  start <= main_id /\ comps !! Z.to_nat (main_id - start) = Some main_comp.
Proof.
  revert start. induction comps as [|comp comps IH]; intros start; simpl.
  - discriminate.
  - destruct (comp_coords comp).
    + intros [= <- <- <-]. split; [lia|]. now rewrite Z.sub_diag.
    + intros H. apply IH in H as [Hle Hl]. split; [lia|].
      replace (Z.to_nat (main_id - start)) with (S (Z.to_nat (main_id - (start + 1))))
        by lia.
      exact Hl.
Qed.

Lemma find_bdr_comp_lookup comps dim rel bdr_id bdr_comp :
  find_bdr_comp comps dim rel = Ok (Some (bdr_id, bdr_comp)) ->
  0 <= bdr_id /\ comps !! Z.to_nat bdr_id = Some bdr_comp /\
  comp_dim bdr_comp = FmsInt_sub dim 1.
Proof.
  induction rel as [|id rel IH]; simpl; [discriminate|].
  intros H. apply bind_Ok in H as (comp & Hrd & H).
  destruct (Z.eqb_spec (comp_dim comp) (FmsInt_sub dim 1)).
  - injection H as <- <-. apply rd_Ok in Hrd. tauto.
  - auto.
Qed.

(** The boundary component is not the main component: their dimensions
    differ, also when [dim-1] wraps. *)
Lemma bdr_is_not_main comps main_id main_comp coords bdr :
  find_main_comp comps 0 = Some (main_id, main_comp, coords) ->
  find_bdr_comp comps (comp_dim main_comp) (comp_relations main_comp) = Ok bdr ->
  fst <$> bdr <> Some main_id.
Proof.
  intros Hmain Hbdr. destruct bdr as [[bdr_id bdr_comp]|]; [|discriminate].
  simpl. intros [= ->].
  apply find_main_comp_lookup in Hmain as [_ Hmain].
  apply find_bdr_comp_lookup in Hbdr as (_ & Hb & Hdim).
  rewrite Z.sub_0_r in Hmain. rewrite Hmain in Hb. injection Hb as <-.
  unfold FmsInt_sub, FmsInt_wrap in Hdim.
  pose proof (Z.div_mod (comp_dim main_comp - 1) (2 ^ 64) ltac:(lia)) as Hdm.
  rewrite <- Hdim in Hdm. lia.
Qed.

(** ** The attributes of a converted mesh *)

Lemma FmsMeshToMesh_success_converts K fms heap out heap' mesh m :
  FmsMeshToMesh K fms heap out = Returned 0 heap' (Some mesh) ->
  heap' !! mesh = Some m ->
  converts K fms m.
Proof.
  intros Hcall Hm.
  destruct (FmsMeshToMesh_cases K fms heap out)
    as [(m' & Hconv & Heq)|[(err & Herr & _ & Heq)|[_ Heq]]];
    rewrite Heq in Hcall; [| |discriminate].
  - injection Hcall as <- <-. rewrite lookup_insert_eq in Hm. congruence.
  - injection Hcall as -> _ _. unfold nonzero in Herr. lia.
Qed.

Lemma converted_attributes K fms m main_id main_comp coords bdr :
  converts K fms m ->
  find_main_comp (fms_comps fms) 0 = Some (main_id, main_comp, coords) ->
  find_bdr_comp (fms_comps fms) (comp_dim main_comp) (comp_relations main_comp)
    = Ok bdr ->
  exists attr bdr_attr,
    attributes_of (find (fun t => tag_comp t =? main_id) (fms_tags fms)) 1 = Ok attr /\
    attributes_of
      (find (fun t => is_bdr_comp (fst <$> bdr) (tag_comp t)) (fms_tags fms)) 2
      = Ok bdr_attr /\
    attrs_ok attr (elements m) /\ attrs_ok bdr_attr (boundary m).
Proof.
  intros (i & c & f & b & Ha & Hb & Hbuild) Hmain Hbdr.
  rewrite Hmain in Ha. injection Ha as <- <- <-.
  rewrite Hbdr in Hb. injection Hb as <-.
  apply build_mesh_attrs in Hbuild; [|reflexivity..].
  rewrite select_tags_fst in Hbuild.
  rewrite select_tags_snd in Hbuild by (eapply bdr_is_not_main; eauto).
  exact Hbuild.
Qed.

Lemma attrs_ok_None els e :
  attrs_ok None els -> In e els -> el_attr e = 1.
Proof.
  intros Hok Hin. apply list_elem_of_In, list_elem_of_lookup in Hin as [k Hk].
  specialize (Hok k e Hk). simpl in Hok. congruence.
Qed.

Lemma attrs_ok_Some a els k e :
  attrs_ok (Some a) els -> els !! k = Some e -> a !! k = Some (el_attr e).
Proof.
  intros Hok Hk. specialize (Hok k e Hk). simpl in Hok.
  apply rd_Ok in Hok as [_ Hok]. now rewrite Nat2Z.id in Hok.
Qed.

Lemma find_none_iff {A} (f : A -> bool) (l : list A) :
  (forall x, In x l -> f x = false) -> find f l = None.
Proof.
  induction l as [|x l IH]; simpl; intros H; [reflexivity|].
  rewrite (H x) by auto. apply IH. auto.
Qed.

(** ** The elements and the boundary elements are the entities *)

Lemma FmsMeshToMesh_success_inv K fms heap out heap' out' :
  FmsMeshToMesh K fms heap out = Returned 0 heap' out' ->
  exists main_id main_comp coords bdr m,
    find_main_comp (fms_comps fms) 0 = Some (main_id, main_comp, coords) /\
    find_bdr_comp (fms_comps fms) (comp_dim main_comp) (comp_relations main_comp)
      = Ok bdr /\
    build_mesh K fms main_id main_comp coords bdr
      (new_Mesh (comp_dim main_comp)
         (count_ents (comp_parts main_comp) FMS_VERTEX)
         (comp_num_entities main_comp) (n_bdr_elem_of bdr)
         (fld_num_vec_comp coords)) = Ok m /\
    heap' = <[fresh (dom heap) := m]> heap /\
    out' = Some (fresh (dom heap)) /\
    heap' !! fresh (dom heap) = Some m.
Proof.
  unfold FmsMeshToMesh.
  destruct (find_main_comp (fms_comps fms) 0)
    as [[[main_id main_comp] coords]|] eqn:Hmain; [|discriminate].
  destruct (find_bdr_comp _ _ _) as [bdr|e|] eqn:Hbdr; try discriminate.
  destruct (build_mesh _ _ _ _ _ _ _) as [m|e|] eqn:Hbuild; try discriminate.
  - intros [= <- <-]. exists main_id, main_comp, coords, bdr, m.
    rewrite insert_insert_eq. repeat (split; [reflexivity || assumption|]).
    apply lookup_insert_eq.
  - intros [= -> _ _].
    pose proof (exits_build_mesh _ _ _ _ _ _ _ _ Hbuild) as He.
    unfold nonzero in He. lia.
Qed.

(** Chunks of equal length in a concatenation. *)
Lemma take_drop_concat {A B} (f : A -> list B) (n : nat) (l : list A) :
  (forall x, length (f x) = n) ->
  forall (i : nat) (x : A),
    l !! i = Some x ->
    take n (drop (n * i) (concat (map f l))) = f x.
Proof.
  intros Hlen. induction l as [|y l IH]; intros i x Hx; [discriminate|].
  destruct i as [|i]; simpl in Hx.
  - injection Hx as ->. rewrite Nat.mul_0_r, drop_0. cbn [map concat].
    rewrite take_app_length'; [reflexivity|symmetry; apply Hlen].
  - cbn [map concat]. replace (n * S i)%nat with (length (f y) + n * i)%nat
      by (rewrite Hlen; lia).
    rewrite drop_app_add'; [|reflexivity]. now apply IH.
Qed.

Lemma FmsInt_wrap_idemp v : FmsInt_wrap (FmsInt_wrap v + 0) = FmsInt_wrap v.
Proof. unfold FmsInt_wrap. rewrite Z.add_0_r. apply Z.mod_mod. lia. Qed.

Lemma FmsEntityNumVerts_nonneg et : 0 <= FmsEntityNumVerts et.
Proof. destruct et; simpl; lia. Qed.

(** The tuple the add loops read at [&ents_verts[nv*i]] is the list of
    the vertices of entity [i], on either path that fills [ents_verts]. *)
Lemma ents_verts_tuple (pe : FmsPartEntities) (et : FmsEntityType) (i : Z) :
  0 <= i < pe_num_ents pe ->
  take (Z.to_nat (FmsEntityNumVerts et))
       (at_ (get_ents_verts pe et) (FmsEntityNumVerts et * i))
    = entity_verts pe et i.
Proof.
  intros Hi. unfold at_, entity_verts, entity_id, get_ents_verts, pe_num_ents in *.
  pose proof (FmsEntityNumVerts_nonneg et) as Hnv.
  rewrite Z2Nat.inj_mul by lia.
  destruct (pe_ents pe) as [ei|].
  - destruct (lookup_lt_is_Some_2 ei (Z.to_nat i) ltac:(lia)) as [id Hid].
    rewrite (list_lookup_total_correct _ _ _ Hid).
    rewrite (take_drop_concat
               (fun id => FmsDomainGetEntitiesVerts (pe_domain pe) et
                            (FmsInt_wrap (as_int32 id)) 1)
               (Z.to_nat (FmsEntityNumVerts et)) ei) with (x := id).
    + unfold FmsDomainGetEntitiesVerts. simpl. rewrite app_nil_r.
      now rewrite FmsInt_wrap_idemp.
    + intros x. unfold FmsDomainGetEntitiesVerts. simpl.
      now rewrite app_nil_r, length_map, length_seqZ.
    + exact Hid.
  - unfold FmsDomainGetEntitiesVerts.
    rewrite (take_drop_concat
               (fun i => map (dom_entity_vert (pe_domain pe) et (FmsInt_wrap (0 + i)))
                             (seqZ 0 (FmsEntityNumVerts et)))
               (Z.to_nat (FmsEntityNumVerts et))
               (seqZ 0 (Z.max 0 (pe_num_all pe)))) with (x := i).
    + now rewrite Z.add_0_l.
    + intros x. now rewrite length_map, length_seqZ.
    + rewrite lookup_seqZ. split; lia.
Qed.

(** What one add loop appends. *)
Lemma add_loop_shapes (add : list Z -> Z -> Mesh -> Mesh)
    (get : Mesh -> list Element) (g : Geometry.Type_) (nv : nat) :
  (forall vi a m,
     get (add vi a m)
       = get m ++ [{| el_geom := g; el_verts := take nv vi; el_attr := a |}]) ->
  forall nvz ents_verts attr off n mesh mesh',
    add_loop add nvz ents_verts attr off n mesh = Ok mesh' ->
    shape <$> get mesh'
      = (shape <$> get mesh)
          ++ map (fun i => (g, take nv (at_ ents_verts (nvz * i)))) (seqZ 0 n).
Proof.
  intros Hadd nvz ents_verts attr off n. unfold add_loop, for_range.
  generalize (seqZ 0 n) as l.
  induction l as [|i l IH]; intros mesh mesh' Hrun; simpl in Hrun.
  - injection Hrun as <-. simpl. now rewrite app_nil_r.
  - destruct (attribute_at attr (off + i)) as [a| |]; try discriminate.
    simpl in Hrun. rewrite (IH _ _ Hrun), Hadd, fmap_app. simpl.
    now rewrite <- app_assoc.
Qed.

(** A loop whose steps each append to a list of the state. *)
Lemma foldM_appends {A St B} (f : A -> St -> result St) (obs : St -> list B)
    (g : A -> list B) (l : list A) :
  (forall x s s', f x s = Ok s' -> obs s' = obs s ++ g x) ->
  forall s s', foldM f l s = Ok s' -> obs s' = obs s ++ concat (map g l).
Proof.
  intros Hstep. induction l as [|x l IH]; intros s s' Hrun; simpl in Hrun.
  - injection Hrun as <-. simpl. now rewrite app_nil_r.
  - destruct (f x s) as [s1| |] eqn:Hx; try discriminate. simpl in Hrun.
    rewrite (IH _ _ Hrun), (Hstep _ _ _ Hx). simpl. now rewrite <- app_assoc.
Qed.

Lemma entities_of_type_empty sel part et :
  pe_num_ents (part et) = 0 -> entities_of_type sel part et = [].
Proof. intros H. unfold entities_of_type. rewrite H. now destruct (sel et). Qed.

Lemma map_entity_tuples part et (nv : nat) ents :
  Z.of_nat nv = FmsEntityNumVerts et ->
  ents = get_ents_verts (part et) et ->
  map (fun i => (geometry_of et,
                 take nv (at_ ents (Z.of_nat nv * i))))
      (seqZ 0 (pe_num_ents (part et)))
  = map (fun i => (geometry_of et, entity_verts (part et) et i))
      (seqZ 0 (pe_num_ents (part et))).
Proof.
  intros Hnv ->. apply map_ext_in. intros i Hi.
  apply list_elem_of_In, elem_of_seqZ in Hi.
  rewrite <- ents_verts_tuple by lia. rewrite <- Hnv, Nat2Z.id. reflexivity.
Qed.

Lemma add_elements_step_shapes dim attr part et mesh mesh' :
  add_elements_step dim attr part et mesh = Ok mesh' ->
  shape <$> elements mesh'
    = (shape <$> elements mesh)
        ++ entities_of_type
             (fun et => is_element_type et && (FmsEntityDim et =? dim)) part et.
Proof.
  unfold add_elements_step.
  destruct (FmsEntityDim et =? dim) eqn:Hdim; simpl.
  2:{ intros [= <-]. unfold entities_of_type. rewrite Hdim, andb_false_r.
      now rewrite app_nil_r. }
  destruct (pe_num_ents (part et) =? 0) eqn:Hn.
  { intros [= <-]. apply Z.eqb_eq in Hn.
    rewrite entities_of_type_empty by exact Hn. now rewrite app_nil_r. }
  destruct (ids_unsupported (part et)); [discriminate|].
  destruct (bool_decide _); [discriminate|].
  unfold entities_of_type. rewrite Hdim, andb_true_r.
  destruct et; simpl is_element_type; cbv iota; try discriminate.
  - intros [= <-]. now rewrite app_nil_r.
  - intros Hrun.
    rewrite (add_loop_shapes AddTriangle elements Geometry.TRIANGLE 3
               ltac:(reflexivity) _ _ _ _ _ _ _ Hrun).
    f_equal. now apply (map_entity_tuples part FMS_TRIANGLE 3).
  - intros Hrun.
    rewrite (add_loop_shapes AddQuad elements Geometry.SQUARE 4
               ltac:(reflexivity) _ _ _ _ _ _ _ Hrun).
    f_equal. now apply (map_entity_tuples part FMS_QUADRILATERAL 4).
  - intros Hrun.
    rewrite (add_loop_shapes AddTet elements Geometry.TETRAHEDRON 4
               ltac:(reflexivity) _ _ _ _ _ _ _ Hrun).
    f_equal. now apply (map_entity_tuples part FMS_TETRAHEDRON 4).
  - intros Hrun.
    rewrite (add_loop_shapes AddHex elements Geometry.CUBE 8
               ltac:(reflexivity) _ _ _ _ _ _ _ Hrun).
    f_equal. now apply (map_entity_tuples part FMS_HEXAHEDRON 8).
Qed.

Lemma add_elements_shapes dim attr parts mesh mesh' :
  add_elements dim attr parts mesh = Ok mesh' ->
  shape <$> elements mesh'
    = (shape <$> elements mesh)
        ++ entities_as_elements
             (fun et => is_element_type et && (FmsEntityDim et =? dim)) parts.
Proof.
  unfold add_elements, entities_as_elements.
  apply (foldM_appends _ (fun m => shape <$> elements m)).
  intros part s s'.
  apply (foldM_appends _ (fun m => shape <$> elements m)).
  intros et t t'. apply add_elements_step_shapes.
Qed.

Lemma add_bdr_elements_step_shapes dim attr part et mesh mesh' :
  add_bdr_elements_step dim attr part et mesh = Ok mesh' ->
  shape <$> boundary mesh'
    = (shape <$> boundary mesh)
        ++ entities_of_type
             (fun et => is_bdr_element_type et
                        && (FmsEntityDim et =? FmsInt_sub dim 1)) part et.
Proof.
  unfold add_bdr_elements_step.
  destruct (FmsEntityDim et =? FmsInt_sub dim 1) eqn:Hdim; simpl.
  2:{ intros [= <-]. unfold entities_of_type. rewrite Hdim, andb_false_r.
      now rewrite app_nil_r. }
  destruct (pe_num_ents (part et) =? 0) eqn:Hn.
  { intros [= <-]. apply Z.eqb_eq in Hn.
    rewrite entities_of_type_empty by exact Hn. now rewrite app_nil_r. }
  destruct (ids_unsupported (part et)); [discriminate|].
  destruct (bool_decide _); [discriminate|].
  unfold entities_of_type. rewrite Hdim, andb_true_r.
  destruct et; simpl is_bdr_element_type; cbv iota; try discriminate.
  - intros [= <-]. now rewrite app_nil_r.
  - intros Hrun.
    rewrite (add_loop_shapes AddBdrSegment boundary Geometry.SEGMENT 2
               ltac:(reflexivity) _ _ _ _ _ _ _ Hrun).
    f_equal. now apply (map_entity_tuples part FMS_EDGE 2).
  - intros Hrun.
    rewrite (add_loop_shapes AddBdrTriangle boundary Geometry.TRIANGLE 3
               ltac:(reflexivity) _ _ _ _ _ _ _ Hrun).
    f_equal. now apply (map_entity_tuples part FMS_TRIANGLE 3).
  - intros Hrun.
    rewrite (add_loop_shapes AddBdrQuad boundary Geometry.SQUARE 4
               ltac:(reflexivity) _ _ _ _ _ _ _ Hrun).
    f_equal. now apply (map_entity_tuples part FMS_QUADRILATERAL 4).
  - intros [= <-]. now rewrite app_nil_r.
  - intros [= <-]. now rewrite app_nil_r.
Qed.

(** The boundary elements a selected boundary component gives. *)
Lemma add_bdr_elements_shapes dim attr bdr mesh mesh' :
  add_bdr_elements dim attr (snd <$> bdr) (n_bdr_elem_of bdr) mesh = Ok mesh' ->
  shape <$> boundary mesh'
    = (shape <$> boundary mesh)
        ++ match bdr with
           | Some (_, comp) =>
               if 0 <? comp_num_entities comp
               then entities_as_elements
                      (fun et => is_bdr_element_type et
                                 && (FmsEntityDim et =? FmsInt_sub dim 1))
                      (comp_parts comp)
               else []
           | None => []
           end.
Proof.
  unfold add_bdr_elements, entities_as_elements.
  destruct bdr as [[id comp]|];
    cbn [fmap option_fmap option_map snd n_bdr_elem_of].
  2:{ intros [= <-]. now rewrite app_nil_r. }
  destruct (0 <? comp_num_entities comp).
  2:{ intros [= <-]. now rewrite app_nil_r. }
  apply (foldM_appends _ (fun m => shape <$> boundary m)).
  intros part s s'.
  apply (foldM_appends _ (fun m => shape <$> boundary m)).
  intros et t t'. apply add_bdr_elements_step_shapes.
Qed.

(** The two lists of the mesh built, from the empty mesh on. *)
Lemma build_mesh_shapes K fms main_id main_comp coords bdr mesh m :
  elements mesh = [] -> boundary mesh = [] ->
  build_mesh K fms main_id main_comp coords bdr mesh = Ok m ->
  shape <$> elements m
    = entities_as_elements
        (fun et => is_element_type et && (FmsEntityDim et =? comp_dim main_comp))
        (comp_parts main_comp) /\
  shape <$> boundary m
    = match bdr with
      | Some (_, comp) =>
          if 0 <? comp_num_entities comp
          then entities_as_elements
                 (fun et => is_bdr_element_type et
                            && (FmsEntityDim et =? FmsInt_sub (comp_dim main_comp) 1))
                 (comp_parts comp)
          else []
      | None => []
      end.
Proof.
  intros Hel Hbd. unfold build_mesh.
  destruct (build_topology _ _ _ _ _) as [m1| |] eqn:Htopo; try discriminate.
  cbn [bind]. intros Htr.
  destruct (transfer_coordinates_lists _ _ _ _ _ _ _ _ _ Htr) as [-> ->].
  unfold build_topology in Htopo.
  destruct (select_tags _ _ _) as [elem_tag bdr_tag].
  destruct (attributes_of elem_tag 1) as [attr| |]; try discriminate.
  destruct (attributes_of bdr_tag 2) as [bdr_attr| |]; try discriminate.
  cbn [bind] in Htopo.
  destruct (add_elements _ _ _ _) as [m0| |] eqn:Hadd; try discriminate.
  cbn [bind] in Htopo.
  pose proof (add_elements_shapes _ _ _ _ _ Hadd) as He.
  destruct (add_elements_spec _ _ _ _ _ Hadd) as [_ Hb0].
  pose proof (add_bdr_elements_shapes _ _ _ _ _ Htopo) as Hb.
  destruct (add_bdr_elements_spec _ _ _ _ _ _ Htopo) as [_ He1].
  rewrite He1, He, Hb, Hb0, Hel, Hbd. split; reflexivity.
Qed.


Lemma finalize_mesh_Ok K coords n_vert space_dim mesh fin :
  finalize_mesh K coords n_vert space_dim mesh = Ok fin ->
  let by_vdim := is_by_vdim (fld_layout coords) in
  let mesh' := Nat.iter (Z.to_nat n_vert) (AddVertex origin) mesh in
  fin = {| fin_mesh := mesh';
           fin_edges := edge_vertices K mesh';
           fin_faces := face_vertices K mesh';
           fin_fes := nodes_space K mesh' (fd_order (fld_fd coords)) space_dim
                        (if by_vdim then Ordering.byVDIM else Ordering.byNODES);
           fin_nstride := if by_vdim then space_dim else 1;
           fin_vstride := if by_vdim then 1 else fd_num_dofs (fld_fd coords) |}.
Proof.
  unfold finalize_mesh, guard.
  destruct (is_double _); [|discriminate]. cbn [bind].
  destruct (is_fixed_order _); [|discriminate]. cbn [bind].
  destruct (is_continuous _); [|discriminate]. cbn [bind].
  destruct (is_nodal_gauss_closed _); [|discriminate]. cbn [bind].
  destruct (_ =? _); [|discriminate]. cbn [bind].
  now intros [= <-].
Qed.


(** C7. In the mesh a successful conversion hands over, the elements
    are the entities of the top dimension of the parts of the main
    component and the boundary elements those of dimension [dim-1] of the
    boundary component, one per entity in the order of insertion.  When no
    tag is attached to the main component every element has attribute 1;
    when no tag is attached to the boundary component every boundary element
    has attribute 1; when there is a tag (the first one attached to the
    component), the element inserted at offset [k] (the number of elements
    added before it) has the value at index [k] of the attribute array of
    the tag, and likewise for the boundary elements. *)
Theorem attributes_default_or_tag
    K fms heap out heap' mesh m main_id main_comp coords bdr :
  FmsMeshToMesh K fms heap out = Returned 0 heap' (Some mesh) ->
  heap' !! mesh = Some m ->
  find_main_comp (fms_comps fms) 0 = Some (main_id, main_comp, coords) ->
  find_bdr_comp (fms_comps fms) (comp_dim main_comp) (comp_relations main_comp)
    = Ok bdr ->
  (shape <$> elements m
     = entities_as_elements
         (fun et => is_element_type et && (FmsEntityDim et =? comp_dim main_comp))
         (comp_parts main_comp) /\
   shape <$> boundary m
     = match bdr with
       | Some (_, comp) =>
           if 0 <? comp_num_entities comp
           then entities_as_elements
                  (fun et => is_bdr_element_type et
                             && (FmsEntityDim et =? FmsInt_sub (comp_dim main_comp) 1))
                  (comp_parts comp)
           else []
       | None => []
       end) /\
  ((forall t, In t (fms_tags fms) -> tag_comp t <> main_id) ->
   forall e, In e (elements m) -> el_attr e = 1) /\
  ((forall t, In t (fms_tags fms) -> is_bdr_comp (fst <$> bdr) (tag_comp t) = false) ->
   forall e, In e (boundary m) -> el_attr e = 1) /\
  (forall tag,
     find (fun t => tag_comp t =? main_id) (fms_tags fms) = Some tag ->
     exists attr, tag_attributes tag 1 = Ok attr /\
       forall k e, elements m !! k = Some e -> attr !! k = Some (el_attr e)) /\
  (forall tag,
     find (fun t => is_bdr_comp (fst <$> bdr) (tag_comp t)) (fms_tags fms) = Some tag ->
     exists attr, tag_attributes tag 2 = Ok attr /\
       forall k e, boundary m !! k = Some e -> attr !! k = Some (el_attr e)).
Proof.
  intros Hcall Hm Hmain Hbdr.
  pose proof (FmsMeshToMesh_success_converts _ _ _ _ _ _ _ Hcall Hm) as Hconv.
  destruct (converted_attributes _ _ _ _ _ _ _ Hconv Hmain Hbdr)
    as (attr & bdr_attr & Hattr & Hbattr & Hel & Hbd).
  split; [|split; [|split; [|split]]].
  - destruct Hconv as (i & c & f & b & Ha & Hb & Hbuild).
    rewrite Hmain in Ha. injection Ha as <- <- <-.
    rewrite Hbdr in Hb. injection Hb as <-.
    eapply build_mesh_shapes; [| |exact Hbuild]; reflexivity.
  - intros Hnone e He.
    rewrite find_none_iff in Hattr
      by (intros t Ht; apply Z.eqb_neq; auto).
    injection Hattr as <-. eapply attrs_ok_None; eauto.
  - intros Hnone e He.
    rewrite find_none_iff in Hbattr by exact Hnone.
    injection Hbattr as <-. eapply attrs_ok_None; eauto.
  - intros tag Htag. rewrite Htag in Hattr. simpl in Hattr.
    apply bind_Ok in Hattr as (a & Ha & [= <-]).
    exists a. split; [exact Ha|]. intros k e. now apply attrs_ok_Some.
  - intros tag Htag. rewrite Htag in Hbattr. simpl in Hbattr.
    apply bind_Ok in Hbattr as (a & Ha & [= <-]).
    exists a. split; [exact Ha|]. intros k e. now apply attrs_ok_Some.
Qed.

Lemma attributes_default_or_tag_witness :
  let triangle :=
    {| el_geom := Geometry.TRIANGLE; el_verts := [0; 1; 2]; el_attr := -1 |} in
  let segment a b :=
    {| el_geom := Geometry.SEGMENT; el_verts := [a; b]; el_attr := 1 |} in
  exists heap' m main_comp coords bdr,
    FmsMeshToMesh Examples.plane_kernel MoreExamples.element_tagged_triangle
      ExampleCalls.empty_heap None = Returned 0 heap' (Some 0%nat) /\
    heap' !! 0%nat = Some m /\
    find_main_comp (fms_comps MoreExamples.element_tagged_triangle) 0
      = Some (0, main_comp, coords) /\
    find_bdr_comp (fms_comps MoreExamples.element_tagged_triangle)
      (comp_dim main_comp) (comp_relations main_comp) = Ok bdr /\
    elements m = [triangle] /\
    boundary m = [segment 0 1; segment 1 2; segment 2 0] /\
    (exists attr, tag_attributes ExampleCalls.element_tag 1 = Ok attr /\
       attr !! 0%nat = Some (el_attr triangle)) /\
    (forall e, In e [segment 0 1; segment 1 2; segment 2 0] -> el_attr e = 1).
Proof.
  intros triangle segment.
  eexists _, _, _, _, _.
  split; [vm_compute; reflexivity|].
  split; [vm_compute; reflexivity|].
  split; [vm_compute; reflexivity|].
  split; [vm_compute; reflexivity|].
  split; [reflexivity|]. split; [reflexivity|].
  pose proof (attributes_default_or_tag Examples.plane_kernel
                MoreExamples.element_tagged_triangle ExampleCalls.empty_heap None
                _ 0%nat _ 0 _ _ _
                ltac:(vm_compute; reflexivity) ltac:(vm_compute; reflexivity)
                ltac:(vm_compute; reflexivity) ltac:(vm_compute; reflexivity))
    as (_ & _ & Hnone & Hel & _).
  split.
  - destruct (Hel ExampleCalls.element_tag eq_refl) as (attr & Hattr & Hat).
    exists attr. split; [exact Hattr|]. apply (Hat 0%nat triangle). reflexivity.
  - apply Hnone. intros t [<-|[]]. reflexivity.
Defined.

(** C8. In the mesh a successful conversion hands over, with [v] the
    value at index [k] of the tag of the element or boundary element at
    position [k]: an 8-bit unsigned tag gives the attribute [v] itself; a
    32-bit tag gives the 32 bits read as a signed integer, which is [v] for
    a signed tag, while an unsigned 32-bit value of [2^31] or more is stored
    as the negative number [v - 2^32]. *)
Theorem attributes_of_32_bit_tags_reinterpreted
    K fms heap out heap' mesh m main_id main_comp coords bdr :
  FmsMeshToMesh K fms heap out = Returned 0 heap' (Some mesh) ->
  heap' !! mesh = Some m ->
  find_main_comp (fms_comps fms) 0 = Some (main_id, main_comp, coords) ->
  find_bdr_comp (fms_comps fms) (comp_dim main_comp) (comp_relations main_comp)
    = Ok bdr ->
  forall tag els,
    (find (fun t => tag_comp t =? main_id) (fms_tags fms) = Some tag /\
     els = elements m) \/
    (find (fun t => is_bdr_comp (fst <$> bdr) (tag_comp t)) (fms_tags fms) = Some tag /\
     els = boundary m) ->
    forall k e v,
      els !! k = Some e -> tag_data tag !! k = Some v ->
      (tag_type tag = FMS_UINT8 -> el_attr e = v) /\
      (tag_type tag = FMS_INT32 \/ tag_type tag = FMS_UINT32 ->
       el_attr e = as_int32 v) /\
      (tag_type tag = FMS_INT32 -> - 2 ^ 31 <= v < 2 ^ 31 -> el_attr e = v) /\
      (tag_type tag = FMS_UINT32 -> 2 ^ 31 <= v < 2 ^ 32 ->
       el_attr e = v - 2 ^ 32 /\ el_attr e < 0).
Proof.
  intros Hcall Hm Hmain Hbdr tag els Htag k e v He Hv.
  pose proof (FmsMeshToMesh_success_converts _ _ _ _ _ _ _ Hcall Hm) as Hconv.
  destruct (converted_attributes _ _ _ _ _ _ _ Hconv Hmain Hbdr)
    as (attr & bdr_attr & Hattr & Hbattr & Hel & Hbd).
  assert (Harr : exists a err, tag_attributes tag err = Ok a /\
                               a !! k = Some (el_attr e)).
  { destruct Htag as [[Htag ->]|[Htag ->]].
    - rewrite Htag in Hattr. simpl in Hattr.
      apply bind_Ok in Hattr as (a & Ha & [= <-]).
      exists a, 1. split; [exact Ha|]. eapply attrs_ok_Some; eauto.
    - rewrite Htag in Hbattr. simpl in Hbattr.
      apply bind_Ok in Hbattr as (a & Ha & [= <-]).
      exists a, 2. split; [exact Ha|]. eapply attrs_ok_Some; eauto. }
  destruct Harr as (a & err & Ha & Hk). unfold tag_attributes in Ha.
  assert (H32 : tag_type tag = FMS_INT32 \/ tag_type tag = FMS_UINT32 ->
                el_attr e = as_int32 v).
  { intros Hty.
    assert (a = map as_int32 (tag_data tag)) as ->
      by (destruct Hty as [Hty|Hty]; rewrite Hty in Ha; congruence).
    change (map as_int32 (tag_data tag)) with (as_int32 <$> tag_data tag) in Hk.
    rewrite list_lookup_fmap, Hv in Hk. simpl in Hk. congruence. }
  split; [|split; [|split]].
  - intros Hty. rewrite Hty in Ha. injection Ha as <-. congruence.
  - exact H32.
  - intros Hty Hrange. now rewrite (H32 (or_introl Hty)), as_int32_small.
  - intros Hty Hrange. rewrite (H32 (or_intror Hty)), as_int32_high by exact Hrange.
    lia.
Qed.

Lemma attributes_of_32_bit_tags_reinterpreted_witness :
  exists heap' m main_comp coords bdr e,
    FmsMeshToMesh Examples.plane_kernel ExampleCalls.tagged_triangle ExampleCalls.empty_heap None
      = Returned 0 heap' (Some 0%nat) /\
    heap' !! 0%nat = Some m /\
    find_main_comp (fms_comps ExampleCalls.tagged_triangle) 0
      = Some (0, main_comp, coords) /\
    find_bdr_comp (fms_comps ExampleCalls.tagged_triangle) (comp_dim main_comp)
      (comp_relations main_comp) = Ok bdr /\
    elements m !! 0%nat = Some e /\
    tag_data ExampleCalls.element_tag !! 0%nat = Some 4294967295 /\
    el_attr e = 4294967295 - 2 ^ 32 /\ el_attr e < 0.
Proof.
  eexists _, _, _, _, _, _.
  split; [vm_compute; reflexivity|].
  split; [vm_compute; reflexivity|].
  split; [vm_compute; reflexivity|].
  split; [vm_compute; reflexivity|].
  split; [vm_compute; reflexivity|].
  split; [reflexivity|].
  refine (proj2 (proj2 (proj2
    (attributes_of_32_bit_tags_reinterpreted Examples.plane_kernel
       ExampleCalls.tagged_triangle ExampleCalls.empty_heap None _ 0%nat _ 0 _ _ _
       ltac:(vm_compute; reflexivity) ltac:(vm_compute; reflexivity)
       ltac:(vm_compute; reflexivity) ltac:(vm_compute; reflexivity)
       ExampleCalls.element_tag _ (or_introl (conj eq_refl eq_refl))
       0%nat _ 4294967295 ltac:(vm_compute; reflexivity) eq_refl))) eq_refl _).
  lia.
Defined.

(** ** Edges as elements, other geometries as boundary elements *)

(** In dimension 1 the edges are the only entities of a part the
    element pass looks at. *)
Lemma add_elements_types_dim1 attr p mesh :
  foldM (add_elements_step 1 attr p) FmsEntityTypes mesh =
    add_elements_step 1 attr p FMS_EDGE mesh.
Proof.
  unfold FmsEntityTypes. cbn [foldM].
  change (add_elements_step 1 attr p FMS_VERTEX mesh) with (Ok mesh).
  cbn [bind].
  destruct (add_elements_step 1 attr p FMS_EDGE mesh); reflexivity.
Qed.

(** In a mesh of dimension 1 a part without edges adds nothing. *)
Lemma add_elements_no_edges attr parts mesh :
  (forall p, In p parts -> pe_num_ents (p FMS_EDGE) = 0) ->
  add_elements 1 attr parts mesh = Ok mesh.
Proof.
  unfold add_elements. induction parts as [|p parts IH]; intros Hnone.
  - reflexivity.
  - cbn [foldM]. rewrite add_elements_types_dim1.
    unfold add_elements_step. cbn [FmsEntityDim Z.eqb negb].
    rewrite (Hnone p) by (left; reflexivity). cbn [Z.eqb bind].
    apply IH. intros q Hq. apply Hnone. now right.
Qed.

Lemma add_elements_edges attr pre part post mesh :
  (forall p, In p pre -> pe_num_ents (p FMS_EDGE) = 0) ->
  pe_num_ents (part FMS_EDGE) <> 0 ->
  ids_unsupported (part FMS_EDGE) = false ->
  pe_ents_ori (part FMS_EDGE) = None ->
  add_elements 1 attr (pre ++ part :: post) mesh = Exit 5.
Proof.
  intros Hpre Hnum Hids Hori. unfold add_elements. rewrite foldM_app.
  fold (add_elements 1 attr pre mesh). rewrite add_elements_no_edges by exact Hpre.
  cbn [bind foldM]. rewrite add_elements_types_dim1.
  unfold add_elements_step. cbn [FmsEntityDim Z.eqb negb].
  destruct (Z.eqb_spec (pe_num_ents (part FMS_EDGE)) 0); [contradiction|].
  rewrite Hids, Hori. reflexivity.
Qed.

(** C5. Element pass: in a mesh of dimension 1 whose tags have supported
    types, the first part that has edges, with supported ids and without an
    orientation array, makes [FmsMeshToMesh] return 5, and the caller gets
    no mesh (heap and output cell are those of the call).  Boundary pass: an
    entity type other than edge, triangle and quadrilateral that passes the
    checks of the ids and of the orientation array leaves the mesh as it is
    and raises no error. *)
Theorem edge_elements_fail_other_boundary_geometries_skipped
    K fms heap out main_id main_comp coords bdr attr bdr_attr pre part post :
  find_main_comp (fms_comps fms) 0 = Some (main_id, main_comp, coords) ->
  comp_dim main_comp = 1 ->
  find_bdr_comp (fms_comps fms) (comp_dim main_comp) (comp_relations main_comp)
    = Ok bdr ->
  attributes_of (fst (select_tags (fms_tags fms) main_id (fst <$> bdr))) 1 = Ok attr ->
  attributes_of (snd (select_tags (fms_tags fms) main_id (fst <$> bdr))) 2
    = Ok bdr_attr ->
  comp_parts main_comp = pre ++ part :: post ->
  (forall p, In p pre -> pe_num_ents (p FMS_EDGE) = 0) ->
  pe_num_ents (part FMS_EDGE) <> 0 ->
  ids_unsupported (part FMS_EDGE) = false ->
  pe_ents_ori (part FMS_EDGE) = None ->
  FmsMeshToMesh K fms heap out = Returned 5 heap out /\
  (forall dim b_attr b_part et mesh,
     et <> FMS_EDGE -> et <> FMS_TRIANGLE -> et <> FMS_QUADRILATERAL ->
     ids_unsupported (b_part et) = false ->
     pe_ents_ori (b_part et) = None ->
     add_bdr_elements_step dim b_attr b_part et mesh = Ok mesh).
Proof.
  intros Hmain Hdim Hbdr Hattr Hbattr Hparts Hpre Hnum Hids Hori. split.
  - unfold FmsMeshToMesh. rewrite Hmain, Hbdr.
    unfold build_mesh, build_topology.
    destruct (select_tags _ _ _) as [elem_tag bdr_tag]. simpl in Hattr, Hbattr.
    rewrite Hattr, Hbattr, Hdim, Hparts. simpl.
    rewrite add_elements_edges by assumption. simpl.
    now rewrite heap_alloc_delete.
  - intros dim b_attr b_part et mesh He Ht Hq Hbids Hbori.
    unfold add_bdr_elements_step. rewrite Hbids, Hbori. simpl.
    destruct (negb _); [reflexivity|].
    destruct (_ =? 0); [reflexivity|].
    destruct et; congruence.
Qed.

Lemma edge_elements_fail_other_boundary_geometries_skipped_witness :
  exists main_comp coords bdr,
    find_main_comp (fms_comps ExampleCalls.segment) 0 = Some (0, main_comp, coords) /\
    comp_dim main_comp = 1 /\
    find_bdr_comp (fms_comps ExampleCalls.segment) (comp_dim main_comp)
      (comp_relations main_comp) = Ok bdr /\
    comp_parts main_comp = [] ++ ExampleCalls.seg_part :: [] /\
    pe_num_ents (ExampleCalls.seg_part FMS_EDGE) <> 0 /\
    FmsMeshToMesh Examples.plane_kernel ExampleCalls.segment
      ExampleCalls.old_heap (Some 7%nat)
      = Returned 5 ExampleCalls.old_heap (Some 7%nat) /\
    FmsEntityDim FMS_VERTEX = FmsInt_sub 1 1 /\
    pe_num_ents (ExampleCalls.end_points_part FMS_VERTEX) = 2 /\
    add_bdr_elements_step 1 None ExampleCalls.end_points_part FMS_VERTEX
      (new_Mesh 1 2 1 2 2) = Ok (new_Mesh 1 2 1 2 2).
Proof.
  eexists _, _, _.
  split; [vm_compute; reflexivity|].
  split; [reflexivity|].
  split; [vm_compute; reflexivity|].
  split; [reflexivity|].
  split; [vm_compute; discriminate|].
  pose proof (edge_elements_fail_other_boundary_geometries_skipped
                Examples.plane_kernel ExampleCalls.segment ExampleCalls.old_heap
                (Some 7%nat) 0 _ _ _ None None [] ExampleCalls.seg_part []
                ltac:(vm_compute; reflexivity) eq_refl
                ltac:(vm_compute; reflexivity) eq_refl eq_refl eq_refl
                (fun p (H : In p []) => match H with end)
                ltac:(vm_compute; discriminate) eq_refl eq_refl)
    as [Hfail Hskip].
  split; [exact Hfail|].
  split; [reflexivity|].
  split; [reflexivity|].
  apply Hskip; [discriminate..|reflexivity|reflexivity].
Defined.

(** ** The canonical entity index *)

Lemma SearchList_Some tbl key i :
  HashTable.SearchList tbl key = Some i <->
  tbl !! i = Some key /\ forall j, (j < i)%nat -> tbl !! j <> Some key.
Proof.
  unfold HashTable.SearchList. split.
  - intros H. destruct (list_find _ tbl) as [[i' k]|] eqn:E; [|discriminate].
    simpl in H. injection H as ->.
    apply list_find_Some in E as (Hi & -> & Hmin).
    split; [exact Hi|]. intros j Hj Hk. exact (Hmin j key Hk Hj eq_refl).
  - intros [Hi Hmin].
    assert (E : list_find (λ k, k = key) tbl = Some (i, key)).
    { apply list_find_Some. split; [exact Hi|]. split; [reflexivity|].
      intros j y Hy Hj ->. exact (Hmin j Hj Hy). }
    now rewrite E.
Qed.

Lemma SearchList_None tbl key :
  HashTable.SearchList tbl key = None <-> ~ In key tbl.
Proof.
  unfold HashTable.SearchList.
  destruct (list_find _ tbl) as [[i k]|] eqn:E; simpl.
  - split; [discriminate|]. intros Hnot. exfalso. apply Hnot.
    apply list_find_Some in E as (Hi & -> & _).
    apply list_elem_of_In, list_elem_of_lookup. eauto.
  - split; [|reflexivity]. intros _ Hin.
    apply list_find_None in E. rewrite Forall_forall in E.
    apply list_elem_of_In in Hin. exact (E key Hin eq_refl).
Qed.

(** In a table without repeated keys a key is found at its position. *)
Lemma FindId_position tbl ps (i : nat) :
  NoDup tbl -> tbl !! i = Some (HashTable.sorted_key ps) ->
  HashTable.FindId tbl ps = Z.of_nat i.
Proof.
  intros Hnd Hi. unfold HashTable.FindId.
  assert (E : HashTable.SearchList tbl (HashTable.sorted_key ps) = Some i).
  { apply SearchList_Some. split; [exact Hi|]. intros j Hj Hk.
    pose proof (NoDup_lookup _ _ _ _ Hnd Hi Hk). lia. }
  now rewrite E.
Qed.

Lemma FindId_found tbl ps id :
  HashTable.FindId tbl ps = id -> 0 <= id ->
  tbl !! Z.to_nat id = Some (HashTable.sorted_key ps).
Proof.
  unfold HashTable.FindId.
  destruct (HashTable.SearchList _ _) as [i|] eqn:E; intros <- Hid; [|lia].
  apply SearchList_Some in E as [Hi _]. now rewrite Nat2Z.id.
Qed.

(** One insertion in a table without repeated keys: a new key gets the
    next index, a key already there gets a smaller one. *)
Lemma GetId_new tbl ps :
  ~ In (HashTable.sorted_key ps) tbl ->
  HashTable.GetId tbl ps =
    (Z.of_nat (length tbl), tbl ++ [HashTable.sorted_key ps]).
Proof.
  intros Hnot. unfold HashTable.GetId.
  now rewrite (proj2 (SearchList_None _ _) Hnot).
Qed.

Lemma GetId_old tbl ps :
  In (HashTable.sorted_key ps) tbl ->
  exists i, (i < length tbl)%nat /\ HashTable.GetId tbl ps = (Z.of_nat i, tbl).
Proof.
  intros Hin. unfold HashTable.GetId.
  destruct (HashTable.SearchList _ _) as [i|] eqn:E.
  - exists i. split; [|reflexivity].
    apply SearchList_Some in E as [Hi _]. eapply lookup_lt_Some; eauto.
  - apply SearchList_None in E. contradiction.
Qed.

Section IndexLoop.

(** A loop that inserts the key of every entry and checks the index
    returned against the position of the entry. *)
Context {A : Type}.
Variable key_of : A -> result (list Z).
Variable err : Z.

Lemma index_loop_spec (keys : list (list Z)) :
  forall (xs : list A) (tbl : HashTable.t),
    Forall2 (fun x k => exists ps, key_of x = Ok ps /\ HashTable.sorted_key ps = k)
            xs keys ->
    (NoDup (tbl ++ keys) ->
     foldM (index_entry key_of err) (zip (seqZ (Z.of_nat (length tbl)) (Z.of_nat (length xs))) xs) tbl
       = Ok (tbl ++ keys)) /\
    (NoDup tbl -> ~ NoDup (tbl ++ keys) ->
     foldM (index_entry key_of err) (zip (seqZ (Z.of_nat (length tbl)) (Z.of_nat (length xs))) xs) tbl
       = Exit err).
Proof.
  induction keys as [|k keys IH]; intros xs tbl Hkeys.
  - inversion Hkeys; subst. simpl. rewrite app_nil_r. split; [reflexivity|].
    intros H1 H2. contradiction.
  - inversion Hkeys as [|x k' xs' keys' (ps & Hps & Hk) Hrest]; subst.
    rewrite seqZ_cons by (simpl; lia).
    replace (Z.pred (Z.of_nat (length (x :: xs')))) with (Z.of_nat (length xs'))
      by (simpl; lia).
    cbn [zip zip_with foldM]. unfold index_entry at 1 3. cbn [snd fst].
    rewrite Hps. cbn [bind].
    replace (tbl ++ HashTable.sorted_key ps :: keys)
      with ((tbl ++ [HashTable.sorted_key ps]) ++ keys)
      by (now rewrite <- app_assoc).
    replace (Z.succ (Z.of_nat (length tbl)))
      with (Z.of_nat (length (tbl ++ [HashTable.sorted_key ps])))
      by (rewrite length_app; simpl; lia).
    destruct (IH xs' (tbl ++ [HashTable.sorted_key ps]) Hrest) as [IHok IHbad].
    split.
    + intros Hnd.
      assert (Hnot : ~ In (HashTable.sorted_key ps) tbl).
      { apply NoDup_app in Hnd as (Hnd & _ & _).
        apply NoDup_app in Hnd as (_ & Hdis & _).
        intros Hin%list_elem_of_In. apply (Hdis _ Hin). now left. }
      rewrite (GetId_new _ _ Hnot), Z.eqb_refl. now apply IHok.
    + intros Hnd Hbad.
      destruct (decide (HashTable.sorted_key ps ∈ tbl)) as [Hin|Hnot].
      * apply list_elem_of_In in Hin.
        destruct (GetId_old _ _ Hin) as (i & Hi & ->).
        destruct (Z.eqb_spec (Z.of_nat i) (Z.of_nat (length tbl))); [lia|reflexivity].
      * assert (Hnot' : ~ In (HashTable.sorted_key ps) tbl)
          by (intros H%list_elem_of_In; contradiction).
        rewrite (GetId_new _ _ Hnot'), Z.eqb_refl. apply IHbad; [|exact Hbad].
        apply NoDup_app. split; [exact Hnd|]. split; [|apply NoDup_singleton].
        intros y Hy Hy'. apply list_elem_of_singleton in Hy'. subst. contradiction.
Qed.

End IndexLoop.

Lemma foldM_ext {A St} (f g : A -> St -> result St) (l : list A) (s : St) :
  (forall x t, f x t = g x t) -> foldM f l s = foldM g l s.
Proof.
  intros Hfg. revert s. induction l as [|x l IH]; intros s; simpl; [reflexivity|].
  rewrite Hfg. destruct (g x s); simpl; auto.
Qed.

(** A completed index loop has read a key for every entry and appended
    the keys in order. *)
Lemma index_loop_Ok {A} (key_of : A -> result (list Z)) (err : Z) (xs : list A) :
  forall (tbl tbl' : HashTable.t),
    foldM (index_entry key_of err)
      (zip (seqZ (Z.of_nat (length tbl)) (Z.of_nat (length xs))) xs) tbl = Ok tbl' ->
    exists keys,
      Forall2 (fun x k => exists ps, key_of x = Ok ps /\ HashTable.sorted_key ps = k)
              xs keys /\
      tbl' = tbl ++ keys.
Proof.
  induction xs as [|x xs IH]; intros tbl tbl' Hrun.
  - simpl in Hrun. injection Hrun as <-. exists []. split; [constructor|].
    now rewrite app_nil_r.
  - rewrite seqZ_cons in Hrun by (simpl; lia).
    replace (Z.pred (Z.of_nat (length (x :: xs)))) with (Z.of_nat (length xs))
      in Hrun by (simpl; lia).
    cbn [zip zip_with foldM] in Hrun.
    apply bind_Ok in Hrun as (tbl1 & Hstep & Hrest).
    unfold index_entry in Hstep. cbn [snd fst] in Hstep.
    apply bind_Ok in Hstep as (ps & Hps & Hstep).
    unfold HashTable.GetId in Hstep.
    destruct (HashTable.SearchList tbl (HashTable.sorted_key ps)) as [i|] eqn:E.
    + apply SearchList_Some in E as [Hi _]. apply lookup_lt_Some in Hi.
      destruct (Z.eqb_spec (Z.of_nat i) (Z.of_nat (length tbl))); [lia|discriminate].
    + rewrite Z.eqb_refl in Hstep. injection Hstep as <-.
      replace (Z.succ (Z.of_nat (length tbl)))
        with (Z.of_nat (length (tbl ++ [HashTable.sorted_key ps]))) in Hrest
        by (rewrite length_app; simpl; lia).
      apply IH in Hrest as (keys & Hkeys & ->).
      exists (HashTable.sorted_key ps :: keys). split.
      * constructor; eauto.
      * now rewrite <- app_assoc.
Qed.

(** The loop over the edges is the index loop with the two vertices of
    an edge as key and code 13. *)
Lemma index_edge_entry i_ev tbl :
  index_edge i_ev tbl =
    index_entry (fun ev : Z * Z => Ok [fst ev; snd ev]) 13 i_ev tbl.
Proof. destruct i_ev as [i [ev0 ev1]]. reflexivity. Qed.

Lemma index_face_entry i_fv tbl :
  index_face i_fv tbl = index_entry face_key_verts 14 i_fv tbl.
Proof. destruct i_fv as [i fv]. reflexivity. Qed.

Lemma edge_keys_read edges :
  Forall2 (fun (ev : Z * Z) k =>
             exists ps, Ok [fst ev; snd ev] = Ok ps /\ HashTable.sorted_key ps = k)
          edges (map edge_key edges).
Proof.
  induction edges as [|ev edges IH]; simpl; constructor; eauto.
Qed.

(** The edge index is built exactly when the keys of the edges are
    pairwise distinct, and is then the list of the keys; otherwise the loop
    leaves with code 13 at the first key met twice. *)
Lemma build_edge_index_spec edges :
  (NoDup (map edge_key edges) -> build_edge_index edges = Ok (map edge_key edges)) /\
  (~ NoDup (map edge_key edges) -> build_edge_index edges = Exit 13).
Proof.
  unfold build_edge_index, enumerate, HashTable.empty.
  rewrite (foldM_ext _ _ _ _ index_edge_entry).
  destruct (index_loop_spec _ 13 (map edge_key edges) edges [] (edge_keys_read edges))
    as [Hok Hbad].
  split; [exact Hok|]. intros Hdup. apply Hbad; [constructor|exact Hdup].
Qed.

Lemma face_key_verts_Ok fv :
  (length fv = 3 \/ 4 <= length fv)%nat ->
  face_key_verts fv = Ok (padded_face fv).
Proof.
  intros Hlen. unfold face_key_verts, padded_face.
  destruct (Z.eqb_spec (Z.of_nat (length fv)) 3) as [H3|H3].
  - destruct fv as [|a [|b [|c [|d fv]]]]; simpl in H3; try lia. reflexivity.
  - destruct fv as [|a [|b [|c [|d fv]]]]; simpl in *; try lia. reflexivity.
Qed.

Lemma face_key_verts_inv fv ps :
  face_key_verts fv = Ok ps ->
  ps = padded_face fv /\ (length fv = 3 \/ 4 <= length fv)%nat.
Proof.
  unfold face_key_verts, padded_face.
  destruct (Z.eqb_spec (Z.of_nat (length fv)) 3) as [H3|H3].
  - destruct fv as [|a [|b [|c [|d fv]]]]; simpl in H3; try lia.
    simpl. intros [= <-]. auto.
  - destruct fv as [|a [|b [|c [|d fv]]]]; simpl in *; try discriminate; try lia.
    intros [= <-]. split; [reflexivity|]. lia.
Qed.

Lemma face_keys_read faces :
  Forall (fun fv => length fv = 3 \/ 4 <= length fv)%nat faces ->
  Forall2 (fun fv k =>
             exists ps, face_key_verts fv = Ok ps /\ HashTable.sorted_key ps = k)
          faces (map face_key faces).
Proof.
  induction 1 as [|fv faces Hfv _ IH]; simpl; constructor; [|exact IH].
  exists (padded_face fv). split; [now apply face_key_verts_Ok|reflexivity].
Qed.

Lemma build_face_index_spec faces :
  Forall (fun fv => length fv = 3 \/ 4 <= length fv)%nat faces ->
  (NoDup (map face_key faces) -> build_face_index faces = Ok (map face_key faces)) /\
  (~ NoDup (map face_key faces) -> build_face_index faces = Exit 14).
Proof.
  intros Hlen. unfold build_face_index, enumerate, HashTable.empty.
  rewrite (foldM_ext _ _ _ _ index_face_entry).
  destruct (index_loop_spec _ 14 (map face_key faces) faces [] (face_keys_read _ Hlen))
    as [Hok Hbad].
  split; [exact Hok|]. intros Hdup. apply Hbad; [constructor|exact Hdup].
Qed.

(** A face index that has been built lists the keys of the faces, all
    distinct, and every face has three or at least four vertices. *)
Lemma build_face_index_Ok faces tbl :
  build_face_index faces = Ok tbl ->
  tbl = map face_key faces /\ NoDup tbl /\
  Forall (fun fv => length fv = 3 \/ 4 <= length fv)%nat faces.
Proof.
  intros Hrun.
  assert (Hlen : Forall (fun fv => length fv = 3 \/ 4 <= length fv)%nat faces).
  { unfold build_face_index, enumerate, HashTable.empty in Hrun.
    rewrite (foldM_ext _ _ _ _ index_face_entry) in Hrun.
    apply (index_loop_Ok _ _ _ []) in Hrun as (keys & Hkeys & _).
    clear -Hkeys. induction Hkeys as [|fv k faces keys (ps & Hps & _) _ IH];
      constructor; [|exact IH].
    now apply face_key_verts_inv in Hps as [_ Hl]. }
  destruct (build_face_index_spec faces Hlen) as [Hok Hbad].
  destruct (decide (NoDup (map face_key faces))) as [Hnd|Hdup].
  - rewrite (Hok Hnd) in Hrun. injection Hrun as <-. auto.
  - rewrite (Hbad Hdup) in Hrun. discriminate.
Qed.

Lemma GetId_in_order {A} (key : A -> list Z) (ps_of : A -> list Z) (xs : list A)
    (i : nat) (x : A) :
  (forall y, HashTable.sorted_key (ps_of y) = key y) ->
  NoDup (map key xs) -> xs !! i = Some x ->
  HashTable.GetId (map key (take i xs)) (ps_of x) =
    (Z.of_nat i, map key (take (S i) xs)).
Proof.
  intros Hkey Hnd Hx.
  rewrite (take_S_r _ _ _ Hx), map_app. simpl.
  rewrite <- (Hkey x).
  replace (Z.of_nat i) with (Z.of_nat (length (map key (take i xs)))).
  2:{ rewrite length_map, length_take. apply lookup_lt_Some in Hx. lia. }
  apply GetId_new. rewrite Hkey. intros Hin.
  apply in_map_iff in Hin as (y & Hy & Hin).
  apply list_elem_of_In, list_elem_of_lookup in Hin as [j Hj].
  apply lookup_take_Some in Hj as [Hj Hlt].
  assert (Hi' : map key xs !! i = Some (key x))
    by (change (map key xs) with (key <$> xs); now rewrite list_lookup_fmap, Hx).
  assert (Hj' : map key xs !! j = Some (key x))
    by (change (map key xs) with (key <$> xs);
        now rewrite list_lookup_fmap, Hj; simpl; rewrite Hy).
  pose proof (NoDup_lookup _ _ _ _ Hnd Hi' Hj'). lia.
Qed.

Lemma FindId_in_order {A} (key : A -> list Z) (ps_of : A -> list Z) (xs : list A)
    (i : nat) (x : A) :
  (forall y, HashTable.sorted_key (ps_of y) = key y) ->
  NoDup (map key xs) -> xs !! i = Some x ->
  HashTable.FindId (map key xs) (ps_of x) = Z.of_nat i.
Proof.
  intros Hkey Hnd Hx. apply FindId_position; [exact Hnd|].
  change (map key xs) with (key <$> xs).
  now rewrite list_lookup_fmap, Hx, Hkey.
Qed.

(** C2. With the mesh finalized (the main component found, the topology
    built, the checks of the field passed) and every face given by three or
    at least four vertices: where the edge index is built, either the keys
    of the edges are pairwise distinct, and then inserting the key of edge
    [i] into the table of the edges before it returns [i] and the index
    built finds every edge at its own position, or some key repeats, and
    then [FmsMeshToMesh] returns 13 and leaves heap and output cell as they
    were; the same for the face index, with the key of a triangle padded
    with [INT_MAX] and code 14. *)
Theorem canonical_index_checked
    K fms heap out main_id main_comp coords bdr mesh1 fin :
  find_main_comp (fms_comps fms) 0 = Some (main_id, main_comp, coords) ->
  find_bdr_comp (fms_comps fms) (comp_dim main_comp) (comp_relations main_comp)
    = Ok bdr ->
  build_topology fms main_id main_comp bdr
    (new_Mesh (comp_dim main_comp) (count_ents (comp_parts main_comp) FMS_VERTEX)
       (comp_num_entities main_comp) (n_bdr_elem_of bdr) (fld_num_vec_comp coords))
    = Ok mesh1 ->
  finalize_mesh K coords (count_ents (comp_parts main_comp) FMS_VERTEX)
    (fld_num_vec_comp coords) mesh1 = Ok fin ->
  Forall (fun fv => length fv = 3 \/ 4 <= length fv)%nat (fin_faces fin) ->
  let dim := comp_dim main_comp in
  let n_ents := count_ents (comp_parts main_comp) in
  let edges := fin_edges fin in
  let faces := fin_faces fin in
  let edges_indexed :=
    (2 <=? dim) && (0 <? DofForGeometry (fin_fes fin) Geometry.SEGMENT) in
  let faces_indexed :=
    (3 <=? dim) &&
    (((0 <? n_ents FMS_TRIANGLE) &&
      (0 <? DofForGeometry (fin_fes fin) Geometry.TRIANGLE)) ||
     ((0 <? n_ents FMS_QUADRILATERAL) &&
      (0 <? DofForGeometry (fin_fes fin) Geometry.SQUARE))) in
  (edges_indexed = true ->
   (NoDup (map edge_key edges) ->
    build_edge_table dim fin = Ok (map edge_key edges) /\
    forall (i : nat) ev, edges !! i = Some ev ->
      HashTable.GetId (map edge_key (take i edges)) [fst ev; snd ev]
        = (Z.of_nat i, map edge_key (take (S i) edges)) /\
      HashTable.FindId (map edge_key edges) [fst ev; snd ev] = Z.of_nat i) /\
   (~ NoDup (map edge_key edges) ->
    FmsMeshToMesh K fms heap out = Returned 13 heap out)) /\
  (faces_indexed = true ->
   (edges_indexed = true -> NoDup (map edge_key edges)) ->
   (NoDup (map face_key faces) ->
    build_face_table dim n_ents fin = Ok (map face_key faces) /\
    forall (i : nat) fv, faces !! i = Some fv ->
      HashTable.GetId (map face_key (take i faces)) (padded_face fv)
        = (Z.of_nat i, map face_key (take (S i) faces)) /\
      HashTable.FindId (map face_key faces) (padded_face fv) = Z.of_nat i) /\
   (~ NoDup (map face_key faces) ->
    FmsMeshToMesh K fms heap out = Returned 14 heap out)).
Proof.
  intros Hmain Hbdr Htopo Hfin Hfaces dim n_ents edges faces edges_indexed faces_indexed.
  assert (Hcall : forall err,
            (mfem_edge <- build_edge_table dim fin ;;
             mfem_face <- build_face_table dim n_ents fin ;;
             Ok (mfem_edge, mfem_face)) = Exit err ->
            FmsMeshToMesh K fms heap out = Returned err heap out).
  { intros err Herr. unfold FmsMeshToMesh. rewrite Hmain, Hbdr.
    unfold build_mesh. rewrite Htopo. cbn [bind].
    unfold transfer_coordinates. rewrite Hfin. cbn [bind].
    fold dim n_ents.
    destruct (build_edge_table dim fin) as [mfem_edge|e|]; cbn [bind] in *;
      [|injection Herr as ->; now rewrite heap_alloc_delete|discriminate].
    destruct (build_face_table dim n_ents fin) as [mfem_face|e|]; cbn [bind] in *;
      [discriminate|injection Herr as ->; now rewrite heap_alloc_delete|discriminate]. }
  destruct (build_edge_index_spec edges) as [Heok Hebad].
  destruct (build_face_index_spec faces Hfaces) as [Hfok Hfbad].
  split.
  - intros Hcond. split.
    + intros Hnd. split.
      * unfold build_edge_table. fold dim edges_indexed. rewrite Hcond. now apply Heok.
      * intros i ev Hev. split.
        -- now apply (GetId_in_order edge_key (fun ev => [fst ev; snd ev])).
        -- now apply (FindId_in_order edge_key (fun ev => [fst ev; snd ev])).
    + intros Hdup. apply Hcall.
      unfold build_edge_table. fold dim edges_indexed. rewrite Hcond.
      fold edges. now rewrite (Hebad Hdup).
  - intros Hcond Hedges. split.
    + intros Hnd. split.
      * unfold build_face_table. fold dim n_ents faces_indexed. rewrite Hcond.
        now apply Hfok.
      * intros i fv Hfv. split.
        -- now apply (GetId_in_order face_key padded_face).
        -- now apply (FindId_in_order face_key padded_face).
    + intros Hdup. apply Hcall.
      assert (Hedge_ok : exists tbl, build_edge_table dim fin = Ok tbl).
      { unfold build_edge_table. fold dim edges_indexed.
        destruct edges_indexed; [|eauto].
        fold edges. rewrite (Heok (Hedges eq_refl)). eauto. }
      destruct Hedge_ok as [tbl ->]. cbn [bind].
      unfold build_face_table. fold dim n_ents faces_indexed. rewrite Hcond.
      fold faces. now rewrite (Hfbad Hdup).
Qed.

Lemma canonical_index_checked_witness :
  exists main_comp coords bdr mesh1 fin,
    find_main_comp (fms_comps ExampleCalls.quadratic_triangle) 0
      = Some (0, main_comp, coords) /\
    find_bdr_comp (fms_comps ExampleCalls.quadratic_triangle) (comp_dim main_comp)
      (comp_relations main_comp) = Ok bdr /\
    build_topology ExampleCalls.quadratic_triangle 0 main_comp bdr
      (new_Mesh (comp_dim main_comp) (count_ents (comp_parts main_comp) FMS_VERTEX)
         (comp_num_entities main_comp) (n_bdr_elem_of bdr) (fld_num_vec_comp coords))
      = Ok mesh1 /\
    finalize_mesh ExampleCalls.doubled_edges_kernel coords
      (count_ents (comp_parts main_comp) FMS_VERTEX)
      (fld_num_vec_comp coords) mesh1 = Ok fin /\
    fin_edges fin = [(0, 1); (1, 2); (2, 0); (0, 1); (1, 2); (2, 0)] /\
    FmsMeshToMesh ExampleCalls.doubled_edges_kernel ExampleCalls.quadratic_triangle
      ExampleCalls.old_heap (Some 7%nat)
      = Returned 13 ExampleCalls.old_heap (Some 7%nat).
Proof.
  eexists _, _, _, _, _.
  split; [vm_compute; reflexivity|].
  split; [vm_compute; reflexivity|].
  split; [vm_compute; reflexivity|].
  split; [vm_compute; reflexivity|].
  split; [vm_compute; reflexivity|].
  refine (proj2 (proj1
    (canonical_index_checked ExampleCalls.doubled_edges_kernel
       ExampleCalls.quadratic_triangle ExampleCalls.old_heap (Some 7%nat)
       0 _ _ _ _ _
       ltac:(vm_compute; reflexivity) ltac:(vm_compute; reflexivity)
       ltac:(vm_compute; reflexivity) ltac:(vm_compute; reflexivity)
       ltac:(vm_compute; constructor)) ltac:(vm_compute; reflexivity)) _).
  apply (bool_decide_unpack (~ NoDup _)). vm_compute. exact I.
Defined.

(** ** Relative orientation *)

(** The search stops at the first cell that holds the vertex. *)
Lemma rotation_search_first (tv : list Z) (m0 : Z) :
  forall (k : nat) (start : Z),
    tv !! k = Some m0 ->
    (forall j, (j < k)%nat -> tv !! j <> Some m0) ->
    rotation_search tv m0 start = Some (start + Z.of_nat k).
Proof.
  induction tv as [|v tv IH]; intros k start Hk Hmin; [discriminate|].
  simpl. destruct (Z.eqb_spec v m0) as [->|Hne].
  - destruct k as [|k]; [f_equal; lia|].
    exfalso. apply (Hmin 0%nat); [lia|reflexivity].
  - destruct k as [|k]; [simpl in Hk; congruence|].
    rewrite (IH k (start + 1)); [f_equal; lia|exact Hk|].
    intros j Hj. apply (Hmin (S j)). lia.
Qed.

(** A vertex of the tuple is found inside the tuple. *)
Lemma rotation_search_in (tuple rest : list Z) (m0 : Z) :
  In m0 tuple ->
  exists k : nat,
    (k < length tuple)%nat /\
    (tuple ++ rest) !! k = Some m0 /\
    (forall j, (j < k)%nat -> (tuple ++ rest) !! j <> Some m0).
Proof.
  induction tuple as [|v tuple IH]; intros Hin; [destruct Hin|].
  destruct (Z.eq_dec v m0) as [->|Hne].
  - exists 0%nat. simpl. split; [lia|]. split; [reflexivity|]. intros j Hj. lia.
  - destruct Hin as [Heq|Hin]; [contradiction|].
    destruct (IH Hin) as (k & Hk & Hat & Hmin).
    exists (S k). simpl. split; [lia|]. split; [exact Hat|].
    intros [|j] Hj; simpl; [congruence|]. apply Hmin. lia.
Qed.

Lemma face_orientation_code (n : Z) (k : nat) (tv m_ev : list Z) (m0 m1 nxt : Z) :
  0 < n ->
  m_ev !! 0%nat = Some m0 -> m_ev !! 1%nat = Some m1 ->
  tv !! k = Some m0 ->
  (forall j, (j < k)%nat -> tv !! j <> Some m0) ->
  tv !! Z.to_nat ((Z.of_nat k + 1) mod n) = Some nxt ->
  face_orientation n tv m_ev =
    Ok (if decide (nxt = m1) then 2 * Z.of_nat k else 2 * Z.of_nat k + 1).
Proof.
  intros Hn H0 H1 Hk Hmin Hnxt. unfold face_orientation.
  rewrite (proj2 (rd_Ok m_ev 0 m0)) by (split; [lia|exact H0]). cbn [bind].
  rewrite (rotation_search_first tv m0 k 0 Hk Hmin), Z.add_0_l.
  rewrite (proj2 (rd_Ok tv _ nxt)).
  2:{ split; [|exact Hnxt]. apply Z.mod_pos_bound. lia. }
  cbn [bind].
  rewrite (proj2 (rd_Ok m_ev 1 m1)) by (split; [lia|exact H1]). cbn [bind].
  destruct (Z.eqb_spec nxt m1); destruct (decide (nxt = m1)); congruence.
Qed.

(** C3. The code of an edge is 0 when the first vertex of the source
    edge is the first vertex of the target edge and 1 otherwise.  For a
    source triangle ([n = 3]) or quadrilateral ([n = 4]) whose vertex [k]
    is the first one equal to the first vertex of the target face, the code
    is [2k] when the next source vertex, modulo [n], is the second vertex of
    the target face and [2k+1] otherwise.  In the scatter of an edge, a
    triangle and a quadrilateral this code is the orientation passed to
    [DofOrderForOrientation] for the geometry, whose result permutes the
    copy. *)
Theorem relative_orientation_codes
    fes data nstride vstride edges faces mfem_edge mfem_face
    (n : Z) (k : nat) (tv m_ev : list Z) (m0 m1 nxt : Z) :
  n = 3 \/ n = 4 ->
  Z.of_nat k < n ->
  (Z.to_nat n <= length tv)%nat ->
  m_ev !! 0%nat = Some m0 -> m_ev !! 1%nat = Some m1 ->
  tv !! k = Some m0 ->
  (forall j, (j < k)%nat -> tv !! j <> Some m0) ->
  tv !! Z.to_nat ((Z.of_nat k + 1) mod n) = Some nxt ->
  let code := if decide (nxt = m1) then 2 * Z.of_nat k else 2 * Z.of_nat k + 1 in
  (forall ev0 em0, edge_orientation ev0 em0 = if decide (ev0 = em0) then 0 else 1) /\
  face_orientation n tv m_ev = Ok code /\
  (forall ents_verts p st ev0 ev1 id em,
     at_ ents_verts (2 * p) !! 0%nat = Some ev0 ->
     at_ ents_verts (2 * p) !! 1%nat = Some ev1 ->
     HashTable.FindId mfem_edge [ev0; ev1] = id -> 0 <= id ->
     edges !! Z.to_nat id = Some em ->
     scatter_edge fes data nstride vstride edges mfem_edge ents_verts p st =
       scatter_permuted fes data nstride vstride (ent_dofs fes FMS_EDGE)
         (DofOrderForOrientation fes Geometry.SEGMENT
            (if decide (ev0 = fst em) then 0 else 1))
         (GetEdgeInteriorDofs fes id) st) /\
  (n = 3 ->
   forall ents_verts p st id,
     at_ ents_verts (3 * p) = tv ->
     HashTable.FindId mfem_face (take 3 tv ++ [INT_MAX]) = id -> 0 <= id ->
     faces !! Z.to_nat id = Some m_ev ->
     scatter_triangle fes data nstride vstride faces mfem_face ents_verts p st =
       scatter_permuted fes data nstride vstride (ent_dofs fes FMS_TRIANGLE)
         (DofOrderForOrientation fes Geometry.TRIANGLE code)
         (GetFaceInteriorDofs fes id) st) /\
  (n = 4 ->
   forall ents_verts p st id,
     at_ ents_verts (4 * p) = tv ->
     HashTable.FindId mfem_face (take 4 tv) = id -> 0 <= id ->
     faces !! Z.to_nat id = Some m_ev ->
     scatter_quad fes data nstride vstride faces mfem_face ents_verts p st =
       scatter_permuted fes data nstride vstride (ent_dofs fes FMS_QUADRILATERAL)
         (DofOrderForOrientation fes Geometry.SQUARE code)
         (GetFaceInteriorDofs fes id) st).
Proof.
  intros Hn Hk Hlen H0 H1 Htk Hmin Hnxt code.
  assert (Hcode : face_orientation n tv m_ev = Ok code)
    by (apply (face_orientation_code n k tv m_ev m0 m1 nxt); auto; lia).
  split; [|split; [exact Hcode|split; [|split]]].
  - intros ev0 em0. unfold edge_orientation.
    destruct (Z.eqb_spec ev0 em0); destruct (decide (ev0 = em0)); congruence.
  - intros ents_verts p st ev0 ev1 id em Hev0 Hev1 Hid Hpos Hem.
    unfold scatter_edge.
    rewrite (proj2 (rd_Ok _ 0 ev0)) by (split; [lia|exact Hev0]). cbn [bind].
    rewrite (proj2 (rd_Ok _ 1 ev1)) by (split; [lia|exact Hev1]). cbn [bind].
    rewrite Hid. destruct (Z.ltb_spec id 0); [lia|].
    rewrite (proj2 (rd_Ok edges id em)) by (split; [lia|exact Hem]). cbn [bind].
    unfold edge_orientation.
    destruct (Z.eqb_spec ev0 (fst em)); destruct (decide (ev0 = fst em));
      congruence.
  - intros -> ents_verts p st id Htv Hid Hpos Hface.
    unfold scatter_triangle. rewrite Htv.
    destruct tv as [|t0 [|t1 [|t2 rest]]]; simpl in Hlen; try lia.
    change (take 3 (t0 :: t1 :: t2 :: rest) ++ [INT_MAX])
      with [t0; t1; t2; INT_MAX] in Hid.
    change (rd (t0 :: t1 :: t2 :: rest) 0) with (Ok t0).
    change (rd (t0 :: t1 :: t2 :: rest) 1) with (Ok t1).
    change (rd (t0 :: t1 :: t2 :: rest) 2) with (Ok t2).
    cbn [bind]. rewrite Hid. destruct (Z.ltb_spec id 0); [lia|].
    rewrite (proj2 (rd_Ok faces id m_ev)) by (split; [lia|exact Hface]).
    cbn [bind]. rewrite Hcode. reflexivity.
  - intros -> ents_verts p st id Htv Hid Hpos Hface.
    unfold scatter_quad. rewrite Htv.
    destruct tv as [|t0 [|t1 [|t2 [|t3 rest]]]]; simpl in Hlen; try lia.
    change (take 4 (t0 :: t1 :: t2 :: t3 :: rest)) with [t0; t1; t2; t3] in Hid.
    change (rd (t0 :: t1 :: t2 :: t3 :: rest) 0) with (Ok t0).
    change (rd (t0 :: t1 :: t2 :: t3 :: rest) 1) with (Ok t1).
    change (rd (t0 :: t1 :: t2 :: t3 :: rest) 2) with (Ok t2).
    change (rd (t0 :: t1 :: t2 :: t3 :: rest) 3) with (Ok t3).
    cbn [bind]. rewrite Hid. destruct (Z.ltb_spec id 0); [lia|].
    rewrite (proj2 (rd_Ok faces id m_ev)) by (split; [lia|exact Hface]).
    cbn [bind]. rewrite Hcode. reflexivity.
Qed.

Lemma relative_orientation_codes_witness :
  let tv := [3; 1; 0; 2; 3; 1; 3; 0; 2] in
  let m_ev := [0; 1; 3] in
  let fes := TetExample.tet_space (new_Mesh 3 4 1 0 3) 3 3 Ordering.byVDIM in
  let mfem_face := map face_key TetExample.tet_faces in
  let ents_verts := concat TetExample.source_triangles in
  (3 = 3 \/ 3 = 4) /\
  Z.of_nat 2 < 3 /\
  (Z.to_nat 3 <= length tv)%nat /\
  m_ev !! 0%nat = Some 0 /\ m_ev !! 1%nat = Some 1 /\
  tv !! 2%nat = Some 0 /\
  (forall j, (j < 2)%nat -> tv !! j <> Some 0) /\
  tv !! Z.to_nat ((Z.of_nat 2 + 1) mod 3) = Some 3 /\
  edge_orientation 1 0 = 1 /\
  face_orientation 3 tv m_ev = Ok 5 /\
  at_ ents_verts (3 * 1) = tv /\
  HashTable.FindId mfem_face (take 3 tv ++ [INT_MAX]) = 2 /\
  TetExample.tet_faces !! Z.to_nat 2 = Some m_ev /\
  scatter_triangle fes TetExample.tet_data 3 1 TetExample.tet_faces mfem_face
    ents_verts 1 (initial_scatter_state (initial_nodes fes)) =
  scatter_permuted fes TetExample.tet_data 3 1 (ent_dofs fes FMS_TRIANGLE)
    (DofOrderForOrientation fes Geometry.TRIANGLE 5)
    (GetFaceInteriorDofs fes 2) (initial_scatter_state (initial_nodes fes)).
Proof.
  intros tv m_ev fes mfem_face ents_verts.
  assert (Hmin : forall j, (j < 2)%nat -> tv !! j <> Some 0).
  { intros [|[|j]] Hj; [discriminate|discriminate|lia]. }
  pose proof (relative_orientation_codes fes TetExample.tet_data 3 1 []
                TetExample.tet_faces [] mfem_face 3 2 tv m_ev 0 1 3
                (or_introl eq_refl) eq_refl ltac:(vm_compute; lia)
                eq_refl eq_refl eq_refl Hmin eq_refl)
    as (Hedge & Hface & _ & Htri & _).
  split; [left; reflexivity|].
  split; [reflexivity|].
  split; [vm_compute; lia|].
  split; [reflexivity|]. split; [reflexivity|]. split; [reflexivity|].
  split; [exact Hmin|].
  split; [reflexivity|].
  split; [exact (Hedge 1 0)|].
  split; [exact Hface|].
  split; [reflexivity|].
  split; [vm_compute; reflexivity|].
  split; [reflexivity|].
  apply (Htri eq_refl ents_verts 1 _ 2); [reflexivity|vm_compute; reflexivity|lia|reflexivity].
Defined.

(** ** The rotation search stays inside the tuple *)

Lemma sorted_key_Permutation (ps qs : list Z) :
  HashTable.sorted_key ps = HashTable.sorted_key qs -> ps ≡ₚ qs.
Proof.
  unfold HashTable.sorted_key. intros Heq.
  rewrite <- (merge_sort_Permutation Z.le ps), Heq.
  apply merge_sort_Permutation.
Qed.

Lemma FindId_empty ps : HashTable.FindId HashTable.empty ps = -1.
Proof. reflexivity. Qed.

(** The first vertex of a face is among the four of its key. *)
Lemma padded_face_first (fv : list Z) :
  (length fv = 3 \/ 4 <= length fv)%nat ->
  exists m0 m1, fv !! 0%nat = Some m0 /\ fv !! 1%nat = Some m1 /\
                In m0 (padded_face fv).
Proof.
  intros Hlen. unfold padded_face.
  destruct fv as [|a [|b [|c fv]]]; simpl in Hlen; try lia.
  exists a, b. split; [reflexivity|]. split; [reflexivity|].
  destruct (_ =? 3); simpl; auto.
Qed.

(** C9. With the face table the conversion has built (or left empty),
    the vertices of the target faces below [INT_MAX], and the key looked up
    made of the vertex tuple of a source triangle (padded with [INT_MAX]) or
    quadrilateral: when [FindId] succeeds, the face found has its first
    vertex in the tuple, the rotation search over the array from the tuple
    on stops at an index [k] below the size of the face, having read cells
    of the tuple only, and the orientation is computed. *)
Theorem rotation_search_stays_in_tuple
    (dim : Z) (n_ents : FmsEntityType -> Z) (fin : finalized)
    (mfem_face : HashTable.t) (n : Z) (tuple rest key : list Z) (id : Z) :
  build_face_table dim n_ents fin = Ok mfem_face ->
  (forall fv v, In fv (fin_faces fin) -> In v fv -> v < INT_MAX) ->
  Z.of_nat (length tuple) = n ->
  (n = 3 /\ key = tuple ++ [INT_MAX]) \/ (n = 4 /\ key = tuple) ->
  HashTable.FindId mfem_face key = id ->
  0 <= id ->
  exists m_ev m0 k code,
    fin_faces fin !! Z.to_nat id = Some m_ev /\
    m_ev !! 0%nat = Some m0 /\
    In m0 tuple /\
    rotation_search (tuple ++ rest) m0 0 = Some k /\
    0 <= k < n /\
    face_orientation n (tuple ++ rest) m_ev = Ok code.
Proof.
  intros Htable Hrange Hlen Hkey Hid Hpos.
  assert (Hbuilt : build_face_index (fin_faces fin) = Ok mfem_face).
  { unfold build_face_table in Htable. destruct (_ && _); [exact Htable|].
    injection Htable as <-. rewrite FindId_empty in Hid. lia. }
  apply build_face_index_Ok in Hbuilt as (-> & Hnd & Hshape).
  pose proof (FindId_found _ _ _ Hid Hpos) as Hat.
  change (map face_key (fin_faces fin)) with (face_key <$> fin_faces fin) in Hat.
  unfold HashTable.t in Hat. rewrite list_lookup_fmap in Hat.
  destruct (fin_faces fin !! Z.to_nat id) as [m_ev|] eqn:Hface; [|discriminate].
  simpl in Hat. injection Hat as Hsame.
  apply sorted_key_Permutation in Hsame.
  assert (Hin_faces : In m_ev (fin_faces fin))
    by (apply list_elem_of_In, list_elem_of_lookup; eauto).
  rewrite Forall_forall in Hshape.
  pose proof (Hshape m_ev (proj2 (list_elem_of_In _ _) Hin_faces)) as Hm_len.
  destruct (padded_face_first m_ev Hm_len) as (m0 & m1 & H0 & H1 & Hm0).
  assert (Hm0_key : In m0 key).
  { apply list_elem_of_In. rewrite <- Hsame. now apply list_elem_of_In. }
  assert (Hm0_tuple : In m0 tuple).
  { destruct Hkey as [[_ ->]|[_ ->]]; [|exact Hm0_key].
    apply in_app_or in Hm0_key as [Hin|[Heq|[]]]; [exact Hin|].
    assert (m0 < INT_MAX); [|lia].
    apply (Hrange m_ev m0 Hin_faces).
    apply list_elem_of_In, list_elem_of_lookup. eauto. }
  destruct (rotation_search_in tuple rest m0 Hm0_tuple) as (k & Hk & Hat & Hmin).
  assert (Hn : 0 < n) by (destruct Hkey as [[-> _]|[-> _]]; lia).
  assert (Hnext : exists nxt,
             (tuple ++ rest) !! Z.to_nat ((Z.of_nat k + 1) mod n) = Some nxt).
  { apply lookup_lt_is_Some. rewrite length_app.
    pose proof (Z.mod_pos_bound (Z.of_nat k + 1) n Hn). lia. }
  destruct Hnext as [nxt Hnxt].
  exists m_ev, m0, (Z.of_nat k), (if decide (nxt = m1) then 2 * Z.of_nat k
                                  else 2 * Z.of_nat k + 1).
  split; [reflexivity|]. split; [exact H0|]. split; [exact Hm0_tuple|].
  split; [|split; [lia|]].
  - now rewrite (rotation_search_first _ _ k 0 Hat Hmin).
  - now apply (face_orientation_code n k _ m_ev m0 m1 nxt).
Qed.

Lemma rotation_search_stays_in_tuple_witness :
  let fin :=
    {| fin_mesh := new_Mesh 3 4 1 0 3;
       fin_edges := TetExample.tet_edges;
       fin_faces := TetExample.tet_faces;
       fin_fes := TetExample.tet_space (new_Mesh 3 4 1 0 3) 3 3 Ordering.byVDIM;
       fin_nstride := 3; fin_vstride := 1 |} in
  let n_ents := count_ents [TetExample.tet_part] in
  let mfem_face := map face_key TetExample.tet_faces in
  build_face_table 3 n_ents fin = Ok mfem_face /\
  (forall fv v, In fv (fin_faces fin) -> In v fv -> v < INT_MAX) /\
  Z.of_nat (length [3; 1; 0]) = 3 /\
  HashTable.FindId mfem_face ([3; 1; 0] ++ [INT_MAX]) = 2 /\
  exists m_ev m0 k code,
    fin_faces fin !! Z.to_nat 2 = Some m_ev /\
    m_ev !! 0%nat = Some m0 /\
    In m0 [3; 1; 0] /\
    rotation_search ([3; 1; 0] ++ [2; 3; 1; 3; 0; 2]) m0 0 = Some k /\
    0 <= k < 3 /\
    face_orientation 3 ([3; 1; 0] ++ [2; 3; 1; 3; 0; 2]) m_ev = Ok code.
Proof.
  intros fin n_ents mfem_face.
  assert (Htable : build_face_table 3 n_ents fin = Ok mfem_face)
    by (vm_compute; reflexivity).
  assert (Hrange : forall fv v, In fv (fin_faces fin) -> In v fv -> v < INT_MAX).
  { intros fv v Hfv Hv. simpl in Hfv. unfold INT_MAX.
    destruct Hfv as [<-|[<-|[<-|[<-|[]]]]]; simpl in Hv;
      destruct Hv as [<-|[<-|[<-|[]]]]; lia. }
  assert (Hid : HashTable.FindId mfem_face ([3; 1; 0] ++ [INT_MAX]) = 2)
    by (vm_compute; reflexivity).
  split; [exact Htable|]. split; [exact Hrange|].
  split; [reflexivity|]. split; [exact Hid|].
  exact (rotation_search_stays_in_tuple 3 n_ents fin mfem_face 3 [3; 1; 0]
           [2; 3; 1; 3; 0; 2] ([3; 1; 0] ++ [INT_MAX]) 2
           Htable Hrange eq_refl (or_introl (conj eq_refl eq_refl)) Hid
           ltac:(lia)).
Defined.

(** The statement above rests on the lookup comparing all four sorted
    indices.  With faces told apart by their three smallest indices only, a
    source quadrilateral that shares these with a target face, and not the
    fourth, would be found, and the search for the first vertex of the
    target face would leave the array. *)
Remark lookup_by_three_smallest_indices :
  let faces := [[3; 0; 1; 2]] in
  let qv := [0; 1; 2; 9] in
  HashTable.FindId (map face_key faces) qv = -1 /\
  ThreeSmallest.FindId3 faces qv = 0 /\
  rotation_search qv 3 0 = None.
Proof. repeat split; vm_compute; reflexivity. Qed.

(** ** Orientation arrays *)

Lemma In_FmsEntityTypes et : In et FmsEntityTypes.
Proof. destruct et; simpl; auto 10. Qed.

Lemma is_Some_true {A} (o : option A) : is_Some o -> bool_decide (is_Some o) = true.
Proof. intros H. now apply bool_decide_eq_true_2. Qed.

(** The three places where an orientation array is looked at: whatever
    the state, the step does not complete, and with supported ids it leaves
    with the code of the pass. *)
Lemma add_elements_step_flagged dim attr part et mesh :
  FmsEntityDim et = dim -> pe_num_ents (part et) <> 0 ->
  is_Some (pe_ents_ori (part et)) ->
  (forall mesh', add_elements_step dim attr part et mesh <> Ok mesh') /\
  (ids_unsupported (part et) = false ->
   add_elements_step dim attr part et mesh = Exit 4).
Proof.
  intros Hdim Hnum Hori. unfold add_elements_step.
  rewrite (proj2 (Z.eqb_eq _ _) Hdim). cbn [negb].
  destruct (Z.eqb_spec (pe_num_ents (part et)) 0); [contradiction|].
  rewrite (is_Some_true _ Hori).
  destruct (ids_unsupported (part et)); split; congruence.
Qed.

Lemma add_bdr_elements_step_flagged dim attr part et mesh :
  FmsEntityDim et = FmsInt_sub dim 1 -> pe_num_ents (part et) <> 0 ->
  is_Some (pe_ents_ori (part et)) ->
  (forall mesh', add_bdr_elements_step dim attr part et mesh <> Ok mesh') /\
  (ids_unsupported (part et) = false ->
   add_bdr_elements_step dim attr part et mesh = Exit 7).
Proof.
  intros Hdim Hnum Hori. unfold add_bdr_elements_step.
  rewrite (proj2 (Z.eqb_eq _ _) Hdim). cbn [negb].
  destruct (Z.eqb_spec (pe_num_ents (part et)) 0); [contradiction|].
  rewrite (is_Some_true _ Hori).
  destruct (ids_unsupported (part et)); split; congruence.
Qed.

Lemma scatter_step_flagged fes data nstride vstride dim edges faces
    mfem_edge mfem_face part et st :
  ent_dofs fes et <> 0 -> pe_num_ents (part et) <> 0 ->
  is_Some (pe_ents_ori (part et)) ->
  (forall st', scatter_step fes data nstride vstride dim edges faces
                 mfem_edge mfem_face part et st <> Ok st') /\
  (ids_unsupported (part et) = false ->
   scatter_step fes data nstride vstride dim edges faces
     mfem_edge mfem_face part et st = Exit 16).
Proof.
  intros Hdofs Hnum Hori. unfold scatter_step.
  destruct (Z.eqb_spec (pe_num_ents (part et)) 0); [contradiction|].
  destruct (Z.eqb_spec (ent_dofs fes et) 0); [contradiction|].
  rewrite (is_Some_true _ Hori).
  destruct (ids_unsupported (part et)); split; congruence.
Qed.

(** A loop over parts and entity types does not complete when one of its
    steps never does. *)
Lemma nested_loop_stuck {St} (step : FmsPart -> FmsEntityType -> St -> result St)
    (parts : list FmsPart) (part : FmsPart) (et : FmsEntityType) :
  In part parts ->
  (forall s s', step part et s <> Ok s') ->
  forall s s', foldM (fun p => foldM (step p) FmsEntityTypes) parts s <> Ok s'.
Proof.
  intros Hpart Hstep. apply (foldM_stuck _ parts part Hpart).
  apply (foldM_stuck _ FmsEntityTypes et (In_FmsEntityTypes et) Hstep).
Qed.

Lemma finalize_mesh_fes K coords n_vert space_dim mesh fin :
  finalize_mesh K coords n_vert space_dim mesh = Ok fin ->
  exists m ord, fin_fes fin = nodes_space K m (fd_order (fld_fd coords)) space_dim ord.
Proof.
  unfold finalize_mesh, guard. intros Hrun.
  repeat (apply bind_Ok in Hrun as (? & _ & Hrun)).
  injection Hrun as <-. simpl. eauto.
Qed.

(** A conversion with a step that never completes, in one of the three
    passes, builds no mesh; in the scatter the step is the one of the node
    space built on the mesh of the two passes. *)
Lemma build_mesh_stuck K fms main_id main_comp coords bdr part et :
  (In part (comp_parts main_comp) /\
   forall attr s s',
     add_elements_step (comp_dim main_comp) attr part et s <> Ok s') \/
  (exists bdr_id bdr_comp,
     bdr = Some (bdr_id, bdr_comp) /\ 0 < comp_num_entities bdr_comp /\
     In part (comp_parts bdr_comp) /\
     forall attr s s',
       add_bdr_elements_step (comp_dim main_comp) attr part et s <> Ok s') \/
  (In part (comp_parts main_comp) /\
   forall mesh1,
     build_topology fms main_id main_comp bdr (allocated main_comp coords bdr)
       = Ok mesh1 ->
     forall data ns vs edges faces me mf s s',
       scatter_step
         (built_space K coords (count_ents (comp_parts main_comp) FMS_VERTEX) mesh1)
         data ns vs (comp_dim main_comp) edges faces me mf part et s <> Ok s') ->
  forall m,
    build_mesh K fms main_id main_comp coords bdr (allocated main_comp coords bdr)
      <> Ok m.
Proof.
  intros Hwhere m Hbuild. unfold build_mesh in Hbuild.
  apply bind_Ok in Hbuild as (m2 & Htopo & Htransfer).
  pose proof Htopo as Htopo'.
  unfold build_topology in Htopo.
  destruct (select_tags _ _ _) as [elem_tag bdr_tag].
  apply bind_Ok in Htopo as (attr & _ & Htopo).
  apply bind_Ok in Htopo as (bdr_attr & _ & Htopo).
  apply bind_Ok in Htopo as (m1 & Hel & Hbd).
  destruct Hwhere
    as [[Hpart Hstep]|[(bdr_id & bdr_comp & -> & Hn & Hpart & Hstep)|[Hpart Hstep]]].
  - revert Hel. apply nested_loop_stuck with (part := part) (et := et); [exact Hpart|].
    apply Hstep.
  - revert Hbd. unfold add_bdr_elements. simpl.
    destruct (Z.ltb_spec 0 (comp_num_entities bdr_comp)); [|lia].
    apply nested_loop_stuck with (part := part) (et := et); [exact Hpart|].
    apply Hstep.
  - unfold transfer_coordinates in Htransfer.
    apply bind_Ok in Htransfer as (fin & Hfin & Htransfer).
    apply bind_Ok in Htransfer as (mfem_edge & _ & Htransfer).
    apply bind_Ok in Htransfer as (mfem_face & _ & Htransfer).
    apply bind_Ok in Htransfer as (st & Hscatter & _).
    apply finalize_mesh_Ok in Hfin. cbv zeta in Hfin. subst fin.
    revert Hscatter. unfold scatter.
    apply nested_loop_stuck with (part := part) (et := et); [exact Hpart|].
    apply (Hstep m2 Htopo').
Qed.

(** Without an element tag the element pass reads no array: it ends at
    [func_exit] or completes. *)
Lemma foldM_defined {A St} (f : A -> St -> result St) (l : list A) :
  (forall x s, f x s <> Undef) -> forall s, foldM f l s <> Undef.
Proof.
  intros Hf. induction l as [|x l IH]; intros s; simpl; [discriminate|].
  destruct (f x s) as [s1| |] eqn:E; simpl; [apply IH|discriminate|].
  now apply Hf in E.
Qed.

Lemma add_loop_untagged_defined add nv ents_verts off n mesh :
  add_loop add nv ents_verts None off n mesh <> Undef.
Proof.
  unfold add_loop, for_range. apply foldM_defined. intros i s. discriminate.
Qed.

Lemma add_elements_untagged_defined dim parts mesh :
  add_elements dim None parts mesh <> Undef.
Proof.
  unfold add_elements. apply foldM_defined. intros part s.
  apply foldM_defined. intros et s'. unfold add_elements_step.
  destruct (negb _); [discriminate|].
  destruct (_ =? 0); [discriminate|].
  destruct (ids_unsupported _); [discriminate|].
  destruct (bool_decide _); [discriminate|].
  destruct et; try discriminate; apply add_loop_untagged_defined.
Qed.

Lemma exits_add_elements_codes dim attr parts mesh :
  exits (fun e => 3 <= e <= 5) (add_elements dim attr parts mesh).
Proof.
  unfold add_elements. apply exits_foldM; intros part m.
  apply exits_foldM; intros et m'. unfold add_elements_step.
  destruct (negb _); [apply exits_Ok|].
  destruct (_ =? 0); [apply exits_Ok|].
  destruct (ids_unsupported _); [apply exits_Exit; lia|].
  destruct (bool_decide _); [apply exits_Exit; lia|].
  destruct et; try apply exits_Ok; try (apply exits_Exit; lia);
    unfold add_loop, for_range, attribute_at; exits_tac.
Qed.

(** C6, as stated, fails.  In the first mesh the edges of the one part
    of the main component carry an orientation array; the field has order
    1, the edges have no DOF, and the scatter skips them before it looks at
    the array.  In the second the array is on the triangle of a third
    component, which no pass visits.  Both conversions return 0 and hand
    over a mesh. *)
Lemma orientation_flags_not_always_rejected :
  (has_orientation_flags ExampleCalls.oriented_linear_triangle /\
   pe_num_ents (Examples.tri_part (Some [0; 0; 0]) FMS_EDGE) = 3 /\
   exists heap' mesh,
     FmsMeshToMesh Examples.plane_kernel ExampleCalls.oriented_linear_triangle
       ExampleCalls.empty_heap None = Returned 0 heap' (Some mesh) /\
     is_Some (heap' !! mesh)) /\
  (has_orientation_flags ExampleCalls.triangle_with_flagged_component /\
   pe_num_ents (ExampleCalls.flagged_triangle_part FMS_TRIANGLE) = 1 /\
   exists heap' mesh,
     FmsMeshToMesh Examples.plane_kernel ExampleCalls.triangle_with_flagged_component
       ExampleCalls.empty_heap None = Returned 0 heap' (Some mesh) /\
     is_Some (heap' !! mesh)).
Proof.
  split; (split; [|split]).
  - eexists _, (Examples.tri_part (Some [0; 0; 0])), FMS_EDGE.
    split; [left; reflexivity|]. split; [left; reflexivity|]. simpl. eauto.
  - reflexivity.
  - eexists _, _. split; [vm_compute; reflexivity|]. vm_compute. eauto.
  - eexists _, ExampleCalls.flagged_triangle_part, FMS_TRIANGLE.
    split; [right; right; left; reflexivity|].
    split; [left; reflexivity|]. simpl. eauto.
  - reflexivity.
  - eexists _, _. split; [vm_compute; reflexivity|]. vm_compute. eauto.
Qed.

(** The passes do not look at the orientation arrays elsewhere: erasing
    an array that no pass looks at leaves every step as it was. *)
Lemma clear_ori_None pe : pe_ents_ori pe = None -> clear_ori pe = pe.
Proof. destruct pe; simpl; intros ->; reflexivity. Qed.

Lemma foldM_map {A B St} (f : B -> St -> result St) (g : A -> B)
    (l : list A) (s : St) :
  foldM f (map g l) s = foldM (fun x => f (g x)) l s.
Proof.
  revert s. induction l as [|x l IH]; intros s; simpl; [reflexivity|].
  destruct (f (g x) s); simpl; auto.
Qed.

Lemma foldM_ext_in {A St} (f g : A -> St -> result St) (l : list A) (s : St) :
  (forall x t, In x l -> f x t = g x t) -> foldM f l s = foldM g l s.
Proof.
  revert s. induction l as [|x l IH]; intros s Hfg; [reflexivity|].
  cbn [foldM]. rewrite (Hfg x s) by (left; reflexivity).
  destruct (g x s); cbn [bind]; [|reflexivity..].
  apply IH. intros y t Hy. apply Hfg. now right.
Qed.

Lemma add_elements_step_erase dim attr part et mesh :
  (is_Some (pe_ents_ori (part et)) ->
   pe_num_ents (part et) = 0 \/ FmsEntityDim et <> dim) ->
  add_elements_step dim attr (erase_part_ori part) et mesh
    = add_elements_step dim attr part et mesh.
Proof.
  intros Hun. destruct (pe_ents_ori (part et)) as [ori|] eqn:Hori.
  - unfold add_elements_step. cbv zeta.
    change (pe_num_ents (erase_part_ori part et)) with (pe_num_ents (part et)).
    destruct (Hun ltac:(eauto)) as [Hn|Hd].
    + rewrite Hn. destruct (negb _); reflexivity.
    + now rewrite (proj2 (Z.eqb_neq _ _) Hd).
  - unfold erase_part_ori at 1.
    unfold add_elements_step. cbv zeta. unfold erase_part_ori.
    now rewrite (clear_ori_None _ Hori).
Qed.

Lemma add_bdr_elements_step_erase dim attr part et mesh :
  (is_Some (pe_ents_ori (part et)) ->
   pe_num_ents (part et) = 0 \/ FmsEntityDim et <> FmsInt_sub dim 1) ->
  add_bdr_elements_step dim attr (erase_part_ori part) et mesh
    = add_bdr_elements_step dim attr part et mesh.
Proof.
  intros Hun. destruct (pe_ents_ori (part et)) as [ori|] eqn:Hori.
  - unfold add_bdr_elements_step. cbv zeta.
    change (pe_num_ents (erase_part_ori part et)) with (pe_num_ents (part et)).
    destruct (Hun ltac:(eauto)) as [Hn|Hd].
    + rewrite Hn. destruct (negb _); reflexivity.
    + now rewrite (proj2 (Z.eqb_neq _ _) Hd).
  - unfold add_bdr_elements_step. cbv zeta. unfold erase_part_ori.
    now rewrite (clear_ori_None _ Hori).
Qed.

Lemma scatter_step_erase fes data nstride vstride dim edges faces
    mfem_edge mfem_face part et st :
  (is_Some (pe_ents_ori (part et)) ->
   pe_num_ents (part et) = 0 \/ ent_dofs fes et = 0) ->
  scatter_step fes data nstride vstride dim edges faces mfem_edge mfem_face
    (erase_part_ori part) et st
  = scatter_step fes data nstride vstride dim edges faces mfem_edge mfem_face
      part et st.
Proof.
  intros Hun. destruct (pe_ents_ori (part et)) as [ori|] eqn:Hori.
  - unfold scatter_step. cbv zeta.
    change (pe_num_ents (erase_part_ori part et)) with (pe_num_ents (part et)).
    destruct (Hun ltac:(eauto)) as [Hn|Hd].
    + now rewrite Hn.
    + rewrite Hd. destruct (_ =? 0); reflexivity.
  - unfold scatter_step. cbv zeta. unfold erase_part_ori.
    now rewrite (clear_ori_None _ Hori).
Qed.

Lemma count_ents_erase parts et :
  count_ents (map erase_part_ori parts) et = count_ents parts et.
Proof.
  unfold count_ents. generalize 0.
  induction parts as [|part parts IH]; intros a; simpl; [reflexivity|].
  apply IH.
Qed.

Lemma add_elements_erase dim attr parts mesh :
  (forall part et, In part parts -> is_Some (pe_ents_ori (part et)) ->
     pe_num_ents (part et) = 0 \/ FmsEntityDim et <> dim) ->
  add_elements dim attr (map erase_part_ori parts) mesh
    = add_elements dim attr parts mesh.
Proof.
  intros Hun. unfold add_elements. rewrite foldM_map.
  apply foldM_ext_in. intros part m Hpart.
  apply foldM_ext. intros et m'. apply add_elements_step_erase. now apply Hun.
Qed.

Lemma nested_bdr_erase dim attr parts mesh :
  (forall part et, In part parts -> is_Some (pe_ents_ori (part et)) ->
     pe_num_ents (part et) = 0 \/ FmsEntityDim et <> FmsInt_sub dim 1) ->
  foldM (fun part => foldM (add_bdr_elements_step dim attr part) FmsEntityTypes)
    (map erase_part_ori parts) mesh
  = foldM (fun part => foldM (add_bdr_elements_step dim attr part) FmsEntityTypes)
      parts mesh.
Proof.
  intros Hun. rewrite foldM_map.
  apply foldM_ext_in. intros part m Hpart.
  apply foldM_ext. intros et m'. apply add_bdr_elements_step_erase. now apply Hun.
Qed.

Lemma scatter_erase fes data nstride vstride dim edges faces mfem_edge mfem_face
    parts st :
  (forall part et, In part parts -> is_Some (pe_ents_ori (part et)) ->
     pe_num_ents (part et) = 0 \/ ent_dofs fes et = 0) ->
  scatter fes data nstride vstride dim edges faces mfem_edge mfem_face
    (map erase_part_ori parts) st
  = scatter fes data nstride vstride dim edges faces mfem_edge mfem_face parts st.
Proof.
  intros Hun. unfold scatter. rewrite foldM_map.
  apply foldM_ext_in. intros part s Hpart.
  apply foldM_ext. intros et s'. apply scatter_step_erase. now apply Hun.
Qed.

Lemma rd_map {A B} (f : A -> B) (l : list A) (i : Z) :
  rd (map f l) i = match rd l i with
                   | Ok x => Ok (f x)
                   | Exit e => Exit e
                   | Undef => Undef
                   end.
Proof.
  unfold rd. destruct (i <? 0); [reflexivity|].
  change (map f l) with (f <$> l). rewrite list_lookup_fmap.
  now destruct (l !! Z.to_nat i).
Qed.

Lemma find_main_comp_erase comps start :
  find_main_comp (map erase_comp_ori comps) start
    = (fun r => (r.1.1, erase_comp_ori r.1.2, r.2)) <$> find_main_comp comps start.
Proof.
  revert start. induction comps as [|comp comps IH]; intros start; simpl;
    [reflexivity|].
  destruct (comp_coords comp); [reflexivity|apply IH].
Qed.

Lemma find_bdr_comp_erase comps dim rels :
  find_bdr_comp (map erase_comp_ori comps) dim rels
    = match find_bdr_comp comps dim rels with
      | Ok bdr => Ok ((fun r => (r.1, erase_comp_ori r.2)) <$> bdr)
      | Exit e => Exit e
      | Undef => Undef
      end.
Proof.
  induction rels as [|id rels IH]; simpl; [reflexivity|].
  rewrite rd_map. destruct (rd comps id) as [comp| |]; simpl; try reflexivity.
  destruct (_ =? _); [reflexivity|apply IH].
Qed.

Lemma transfer_coordinates_ext K coords parts dim n_vert space_dim
    (n1 n2 : FmsEntityType -> Z) mesh :
  (forall et, n1 et = n2 et) ->
  transfer_coordinates K coords parts dim n_vert space_dim n1 mesh
    = transfer_coordinates K coords parts dim n_vert space_dim n2 mesh.
Proof.
  intros Hn. unfold transfer_coordinates, build_face_table. now rewrite !Hn.
Qed.

(** The conversion of a mesh whose orientation arrays no pass looks at
    goes as the conversion of the mesh without them. *)
Lemma build_mesh_erase K fms main_id main_comp coords bdr :
  orientation_unchecked K fms main_id main_comp coords bdr ->
  build_mesh K (erase_ori fms) main_id (erase_comp_ori main_comp) coords
    ((fun r => (r.1, erase_comp_ori r.2)) <$> bdr)
    (allocated main_comp coords bdr)
  = build_mesh K fms main_id main_comp coords bdr (allocated main_comp coords bdr).
Proof.
  intros [Hmain_un Hbdr_un].
  assert (Htopo : build_topology (erase_ori fms) main_id (erase_comp_ori main_comp)
                    ((fun r => (r.1, erase_comp_ori r.2)) <$> bdr)
                    (allocated main_comp coords bdr)
                  = build_topology fms main_id main_comp bdr
                      (allocated main_comp coords bdr)).
  { unfold build_topology.
    replace (fst <$> ((fun r => (r.1, erase_comp_ori r.2)) <$> bdr))
      with (fst <$> bdr) by (now destruct bdr as [[]|]).
    cbn [fms_tags erase_ori comp_dim comp_parts erase_comp_ori].
    destruct (select_tags _ _ _) as [elem_tag bdr_tag].
    destruct (attributes_of elem_tag 1) as [attr| |]; [|reflexivity..].
    destruct (attributes_of bdr_tag 2) as [bdr_attr| |]; [|reflexivity..].
    cbn [bind]. rewrite add_elements_erase.
    2:{ intros part et Hpart Hori.
        destruct (Hmain_un part et Hpart Hori) as [Hn|[Hd _]]; auto. }
    destruct (add_elements _ _ _ _) as [m0| |]; [|reflexivity..].
    cbn [bind]. destruct bdr as [[bdr_id bdr_comp]|]; [|reflexivity].
    cbn. unfold add_bdr_elements.
    destruct (Z.ltb_spec 0 (comp_num_entities bdr_comp)); [|reflexivity].
    apply nested_bdr_erase. intros part et Hpart Hori.
    now apply (Hbdr_un bdr_id bdr_comp). }
  unfold build_mesh. cbv zeta. rewrite Htopo.
  destruct (build_topology fms _ _ _ _) as [mesh1| |] eqn:Hrun; [|reflexivity..].
  cbn [bind comp_dim comp_parts erase_comp_ori].
  rewrite count_ents_erase.
  rewrite (transfer_coordinates_ext K coords _ _ _ _
             (count_ents (map erase_part_ori (comp_parts main_comp)))
             (count_ents (comp_parts main_comp)))
    by (intros et; apply count_ents_erase).
  unfold transfer_coordinates.
  destruct (finalize_mesh _ _ _ _ _) as [fin| |] eqn:Hfin; [|reflexivity..].
  cbn [bind].
  destruct (build_edge_table _ _) as [me| |]; [|reflexivity..]. cbn [bind].
  destruct (build_face_table _ _ _) as [mf| |]; [|reflexivity..]. cbn [bind].
  rewrite scatter_erase; [reflexivity|].
  intros part et Hpart Hori.
  destruct (Hmain_un part et Hpart Hori) as [Hn|[_ Hd]]; [now left|right].
  apply finalize_mesh_Ok in Hfin. cbv zeta in Hfin. subst fin.
  exact (Hd mesh1 Hrun).
Qed.

Lemma FmsMeshToMesh_erase K fms heap out main_id main_comp coords bdr :
  find_main_comp (fms_comps fms) 0 = Some (main_id, main_comp, coords) ->
  find_bdr_comp (fms_comps fms) (comp_dim main_comp) (comp_relations main_comp)
    = Ok bdr ->
  orientation_unchecked K fms main_id main_comp coords bdr ->
  FmsMeshToMesh K fms heap out = FmsMeshToMesh K (erase_ori fms) heap out.
Proof.
  intros Hmain Hbdr Hun. unfold FmsMeshToMesh.
  cbn [fms_comps erase_ori].
  rewrite find_main_comp_erase, Hmain.
  cbn [fmap option_fmap option_map fst snd comp_dim comp_parts comp_relations
       comp_num_entities erase_comp_ori].
  rewrite find_bdr_comp_erase, Hbdr.
  pose proof (build_mesh_erase K fms main_id main_comp coords bdr Hun) as Hbuild.
  unfold allocated, new_Mesh in *. now rewrite Hbuild.
Qed.

Lemma erase_ori_no_flags fms : ~ has_orientation_flags (erase_ori fms).
Proof.
  intros (comp & part & et & Hcomp & Hpart & Hori).
  cbn in Hcomp. apply in_map_iff in Hcomp as (c & <- & _).
  cbn in Hpart. apply in_map_iff in Hpart as (p & <- & _).
  cbn in Hori. now destruct Hori.
Qed.

(** C6, amended. An orientation array is checked where a pass handles a
    non-empty enumeration: of the top dimension in a part of the main
    component (element pass), of dimension [dim-1] in a part of the boundary
    component that reports entities (boundary pass), of a type with DOFs in
    the node space the conversion builds, in a part of the main component
    (scatter).  With such an enumeration [FmsMeshToMesh] does not succeed:
    when it returns, the code is nonzero, and heap and output cell are those
    of the call.  With the array on entities of the top dimension and no tag
    on the main component it does return, with a code from 2 to 5.  The step
    that meets the array leaves with 4, 7 or 16, by the pass, when the ids
    are of a supported type.  No pass looks at an orientation array
    elsewhere: when every array of the main component is on an empty
    enumeration or on entities below the top dimension without DOFs in the
    node space built, and every array of the boundary component is on an
    empty enumeration or on entities of another dimension than [dim-1] (or
    the component reports no entities), the call does what it does on the
    mesh without any orientation array, whatever the arrays of the other
    components. *)
Theorem orientation_flags_rejected_where_checked
    K fms heap out main_id main_comp coords bdr :
  find_main_comp (fms_comps fms) 0 = Some (main_id, main_comp, coords) ->
  find_bdr_comp (fms_comps fms) (comp_dim main_comp) (comp_relations main_comp)
    = Ok bdr ->
  (forall part et,
     is_Some (pe_ents_ori (part et)) ->
     pe_num_ents (part et) <> 0 ->
     (In part (comp_parts main_comp) /\ FmsEntityDim et = comp_dim main_comp) \/
     (exists bdr_id bdr_comp,
        bdr = Some (bdr_id, bdr_comp) /\ 0 < comp_num_entities bdr_comp /\
        In part (comp_parts bdr_comp) /\
        FmsEntityDim et = FmsInt_sub (comp_dim main_comp) 1) \/
     (In part (comp_parts main_comp) /\
      dofs_in_built_space K fms main_id main_comp coords bdr et
        (fun n => n <> 0)) ->
     ((exists err, err <> 0 /\ FmsMeshToMesh K fms heap out = Returned err heap out) \/
      FmsMeshToMesh K fms heap out = Undefined) /\
     (In part (comp_parts main_comp) -> FmsEntityDim et = comp_dim main_comp ->
      (forall t, In t (fms_tags fms) -> tag_comp t <> main_id) ->
      exists err, 2 <= err <= 5 /\
        FmsMeshToMesh K fms heap out = Returned err heap out) /\
     (ids_unsupported (part et) = false ->
      (forall attr mesh,
         FmsEntityDim et = comp_dim main_comp ->
         add_elements_step (comp_dim main_comp) attr part et mesh = Exit 4) /\
      (forall attr mesh,
         FmsEntityDim et = FmsInt_sub (comp_dim main_comp) 1 ->
         add_bdr_elements_step (comp_dim main_comp) attr part et mesh = Exit 7) /\
      (forall fes data nstride vstride edges faces mfem_edge mfem_face st,
         ent_dofs fes et <> 0 ->
         scatter_step fes data nstride vstride (comp_dim main_comp) edges faces
           mfem_edge mfem_face part et st = Exit 16))) /\
  (orientation_unchecked K fms main_id main_comp coords bdr ->
   FmsMeshToMesh K fms heap out = FmsMeshToMesh K (erase_ori fms) heap out) /\
  ~ has_orientation_flags (erase_ori fms).
Proof.
  intros Hmain Hbdr.
  split; [|split; [now apply FmsMeshToMesh_erase|apply erase_ori_no_flags]].
  intros part et Hori Hnum Hwhere. split; [|split].
  - destruct (FmsMeshToMesh_cases K fms heap out)
      as [(m & Hconv & _)|[(err & Herr & _ & Heq)|[_ Heq]]].
    + exfalso. destruct Hconv as (i & c & f & b & Ha & Hb & Hbuild).
      rewrite Hmain in Ha. injection Ha as <- <- <-.
      rewrite Hbdr in Hb. injection Hb as <-.
      revert Hbuild. apply (build_mesh_stuck K fms _ _ _ _ part et).
      destruct Hwhere
        as [[Hpart Hdim]|[(bdr_id & bdr_comp & Hb & Hn & Hpart & Hdim)|[Hpart Hdofs]]].
      * left. split; [exact Hpart|]. intros attr s s'.
        now apply add_elements_step_flagged.
      * right; left. exists bdr_id, bdr_comp.
        split; [exact Hb|]. split; [exact Hn|]. split; [exact Hpart|].
        intros attr s s'. now apply add_bdr_elements_step_flagged.
      * right; right. split; [exact Hpart|]. intros mesh1 Htopo.
        intros data ns vs edges faces me mf s s'.
        exact (proj1 (scatter_step_flagged _ data ns vs _ edges faces me mf
                        part et s (Hdofs mesh1 Htopo) Hnum Hori) s').
    + left. exists err. unfold nonzero in Herr. split; [lia|exact Heq].
    + right. exact Heq.
  - intros Hpart Hdim Hnotag.
    unfold FmsMeshToMesh. rewrite Hmain, Hbdr. unfold build_mesh, build_topology.
    pose proof (select_tags_fst (fms_tags fms) main_id (fst <$> bdr)) as Hfst.
    rewrite find_none_iff in Hfst by (intros t Ht; apply Z.eqb_neq; auto).
    destruct (select_tags _ _ _) as [elem_tag bdr_tag]. simpl in Hfst. subst elem_tag.
    cbn [attributes_of bind].
    destruct (attributes_of bdr_tag 2) as [bdr_attr|e|] eqn:Hbattr; cbn [bind].
    + pose proof (add_elements_untagged_defined (comp_dim main_comp)
                    (comp_parts main_comp)
                    (new_Mesh (comp_dim main_comp)
                       (count_ents (comp_parts main_comp) FMS_VERTEX)
                       (comp_num_entities main_comp) (n_bdr_elem_of bdr)
                       (fld_num_vec_comp coords))) as Hdef.
      destruct (add_elements _ _ _ _) as [m1|e|] eqn:Hel; [| |contradiction].
      * exfalso. revert Hel.
        apply nested_loop_stuck with (part := part) (et := et); [exact Hpart|].
        intros s s'. now apply add_elements_step_flagged.
      * cbn [bind]. exists e. rewrite heap_alloc_delete. split; [|reflexivity].
        pose proof (exits_add_elements_codes _ _ _ _ _ Hel) as Hcode.
        simpl in Hcode. lia.
    + exists e. rewrite heap_alloc_delete. split; [|reflexivity].
      destruct bdr_tag as [tag|]; [|discriminate]. simpl in Hbattr.
      unfold tag_attributes in Hbattr.
      destruct (tag_type tag); simpl in Hbattr; try discriminate;
        injection Hbattr as <-; lia.
    + destruct bdr_tag as [tag|]; [|discriminate]. simpl in Hbattr.
      unfold tag_attributes in Hbattr.
      destruct (tag_type tag); simpl in Hbattr; discriminate.
  - intros Hids. split; [|split].
    + intros attr mesh Hdim. now apply add_elements_step_flagged.
    + intros attr mesh Hdim. now apply add_bdr_elements_step_flagged.
    + intros fes data nstride vstride edges faces mfem_edge mfem_face st Hdofs.
      now apply scatter_step_flagged.
Qed.

Lemma orientation_flags_rejected_where_checked_witness :
  let part := Examples.tri_part (Some [0; 0; 0]) in
  (exists main_comp coords bdr,
     find_main_comp (fms_comps ExampleCalls.oriented_quadratic_triangle) 0
       = Some (0, main_comp, coords) /\
     find_bdr_comp (fms_comps ExampleCalls.oriented_quadratic_triangle)
       (comp_dim main_comp) (comp_relations main_comp) = Ok bdr /\
     is_Some (pe_ents_ori (part FMS_EDGE)) /\
     pe_num_ents (part FMS_EDGE) <> 0 /\
     In part (comp_parts main_comp) /\
     dofs_in_built_space Examples.plane_kernel
       ExampleCalls.oriented_quadratic_triangle 0 main_comp coords bdr FMS_EDGE
       (fun n => n <> 0) /\
     FmsMeshToMesh Examples.plane_kernel ExampleCalls.oriented_quadratic_triangle
       ExampleCalls.old_heap (Some 7%nat)
       = Returned 16 ExampleCalls.old_heap (Some 7%nat) /\
     ((exists err, err <> 0 /\
         FmsMeshToMesh Examples.plane_kernel ExampleCalls.oriented_quadratic_triangle
           ExampleCalls.old_heap (Some 7%nat)
         = Returned err ExampleCalls.old_heap (Some 7%nat)) \/
      FmsMeshToMesh Examples.plane_kernel ExampleCalls.oriented_quadratic_triangle
        ExampleCalls.old_heap (Some 7%nat) = Undefined)) /\
  (exists main_comp coords bdr heap' out',
     find_main_comp (fms_comps ExampleCalls.oriented_linear_triangle) 0
       = Some (0, main_comp, coords) /\
     find_bdr_comp (fms_comps ExampleCalls.oriented_linear_triangle)
       (comp_dim main_comp) (comp_relations main_comp) = Ok bdr /\
     has_orientation_flags ExampleCalls.oriented_linear_triangle /\
     orientation_unchecked Examples.plane_kernel
       ExampleCalls.oriented_linear_triangle 0 main_comp coords bdr /\
     FmsMeshToMesh Examples.plane_kernel
       (erase_ori ExampleCalls.oriented_linear_triangle)
       ExampleCalls.old_heap (Some 7%nat) = Returned 0 heap' out' /\
     FmsMeshToMesh Examples.plane_kernel ExampleCalls.oriented_linear_triangle
       ExampleCalls.old_heap (Some 7%nat)
     = FmsMeshToMesh Examples.plane_kernel
         (erase_ori ExampleCalls.oriented_linear_triangle)
         ExampleCalls.old_heap (Some 7%nat)).
Proof.
  intros part.
  pose (bdr_comp := {| comp_coords := None; comp_dim := 1; comp_num_entities := 3;
                       comp_parts := [Examples.bdr_part]; comp_relations := [] |}).
  split.
  - pose (coords := Examples.tri_coords 2 ExampleCalls.vertex_edge_data).
    pose (main_comp := {| comp_coords := Some coords; comp_dim := 2;
                          comp_num_entities := 1; comp_parts := [part];
                          comp_relations := [1] |}).
    exists main_comp, coords, (Some (1, bdr_comp)).
    split; [reflexivity|]. split; [reflexivity|].
    assert (Hori : is_Some (pe_ents_ori (part FMS_EDGE))) by (simpl; eauto).
    assert (Hnum : pe_num_ents (part FMS_EDGE) <> 0) by (vm_compute; discriminate).
    assert (Hdofs : dofs_in_built_space Examples.plane_kernel
                      ExampleCalls.oriented_quadratic_triangle 0 main_comp
                      coords (Some (1, bdr_comp)) FMS_EDGE (fun n => n <> 0))
      by (intros mesh1 _; simpl; discriminate).
    split; [exact Hori|]. split; [exact Hnum|].
    split; [left; reflexivity|]. split; [exact Hdofs|].
    split; [vm_compute; reflexivity|].
    exact (proj1
      (proj1
         (orientation_flags_rejected_where_checked Examples.plane_kernel
            ExampleCalls.oriented_quadratic_triangle ExampleCalls.old_heap
            (Some 7%nat) 0 main_comp coords (Some (1, bdr_comp))
            eq_refl eq_refl)
         part FMS_EDGE Hori Hnum
         (or_intror (or_intror (conj (or_introl eq_refl) Hdofs))))).
  - pose (coords := Examples.tri_coords 1 ExampleCalls.vertex_data).
    pose (main_comp := {| comp_coords := Some coords; comp_dim := 2;
                          comp_num_entities := 1; comp_parts := [part];
                          comp_relations := [1] |}).
    exists main_comp, coords, (Some (1, bdr_comp)). eexists _, _.
    split; [reflexivity|]. split; [reflexivity|].
    split.
    { exists main_comp, part, FMS_EDGE.
      split; [left; reflexivity|]. split; [left; reflexivity|]. simpl. eauto. }
    assert (Hun : orientation_unchecked Examples.plane_kernel
                    ExampleCalls.oriented_linear_triangle 0 main_comp coords
                    (Some (1, bdr_comp))).
    { split.
      - intros p et [<-|[]] Hori. right.
        destruct et; try (exfalso; destruct Hori as [x Hx]; discriminate Hx).
        split; [discriminate|]. intros mesh1 _. reflexivity.
      - intros bdr_id bc p et [= <- <-] _ [<-|[]] Hori.
        exfalso. destruct et; destruct Hori as [x Hx]; discriminate Hx. }
    split; [exact Hun|]. split; [vm_compute; reflexivity|].
    exact (proj1 (proj2
      (orientation_flags_rejected_where_checked Examples.plane_kernel
         ExampleCalls.oriented_linear_triangle ExampleCalls.old_heap
         (Some 7%nat) 0 main_comp coords (Some (1, bdr_comp))
         eq_refl eq_refl)) Hun).
Defined.

(** * Further properties of the conversion *)

(** ** Return codes *)

(** X1. A call that returns does so with a code from 0 to 19. *)
Theorem FmsMeshToMesh_code_range K fms heap out ret heap' out' :
  FmsMeshToMesh K fms heap out = Returned ret heap' out' ->
  0 <= ret <= 19.
Proof.
  intros Hcall.
  destruct (FmsMeshToMesh_cases K fms heap out)
    as [(m & _ & Heq)|[(err & Herr & _ & Heq)|[_ Heq]]];
    rewrite Heq in Hcall; [| |discriminate]; injection Hcall as <- _ _.
  - lia.
  - unfold nonzero in Herr. lia.
Qed.

Lemma FmsMeshToMesh_code_range_witness :
  FmsMeshToMesh Examples.plane_kernel ExampleCalls.oriented_quadratic_triangle
    ExampleCalls.old_heap (Some 7%nat)
    = Returned 16 ExampleCalls.old_heap (Some 7%nat) /\
  0 <= 16 <= 19.
Proof.
  assert (H : FmsMeshToMesh Examples.plane_kernel
                ExampleCalls.oriented_quadratic_triangle
                ExampleCalls.old_heap (Some 7%nat)
              = Returned 16 ExampleCalls.old_heap (Some 7%nat))
    by (vm_compute; reflexivity).
  split; [exact H|].
  exact (FmsMeshToMesh_code_range _ _ _ _ _ _ _ H).
Defined.

(** ** The main component *)

Lemma find_main_comp_spec comps :
  forall start,
    match find_main_comp comps start with
    | None => forall comp, In comp comps -> comp_coords comp = None
    | Some (main_id, main_comp, coords) =>
        start <= main_id /\
        comps !! Z.to_nat (main_id - start) = Some main_comp /\
        comp_coords main_comp = Some coords /\
        forall (j : nat) comp,
          (j < Z.to_nat (main_id - start))%nat -> comps !! j = Some comp ->
          comp_coords comp = None
    end.
Proof.
  induction comps as [|c comps IH]; intros start; simpl.
  - intros comp [].
  - destruct (comp_coords c) as [coords|] eqn:Hc.
    + split; [lia|]. rewrite Z.sub_diag. simpl.
      split; [reflexivity|]. split; [exact Hc|]. intros j comp Hj. lia.
    + specialize (IH (start + 1)).
      destruct (find_main_comp comps (start + 1)) as [[[i mc] f]|].
      * destruct IH as (Hle & Hl & Hco & Hmin).
        replace (Z.to_nat (i - start)) with (S (Z.to_nat (i - (start + 1)))) by lia.
        split; [lia|]. split; [exact Hl|]. split; [exact Hco|].
        intros [|j] comp Hj Hcomp; simpl in Hcomp.
        -- congruence.
        -- apply (Hmin j comp); [lia|exact Hcomp].
      * intros comp [<-|Hin]; auto.
Qed.

(** X2. The main component is the first component, in the order of the
    mesh, that has coordinates; when no component has coordinates
    [FmsMeshToMesh] returns 1 at once, leaving heap and output cell as they
    were, whatever the tags, parts and relations of the mesh are. *)
Theorem main_component_first_with_coordinates K fms heap out :
  match find_main_comp (fms_comps fms) 0 with
  | Some (main_id, main_comp, coords) =>
      0 <= main_id /\
      fms_comps fms !! Z.to_nat main_id = Some main_comp /\
      comp_coords main_comp = Some coords /\
      forall (j : nat) comp,
        (j < Z.to_nat main_id)%nat -> fms_comps fms !! j = Some comp ->
        comp_coords comp = None
  | None =>
      (forall comp, In comp (fms_comps fms) -> comp_coords comp = None) /\
      FmsMeshToMesh K fms heap out = Returned 1 heap out
  end.
Proof.
  pose proof (find_main_comp_spec (fms_comps fms) 0) as Hspec.
  unfold FmsMeshToMesh.
  destruct (find_main_comp (fms_comps fms) 0) as [[[i mc] f]|].
  - now rewrite Z.sub_0_r in Hspec.
  - split; [exact Hspec|reflexivity].
Qed.

(** ** The types of the tags *)

Lemma tag_attributes_supported tag err :
  tag_attributes tag err =
    if supported_tag_type (tag_type tag)
    then Ok (match tag_type tag with
             | FMS_UINT8 => tag_data tag
             | _ => map as_int32 (tag_data tag)
             end)
    else Exit err.
Proof. unfold tag_attributes. destruct (tag_type tag); reflexivity. Qed.

(** X3. The tags selected decide the first two codes.  When the first
    tag attached to the main component has a type other than 8-bit unsigned
    or 32-bit, [FmsMeshToMesh] returns 1 (the code of a mesh without
    coordinates as well); when that tag is absent or supported and the first
    tag attached to the boundary component has such a type, it returns 2.
    Either way heap and output cell are those of the call. *)
Theorem unsupported_tag_type_codes K fms heap out main_id main_comp coords bdr :
  find_main_comp (fms_comps fms) 0 = Some (main_id, main_comp, coords) ->
  find_bdr_comp (fms_comps fms) (comp_dim main_comp) (comp_relations main_comp)
    = Ok bdr ->
  let on_main := fun t => tag_comp t =? main_id in
  let on_bdr := fun t => is_bdr_comp (fst <$> bdr) (tag_comp t) in
  (forall tag,
     find on_main (fms_tags fms) = Some tag ->
     supported_tag_type (tag_type tag) = false ->
     FmsMeshToMesh K fms heap out = Returned 1 heap out) /\
  (forall tag,
     (forall t, find on_main (fms_tags fms) = Some t ->
                supported_tag_type (tag_type t) = true) ->
     find on_bdr (fms_tags fms) = Some tag ->
     supported_tag_type (tag_type tag) = false ->
     FmsMeshToMesh K fms heap out = Returned 2 heap out).
Proof.
  intros Hmain Hbdr on_main on_bdr.
  pose proof (select_tags_fst (fms_tags fms) main_id (fst <$> bdr)) as Hfst.
  pose proof (select_tags_snd (fms_tags fms) main_id (fst <$> bdr)
                (bdr_is_not_main _ _ _ _ _ Hmain Hbdr)) as Hsnd.
  fold on_main in Hfst. fold on_bdr in Hsnd.
  split.
  - intros tag Htag Hty. unfold FmsMeshToMesh. rewrite Hmain, Hbdr.
    unfold build_mesh, build_topology.
    destruct (select_tags _ _ _) as [elem_tag bdr_tag]. simpl in Hfst.
    rewrite Hfst, Htag. cbn [attributes_of].
    rewrite tag_attributes_supported, Hty. cbn [bind].
    now rewrite heap_alloc_delete.
  - intros tag Hel Htag Hty. unfold FmsMeshToMesh. rewrite Hmain, Hbdr.
    unfold build_mesh, build_topology.
    destruct (select_tags _ _ _) as [elem_tag bdr_tag]. simpl in Hfst, Hsnd.
    rewrite Hfst, Hsnd, Htag.
    destruct (find on_main (fms_tags fms)) as [t|]; cbn [attributes_of].
    + rewrite tag_attributes_supported, (Hel t eq_refl). cbn [bind].
      rewrite tag_attributes_supported, Hty. cbn [bind].
      now rewrite heap_alloc_delete.
    + cbn [bind]. rewrite tag_attributes_supported, Hty. cbn [bind].
      now rewrite heap_alloc_delete.
Qed.

Lemma unsupported_tag_type_codes_witness :
  exists main_comp coords bdr,
    find_main_comp (fms_comps MoreExamples.wide_tagged_triangle) 0
      = Some (0, main_comp, coords) /\
    find_bdr_comp (fms_comps MoreExamples.wide_tagged_triangle)
      (comp_dim main_comp) (comp_relations main_comp) = Ok bdr /\
    find (fun t => tag_comp t =? 0) (fms_tags MoreExamples.wide_tagged_triangle)
      = Some MoreExamples.wide_tag /\
    supported_tag_type (tag_type MoreExamples.wide_tag) = false /\
    FmsMeshToMesh Examples.plane_kernel MoreExamples.wide_tagged_triangle
      ExampleCalls.old_heap (Some 7%nat)
      = Returned 1 ExampleCalls.old_heap (Some 7%nat).
Proof.
  eexists _, _, _.
  split; [vm_compute; reflexivity|].
  split; [vm_compute; reflexivity|].
  split; [reflexivity|]. split; [reflexivity|].
  exact (proj1
    (unsupported_tag_type_codes Examples.plane_kernel
       MoreExamples.wide_tagged_triangle ExampleCalls.old_heap (Some 7%nat)
       0 _ _ _ ltac:(vm_compute; reflexivity) ltac:(vm_compute; reflexivity))
    MoreExamples.wide_tag eq_refl eq_refl).
Defined.

(** ** The checks of the coordinate field *)

(** X4. Once the topology is built, the field is checked in a fixed
    order and the first check that fails gives the code: 8 when the data is
    not [double], 9 when the descriptor is not of fixed order, 10 when the
    field is not continuous, 11 when the basis is not the closed nodal
    Gauss one, 12 when the size of the node array of the curved mesh differs
    from the number of DOFs times the vector dimension (as 64-bit unsigned
    integers).  Heap and output cell are those of the call. *)
Theorem field_checks_in_order
    K fms heap out main_id main_comp coords bdr mesh1 :
  find_main_comp (fms_comps fms) 0 = Some (main_id, main_comp, coords) ->
  find_bdr_comp (fms_comps fms) (comp_dim main_comp) (comp_relations main_comp)
    = Ok bdr ->
  build_topology fms main_id main_comp bdr
    (new_Mesh (comp_dim main_comp) (count_ents (comp_parts main_comp) FMS_VERTEX)
       (comp_num_entities main_comp) (n_bdr_elem_of bdr) (fld_num_vec_comp coords))
    = Ok mesh1 ->
  let fd := fld_fd coords in
  let fes :=
    nodes_space K
      (Nat.iter (Z.to_nat (count_ents (comp_parts main_comp) FMS_VERTEX))
         (AddVertex origin) mesh1)
      (fd_order fd) (fld_num_vec_comp coords)
      (if is_by_vdim (fld_layout coords) then Ordering.byVDIM
       else Ordering.byNODES) in
  (is_double (fld_data_type coords) = false ->
   FmsMeshToMesh K fms heap out = Returned 8 heap out) /\
  (is_double (fld_data_type coords) = true ->
   is_fixed_order (fd_type fd) = false ->
   FmsMeshToMesh K fms heap out = Returned 9 heap out) /\
  (is_double (fld_data_type coords) = true ->
   is_fixed_order (fd_type fd) = true ->
   is_continuous (fd_field_type fd) = false ->
   FmsMeshToMesh K fms heap out = Returned 10 heap out) /\
  (is_double (fld_data_type coords) = true ->
   is_fixed_order (fd_type fd) = true ->
   is_continuous (fd_field_type fd) = true ->
   is_nodal_gauss_closed (fd_basis_type fd) = false ->
   FmsMeshToMesh K fms heap out = Returned 11 heap out) /\
  (is_double (fld_data_type coords) = true ->
   is_fixed_order (fd_type fd) = true ->
   is_continuous (fd_field_type fd) = true ->
   is_nodal_gauss_closed (fd_basis_type fd) = true ->
   FmsInt_wrap (nodes_Size fes) <> FmsInt_mul (fd_num_dofs fd) (fld_num_vec_comp coords) ->
   FmsMeshToMesh K fms heap out = Returned 12 heap out).
Proof.
  intros Hmain Hbdr Htopo fd fes.
  assert (Hcall : forall err,
            finalize_mesh K coords (count_ents (comp_parts main_comp) FMS_VERTEX)
              (fld_num_vec_comp coords) mesh1 = Exit err ->
            FmsMeshToMesh K fms heap out = Returned err heap out).
  { intros err Herr. unfold FmsMeshToMesh. rewrite Hmain, Hbdr.
    unfold build_mesh. rewrite Htopo. cbn [bind].
    unfold transfer_coordinates. rewrite Herr. cbn [bind].
    now rewrite heap_alloc_delete. }
  repeat split; intros; apply Hcall; unfold finalize_mesh, guard;
    fold fd; repeat match goal with H : _ = true |- _ => rewrite H end;
    repeat match goal with H : _ = false |- _ => rewrite H end;
    cbn [bind]; try reflexivity.
  fold fes. destruct (Z.eqb_spec (FmsInt_wrap (nodes_Size fes))
                        (FmsInt_mul (fd_num_dofs fd) (fld_num_vec_comp coords)));
    [contradiction|reflexivity].
Qed.

Lemma field_checks_in_order_witness :
  exists main_comp coords bdr mesh1,
    find_main_comp (fms_comps MoreExamples.discontinuous_triangle) 0
      = Some (0, main_comp, coords) /\
    find_bdr_comp (fms_comps MoreExamples.discontinuous_triangle)
      (comp_dim main_comp) (comp_relations main_comp) = Ok bdr /\
    build_topology MoreExamples.discontinuous_triangle 0 main_comp bdr
      (new_Mesh (comp_dim main_comp) (count_ents (comp_parts main_comp) FMS_VERTEX)
         (comp_num_entities main_comp) (n_bdr_elem_of bdr) (fld_num_vec_comp coords))
      = Ok mesh1 /\
    is_continuous (fd_field_type (fld_fd coords)) = false /\
    FmsMeshToMesh Examples.plane_kernel MoreExamples.discontinuous_triangle
      ExampleCalls.old_heap (Some 7%nat)
      = Returned 10 ExampleCalls.old_heap (Some 7%nat).
Proof.
  eexists _, _, _, _.
  split; [vm_compute; reflexivity|].
  split; [vm_compute; reflexivity|].
  split; [vm_compute; reflexivity|].
  split; [reflexivity|].
  exact (proj1 (proj2 (proj2
    (field_checks_in_order Examples.plane_kernel
       MoreExamples.discontinuous_triangle ExampleCalls.old_heap (Some 7%nat)
       0 _ _ _ _ ltac:(vm_compute; reflexivity) ltac:(vm_compute; reflexivity)
       ltac:(vm_compute; reflexivity)))) eq_refl eq_refl eq_refl).
Defined.

(** ** The elements and the boundary elements built *)

(** X5. The elements of a converted mesh are the entities of the
    dimension of the main component, of triangle, quadrilateral,
    tetrahedron or hexahedron type: one element per entity, with the
    geometry of its type and the vertices the domain lists for it, part
    after part, in each part type after type, of each type in the order of
    the enumeration. *)
Theorem elements_are_the_top_dimension_entities K fms heap out heap' out' :
  FmsMeshToMesh K fms heap out = Returned 0 heap' out' ->
  exists mesh m main_id main_comp coords,
    out' = Some mesh /\ heap' !! mesh = Some m /\
    find_main_comp (fms_comps fms) 0 = Some (main_id, main_comp, coords) /\
    shape <$> elements m
      = entities_as_elements
          (fun et => is_element_type et && (FmsEntityDim et =? comp_dim main_comp))
          (comp_parts main_comp).
Proof.
  intros Hcall.
  destruct (FmsMeshToMesh_success_inv _ _ _ _ _ _ Hcall)
    as (main_id & main_comp & coords & bdr & m & Hmain & Hbdr & Hbuild & _ & -> & Hm).
  exists (fresh (dom heap)), m, main_id, main_comp, coords.
  split; [reflexivity|]. split; [exact Hm|]. split; [exact Hmain|].
  eapply build_mesh_shapes; [| |exact Hbuild]; reflexivity.
Qed.

Lemma elements_are_the_top_dimension_entities_witness :
  exists heap' out',
    FmsMeshToMesh Examples.plane_kernel ExampleCalls.linear_triangle
      ExampleCalls.old_heap None = Returned 0 heap' out' /\
    exists mesh m main_id main_comp coords,
      out' = Some mesh /\ heap' !! mesh = Some m /\
      find_main_comp (fms_comps ExampleCalls.linear_triangle) 0
        = Some (main_id, main_comp, coords) /\
      shape <$> elements m
        = entities_as_elements
            (fun et => is_element_type et && (FmsEntityDim et =? comp_dim main_comp))
            (comp_parts main_comp).
Proof.
  eexists _, _. split; [vm_compute; reflexivity|].
  apply (elements_are_the_top_dimension_entities Examples.plane_kernel
           ExampleCalls.linear_triangle ExampleCalls.old_heap None).
  vm_compute; reflexivity.
Defined.

(** X6. The boundary elements of a converted mesh are the entities of
    the first related component of dimension [dim-1], of dimension [dim-1]
    and of edge, triangle or quadrilateral type, in the order of parts,
    types and enumeration; there is none when no related component has
    that dimension or when the one selected reports no entities. *)
Theorem boundary_is_the_first_related_component K fms heap out heap' out' :
  FmsMeshToMesh K fms heap out = Returned 0 heap' out' ->
  exists mesh m main_id main_comp coords bdr,
    out' = Some mesh /\ heap' !! mesh = Some m /\
    find_main_comp (fms_comps fms) 0 = Some (main_id, main_comp, coords) /\
    find_bdr_comp (fms_comps fms) (comp_dim main_comp) (comp_relations main_comp)
      = Ok bdr /\
    shape <$> boundary m
      = match bdr with
        | Some (_, comp) =>
            if 0 <? comp_num_entities comp
            then entities_as_elements
                   (fun et => is_bdr_element_type et
                              && (FmsEntityDim et =? FmsInt_sub (comp_dim main_comp) 1))
                   (comp_parts comp)
            else []
        | None => []
        end.
Proof.
  intros Hcall.
  destruct (FmsMeshToMesh_success_inv _ _ _ _ _ _ Hcall)
    as (main_id & main_comp & coords & bdr & m & Hmain & Hbdr & Hbuild & _ & -> & Hm).
  exists (fresh (dom heap)), m, main_id, main_comp, coords, bdr.
  split; [reflexivity|]. split; [exact Hm|]. split; [exact Hmain|].
  split; [exact Hbdr|].
  eapply build_mesh_shapes; [| |exact Hbuild]; reflexivity.
Qed.

Lemma boundary_is_the_first_related_component_witness :
  exists heap' out',
    FmsMeshToMesh Examples.plane_kernel ExampleCalls.linear_triangle
      ExampleCalls.old_heap None = Returned 0 heap' out' /\
    exists mesh m main_id main_comp coords bdr,
      out' = Some mesh /\ heap' !! mesh = Some m /\
      find_main_comp (fms_comps ExampleCalls.linear_triangle) 0
        = Some (main_id, main_comp, coords) /\
      find_bdr_comp (fms_comps ExampleCalls.linear_triangle) (comp_dim main_comp)
        (comp_relations main_comp) = Ok bdr /\
      shape <$> boundary m
        = match bdr with
          | Some (_, comp) =>
              if 0 <? comp_num_entities comp
              then entities_as_elements
                     (fun et => is_bdr_element_type et
                                && (FmsEntityDim et =? FmsInt_sub (comp_dim main_comp) 1))
                     (comp_parts comp)
              else []
          | None => []
          end.
Proof.
  eexists _, _. split; [vm_compute; reflexivity|].
  apply (boundary_is_the_first_related_component Examples.plane_kernel
           ExampleCalls.linear_triangle ExampleCalls.old_heap None).
  vm_compute; reflexivity.
Defined.

(** ** The boundary component *)

Lemma find_bdr_comp_spec comps dim rels :
  match find_bdr_comp comps dim rels with
  | Ok (Some (id, comp)) =>
      exists k : nat,
        rels !! k = Some id /\ rd comps id = Ok comp /\
        comp_dim comp = FmsInt_sub dim 1 /\
        forall (j : nat) id', (j < k)%nat -> rels !! j = Some id' ->
          exists c, rd comps id' = Ok c /\ comp_dim c <> FmsInt_sub dim 1
  | Ok None =>
      forall (j : nat) id', rels !! j = Some id' ->
        exists c, rd comps id' = Ok c /\ comp_dim c <> FmsInt_sub dim 1
  | Exit _ => False
  | Undef =>
      exists (k : nat) id,
        rels !! k = Some id /\ rd comps id = Undef /\
        forall (j : nat) id', (j < k)%nat -> rels !! j = Some id' ->
          exists c, rd comps id' = Ok c /\ comp_dim c <> FmsInt_sub dim 1
  end.
Proof.
  induction rels as [|id rels IH]; simpl.
  - intros j id' H. discriminate.
  - destruct (rd comps id) as [comp|e|] eqn:Hrd; simpl.
    + destruct (Z.eqb_spec (comp_dim comp) (FmsInt_sub dim 1)) as [Hd|Hd].
      * exists 0%nat. repeat split; auto. intros j id' Hj. lia.
      * destruct (find_bdr_comp comps dim rels) as [[[id1 comp1]|]|e|].
        -- destruct IH as (k & Hk & Hc & Hdim & Hbefore).
           exists (S k). repeat split; auto.
           intros [|j] id' Hj Hlk; simpl in Hlk.
           ++ injection Hlk as <-. eauto.
           ++ apply (Hbefore j); [lia|exact Hlk].
        -- intros [|j] id' Hlk; simpl in Hlk.
           ++ injection Hlk as <-. eauto.
           ++ apply (IH j); exact Hlk.
        -- exact IH.
        -- destruct IH as (k & id1 & Hk & Hc & Hbefore).
           exists (S k), id1. repeat split; auto.
           intros [|j] id' Hj Hlk; simpl in Hlk.
           ++ injection Hlk as <-. eauto.
           ++ apply (Hbefore j); [lia|exact Hlk].
    + unfold rd in Hrd. destruct (id <? 0); [discriminate|].
      destruct (comps !! Z.to_nat id); discriminate.
    + exists 0%nat, id. repeat split; auto. intros j id' Hj. lia.
Qed.

(** X7. The boundary component is the first component, in the order of
    the relations of the main component, whose dimension is [dim-1]
    (computed in unsigned 64-bit arithmetic): every related component
    before it has another dimension; when none has that dimension no
    component is selected.  The search never leaves through the exit with
    a code; a related id met in the search that names no component of the
    mesh leaves the call without defined behaviour. *)
Theorem boundary_component_first_of_dimension
    K fms heap out main_id main_comp coords :
  find_main_comp (fms_comps fms) 0 = Some (main_id, main_comp, coords) ->
  let comps := fms_comps fms in
  let rels := comp_relations main_comp in
  let d := FmsInt_sub (comp_dim main_comp) 1 in
  match find_bdr_comp comps (comp_dim main_comp) rels with
  | Ok (Some (id, comp)) =>
      exists k : nat,
        rels !! k = Some id /\ rd comps id = Ok comp /\ comp_dim comp = d /\
        forall (j : nat) id', (j < k)%nat -> rels !! j = Some id' ->
          exists c, rd comps id' = Ok c /\ comp_dim c <> d
  | Ok None =>
      forall (j : nat) id', rels !! j = Some id' ->
        exists c, rd comps id' = Ok c /\ comp_dim c <> d
  | Exit _ => False
  | Undef =>
      FmsMeshToMesh K fms heap out = Undefined /\
      exists (k : nat) id,
        rels !! k = Some id /\ rd comps id = Undef /\
        forall (j : nat) id', (j < k)%nat -> rels !! j = Some id' ->
          exists c, rd comps id' = Ok c /\ comp_dim c <> d
  end.
Proof.
  intros Hmain comps rels d. subst comps rels d.
  pose proof (find_bdr_comp_spec (fms_comps fms) (comp_dim main_comp)
                (comp_relations main_comp)) as Hspec.
  destruct (find_bdr_comp (fms_comps fms) (comp_dim main_comp)
              (comp_relations main_comp))
    as [[[id comp]|]|e|] eqn:Hbdr; try exact Hspec.
  split; [|exact Hspec].
  unfold FmsMeshToMesh. now rewrite Hmain, Hbdr.
Qed.

Lemma boundary_component_first_of_dimension_witness :
  exists main_comp coords,
    find_main_comp (fms_comps ExampleCalls.linear_triangle) 0
      = Some (0, main_comp, coords) /\
    exists id comp,
      find_bdr_comp (fms_comps ExampleCalls.linear_triangle)
        (comp_dim main_comp) (comp_relations main_comp) = Ok (Some (id, comp)) /\
      exists k : nat,
        comp_relations main_comp !! k = Some id /\
        rd (fms_comps ExampleCalls.linear_triangle) id = Ok comp /\
        comp_dim comp = FmsInt_sub (comp_dim main_comp) 1 /\
        forall (j : nat) id', (j < k)%nat ->
          comp_relations main_comp !! j = Some id' ->
          exists c, rd (fms_comps ExampleCalls.linear_triangle) id' = Ok c /\
                    comp_dim c <> FmsInt_sub (comp_dim main_comp) 1.
Proof.
  eexists _, _. split; [vm_compute; reflexivity|].
  eexists _, _. split; [vm_compute; reflexivity|].
  exact (boundary_component_first_of_dimension Examples.plane_kernel
           ExampleCalls.linear_triangle ExampleCalls.empty_heap None
           0 _ _ eq_refl).
Defined.

(** ** The collection *)

(** X8. Whenever [FmsDataCollectionToDataCollection] returns, it
    returns 1, and what the caller had is kept: every mesh of the heap and
    every collection is still there, unchanged.  A collection that is new
    is the one the output cell names; it has the fixed name and its mesh is
    a mesh that was not in the heap before, the conversion of the mesh of
    the source collection. *)
Theorem FmsDataCollectionToDataCollection_frame
    K dc heap objects mfem_dc r :
  FmsDataCollectionToDataCollection K dc heap objects mfem_dc = Some r ->
  retval r = 1 /\
  heap ⊆ dc_heap r /\
  objects ⊆ dc_objects r /\
  forall d c,
    dc_objects r !! d = Some c -> objects !! d = None ->
    dc_out r = Some d /\ dc_name c = collection_name /\
    exists mesh m,
      dc_mesh c = Some mesh /\ dc_heap r !! mesh = Some m /\
      heap !! mesh = None /\ converts K (fdc_mesh dc) m.
Proof.
  unfold FmsDataCollectionToDataCollection.
  destruct (FmsMeshToMesh_cases K (fdc_mesh dc) heap None)
    as [(m & Hm & ->)|[(err & Herr & Hno & ->)|[Hno ->]]]; [| |discriminate].
  - simpl. intros [= <-]. simpl.
    assert (Hfresh : heap !! fresh (dom heap) = None)
      by apply not_elem_of_dom, is_fresh.
    assert (Hfresh' : objects !! fresh (dom objects) = None)
      by apply not_elem_of_dom, is_fresh.
    split; [reflexivity|]. split; [now apply insert_subseteq|].
    split; [now apply insert_subseteq|].
    intros d c Hd Hold.
    destruct (decide (d = fresh (dom objects))) as [->|Hne].
    + rewrite lookup_insert_eq in Hd. injection Hd as <-. simpl.
      split; [reflexivity|]. split; [reflexivity|].
      exists (fresh (dom heap)), m. rewrite lookup_insert_eq. auto.
    + rewrite lookup_insert_ne in Hd by congruence. congruence.
  - unfold nonzero in Herr. destruct (Z.eqb_spec err 0); [lia|].
    intros [= <-]. simpl. split; [reflexivity|]. split; [reflexivity|].
    split; [reflexivity|]. intros d c Hd Hold. congruence.
Qed.

Lemma FmsDataCollectionToDataCollection_frame_witness :
  let dc := {| fdc_mesh := ExampleCalls.linear_triangle |} in
  exists r,
    FmsDataCollectionToDataCollection Examples.plane_kernel dc
      ExampleCalls.old_heap ∅ None = Some r /\
    retval r = 1 /\
    ExampleCalls.old_heap ⊆ dc_heap r /\
    (∅ : gmap nat DataCollection) ⊆ dc_objects r /\
    forall d c,
      dc_objects r !! d = Some c -> (∅ : gmap nat DataCollection) !! d = None ->
      dc_out r = Some d /\ dc_name c = collection_name /\
      exists mesh m,
        dc_mesh c = Some mesh /\ dc_heap r !! mesh = Some m /\
        ExampleCalls.old_heap !! mesh = None /\
        converts Examples.plane_kernel (fdc_mesh dc) m.
Proof.
  intros dc. eexists. split; [vm_compute; reflexivity|].
  apply (FmsDataCollectionToDataCollection_frame Examples.plane_kernel dc
           ExampleCalls.old_heap ∅ None).
  vm_compute; reflexivity.
Defined.

(** ** The nodes when vertices alone have DOFs *)

Lemma copy_value_same data k nd nd' :
  copy_value data k k nd = Ok nd' ->
  length nd' = length nd /\ same_cell data nd' k /\
  forall k', same_cell data nd k' -> same_cell data nd' k'.
Proof.
  unfold copy_value, wr.
  destruct (rd data k) as [v| |] eqn:Hv; try discriminate. cbn [bind].
  destruct (Z.leb_spec 0 k); [|discriminate].
  destruct (Z.ltb_spec k (Z.of_nat (length nd))); [|discriminate].
  simpl. intros [= <-].
  assert (Hk : (Z.to_nat k < length nd)%nat) by lia.
  split; [apply length_insert|]. split.
  - exists v. split; [|exact Hv]. apply rd_Ok. split; [lia|].
    now apply list_lookup_insert_eq.
  - intros k' (w & Hnd & Hdata). apply rd_Ok in Hnd as [Hk' Hnd].
    destruct (Z.eq_dec k' k) as [->|Hne].
    + exists v. split; [|exact Hv]. apply rd_Ok. split; [lia|].
      now apply list_lookup_insert_eq.
    + exists w. split; [|exact Hdata]. apply rd_Ok. split; [lia|].
      rewrite list_lookup_insert_ne by lia. exact Hnd.
Qed.

Lemma copy_value_length data dst src nd nd' :
  copy_value data dst src nd = Ok nd' -> length nd' = length nd.
Proof.
  unfold copy_value, wr.
  destruct (rd data src) as [v| |]; try discriminate. cbn [bind].
  destruct (_ && _); [|discriminate]. intros [= <-]. apply length_insert.
Qed.

Lemma copied_below_weaken data ns vs vdim n n' nd :
  n' <= n -> copied_below data ns vs vdim n nd -> copied_below data ns vs vdim n' nd.
Proof. intros Hle H i j Hi Hj. apply H; lia. Qed.

Lemma pe_num_ents_nonneg pe : 0 <= pe_num_ents pe.
Proof. unfold pe_num_ents. destruct (pe_ents pe); lia. Qed.

(** An index that fits in [int] is the one the code computes. *)
Lemma index_fits k :
  0 <= k < 2 ^ 31 -> FmsInt_wrap k = k /\ as_int32 (FmsInt_wrap k) = k.
Proof.
  intros Hk. assert (Hw : FmsInt_wrap k = k)
    by (unfold FmsInt_wrap; apply Z.mod_small; lia).
  split; [exact Hw|]. rewrite Hw. apply as_int32_small. lia.
Qed.

(** The vertex case copies cell by cell when the two offsets are equal
    and the indices fit in [int]. *)
Lemma scatter_vertices_inv fes data ns vs size total c n st st' :
  indices_fit_int ns vs (GetVDim fes) (total * ent_dofs fes FMS_VERTEX) ->
  0 < n -> c + n <= total ->
  vertex_scatter_inv fes data ns vs size c st ->
  scatter_vertices fes data ns vs n st = Ok st' ->
  vertex_scatter_inv fes data ns vs size (c + n) st'.
Proof.
  intros [Hcount Hfit] Hn Htotal (Hc0 & Hlen & Hc & Hoff & Hsize & Hcopied).
  unfold scatter_vertices.
  set (vd := ent_dofs fes FMS_VERTEX) in *.
  destruct (for_range (FmsInt_mul n vd) _ (nodes st)) as [nd| |] eqn:Hloop;
    try discriminate.
  cbn [bind]. intros [= <-]. unfold vertex_scatter_inv. cbn.
  fold vd.
  assert (Hinv : length nd = size /\
                 copied_below data ns vs (GetVDim fes) ((c + n) * vd) nd).
  { destruct (Z.le_gt_cases vd 0) as [Hvd|Hvd].
    - (* no vertex DOF is named below a cursor that does not advance *)
      split.
      + revert Hloop. unfold for_range.
        apply (foldM_invariant _ (fun nd => length nd = size)); [|exact Hsize].
        intros i t t' _ Ht.
        apply (foldM_invariant _ (fun nd => length nd = size)); [|exact Ht].
        intros j u u' _ Hu Hcopy. apply copy_value_length in Hcopy. congruence.
      + intros i j Hi Hj. nia.
    - assert (Hb : FmsInt_mul n vd = n * vd).
      { unfold FmsInt_mul, FmsInt_wrap. apply Z.mod_small. nia. }
      rewrite Hb in Hloop.
      assert (Hgoal : length nd = size /\
                      copied_below data ns vs (GetVDim fes)
                        (c * vd + Z.max 0 (n * vd)) nd).
      { revert Hloop.
        apply (for_range_invariant
                 (fun i nd => length nd = size /\
                              copied_below data ns vs (GetVDim fes) (c * vd + i) nd)).
        - split; [exact Hsize|]. now rewrite Z.add_0_r.
        - intros i t t' Hi [Hsz Hcp] Hinner.
          assert (Hin : (length t' = size /\
                         copied_below data ns vs (GetVDim fes) (c * vd + i) t') /\
                        forall j, 0 <= j < Z.max 0 (GetVDim fes) ->
                          same_cell data t' ((c * vd + i) * ns + j * vs)).
          { revert Hinner.
            apply (for_range_invariant
                     (fun j t' =>
                        (length t' = size /\
                         copied_below data ns vs (GetVDim fes) (c * vd + i) t') /\
                        forall j', 0 <= j' < j ->
                          same_cell data t' ((c * vd + i) * ns + j' * vs))).
            - split; [split; assumption|]. intros j' Hj'. lia.
            - intros j u u' Hj [[Hsz' Hcp'] Hrow] Hcopy.
              rewrite Hc in Hcopy. fold vd in Hcopy. rewrite Hoff in Hcopy.
              destruct (index_fits (i * ns + j * vs)) as [_ Hidx];
                [apply Hfit; [nia|lia]|].
              rewrite Hidx in Hcopy.
              replace (c * vd * ns + (i * ns + j * vs))
                with ((c * vd + i) * ns + j * vs) in Hcopy by ring.
              destruct (index_fits ((c * vd + i) * ns + j * vs)) as [Hsrc Hdst];
                [apply Hfit; [nia|lia]|].
              rewrite Hdst, Hsrc in Hcopy.
              destruct (copy_value_same _ _ _ _ Hcopy) as (Hl & Hnew & Hold).
              split; [split|].
              + congruence.
              + intros i' j' Hi' Hj'. apply Hold, Hcp'; assumption.
              + intros j' Hj'. destruct (Z.eq_dec j' j) as [->|Hne].
                * exact Hnew.
                * apply Hold, Hrow. lia. }
          destruct Hin as [[Hsz' Hcp'] Hrow]. split; [exact Hsz'|].
          intros i' j' Hi' Hj'. destruct (Z.eq_dec i' (c * vd + i)) as [->|Hne].
          + apply Hrow. lia.
          + apply Hcp'; lia. }
      destruct Hgoal as [Hsz Hcp]. split; [exact Hsz|].
      eapply copied_below_weaken; [|exact Hcp]. lia. }
  destruct Hinv as [Hsz Hcp].
  split; [lia|].
  split; [unfold cnt_add; now rewrite length_insert|].
  split.
  { unfold cnt_add. rewrite list_lookup_total_insert_eq by (simpl; lia).
    change (Z.to_nat 0) with 0%nat. now rewrite Hc. }
  split; [rewrite Hoff; ring|]. split; [exact Hsz|exact Hcp].
Qed.

Lemma scatter_step_vertex_inv
    fes data ns vs dim edges faces mfem_edge mfem_face size total c part et st st' :
  (forall et, et <> FMS_VERTEX -> ent_dofs fes et = 0) ->
  indices_fit_int ns vs (GetVDim fes) (total * ent_dofs fes FMS_VERTEX) ->
  c + match et with FMS_VERTEX => pe_num_ents (part et) | _ => 0 end <= total ->
  vertex_scatter_inv fes data ns vs size c st ->
  scatter_step fes data ns vs dim edges faces mfem_edge mfem_face part et st
    = Ok st' ->
  vertex_scatter_inv fes data ns vs size
    (c + match et with FMS_VERTEX => pe_num_ents (part et) | _ => 0 end) st'.
Proof.
  intros Hzero Hfit Htotal Hinv. unfold scatter_step.
  pose proof (pe_num_ents_nonneg (part et)) as Hnn.
  destruct (Z.eqb_spec (pe_num_ents (part et)) 0) as [Hn|Hn].
  { intros [= <-]. destruct et; rewrite ?Hn, Z.add_0_r; exact Hinv. }
  destruct (Z.eqb_spec (ent_dofs fes et) 0) as [Hd|Hd].
  { intros [= <-]. destruct Hinv as (Hc0 & Hlen & Hc & Hoff & Hsize & Hcopied).
    unfold vertex_scatter_inv, cnt_add. cbn.
    destruct et; cbn;
      change (Z.to_nat 0) with 0%nat; change (Z.to_nat 1) with 1%nat;
      change (Z.to_nat 2) with 2%nat; change (Z.to_nat 3) with 3%nat;
      (split; [lia|]); (split; [now rewrite length_insert|]);
      try (rewrite Z.add_0_r;
           rewrite list_lookup_total_insert_ne by lia; auto).
    rewrite list_lookup_total_insert_eq by lia.
    rewrite Hd in *. rewrite Hc. split; [reflexivity|].
    split; [lia|]. split; [exact Hsize|].
    intros i j Hi Hj. lia. }
  destruct (ids_unsupported (part et)); [discriminate|].
  destruct (bool_decide _); [discriminate|].
  destruct et; try (exfalso; apply Hd, Hzero; discriminate).
  apply (scatter_vertices_inv _ _ _ _ _ total); [exact Hfit|lia|exact Htotal|exact Hinv].
Qed.

(** A loop whose steps each advance a counter of the invariant, below a
    bound on the whole advance. *)
Lemma foldM_counted {A St} (f : A -> St -> result St) (I : Z -> St -> Prop)
    (w : A -> Z) (bound : Z) (l : list A) :
  (forall x, 0 <= w x) ->
  (forall x c s s', c + w x <= bound -> I c s -> f x s = Ok s' -> I (c + w x) s') ->
  forall c s s',
    c + foldr (fun x n => w x + n) 0 l <= bound ->
    I c s -> foldM f l s = Ok s' -> I (c + foldr (fun x n => w x + n) 0 l) s'.
Proof.
  intros Hw Hstep.
  assert (Hsum : forall l', 0 <= foldr (fun x n => w x + n) 0 l').
  { induction l' as [|y l' IH]; simpl; [lia|]. specialize (Hw y). lia. }
  induction l as [|x l IH]; intros c s s' Hb Hinv Hrun; simpl in *.
  - injection Hrun as <-. now rewrite Z.add_0_r.
  - destruct (f x s) as [s1| |] eqn:Hx; try discriminate. simpl in Hrun.
    specialize (Hsum l).
    rewrite Z.add_assoc. eapply IH; [lia| |exact Hrun].
    eapply Hstep; [lia|exact Hinv|exact Hx].
Qed.

Lemma scatter_vertex_inv
    fes data ns vs dim edges faces mfem_edge mfem_face size parts :
  (forall et, et <> FMS_VERTEX -> ent_dofs fes et = 0) ->
  indices_fit_int ns vs (GetVDim fes)
    (total_ents parts FMS_VERTEX * ent_dofs fes FMS_VERTEX) ->
  forall st st',
    vertex_scatter_inv fes data ns vs size 0 st ->
    scatter fes data ns vs dim edges faces mfem_edge mfem_face parts st = Ok st' ->
    vertex_scatter_inv fes data ns vs size (total_ents parts FMS_VERTEX) st'.
Proof.
  intros Hzero Hfit st st' Hinv Hrun.
  assert (Hstep : forall (part : FmsPart) c s s',
            c + pe_num_ents (part FMS_VERTEX) <= total_ents parts FMS_VERTEX ->
            vertex_scatter_inv fes data ns vs size c s ->
            foldM (scatter_step fes data ns vs dim edges faces mfem_edge mfem_face
                     part) FmsEntityTypes s = Ok s' ->
            vertex_scatter_inv fes data ns vs size
              (c + pe_num_ents (part FMS_VERTEX)) s').
  { intros part c s s' Hb Hs Hpart.
    pose proof (foldM_counted _ (vertex_scatter_inv fes data ns vs size)
                  (fun et => match et with
                             | FMS_VERTEX => pe_num_ents (part et)
                             | _ => 0
                             end)
                  (total_ents parts FMS_VERTEX)
                  FmsEntityTypes
                  ltac:(intros et; pose proof (pe_num_ents_nonneg (part et));
                        destruct et; lia)
                  (fun et c s s' Hb =>
                     scatter_step_vertex_inv fes data ns vs dim edges faces
                       mfem_edge mfem_face size (total_ents parts FMS_VERTEX)
                       c part et s s' Hzero Hfit Hb)
                  c s s') as H.
    simpl in H. rewrite !Z.add_0_r in H. now apply H. }
  pose proof (foldM_counted _ (vertex_scatter_inv fes data ns vs size)
                (fun part : FmsPart => pe_num_ents (part FMS_VERTEX))
                (total_ents parts FMS_VERTEX) parts
                (fun part => pe_num_ents_nonneg (part FMS_VERTEX))
                Hstep 0 st st') as H.
  rewrite Z.add_0_l in H. apply H; [apply Z.le_refl|exact Hinv|exact Hrun].
Qed.

(** X9. When the node space has DOFs at vertices only (as for nodes
    of order 1) and the indices of the vertex DOFs fit in [int], the nodes
    of a converted mesh are the data of the field copied cell for cell: for
    every vertex DOF [i] of the parts of the main component and every
    component [j], cell [i*nstride + j*vstride] of the node array holds the
    value of the same cell of the data, the strides being those of the
    layout of the field.  The node array has the size the node space gives
    it. *)
Theorem vertex_only_nodes_are_the_data
    K fms heap out heap' out' main_id main_comp coords bdr mesh1 :
  find_main_comp (fms_comps fms) 0 = Some (main_id, main_comp, coords) ->
  find_bdr_comp (fms_comps fms) (comp_dim main_comp) (comp_relations main_comp)
    = Ok bdr ->
  build_topology fms main_id main_comp bdr
    (new_Mesh (comp_dim main_comp) (count_ents (comp_parts main_comp) FMS_VERTEX)
       (comp_num_entities main_comp) (n_bdr_elem_of bdr) (fld_num_vec_comp coords))
    = Ok mesh1 ->
  let by_vdim := is_by_vdim (fld_layout coords) in
  let fes :=
    nodes_space K
      (Nat.iter (Z.to_nat (count_ents (comp_parts main_comp) FMS_VERTEX))
         (AddVertex origin) mesh1)
      (fd_order (fld_fd coords)) (fld_num_vec_comp coords)
      (if by_vdim then Ordering.byVDIM else Ordering.byNODES) in
  let nstride := if by_vdim then fld_num_vec_comp coords else 1 in
  let vstride := if by_vdim then 1 else fd_num_dofs (fld_fd coords) in
  let n_dofs :=
    total_ents (comp_parts main_comp) FMS_VERTEX * ent_dofs fes FMS_VERTEX in
  (forall et, et <> FMS_VERTEX -> ent_dofs fes et = 0) ->
  indices_fit_int nstride vstride (GetVDim fes) n_dofs ->
  FmsMeshToMesh K fms heap out = Returned 0 heap' out' ->
  exists mesh m nd,
    out' = Some mesh /\ heap' !! mesh = Some m /\ Nodes m = Some nd /\
    length nd = Z.to_nat (nodes_Size fes) /\
    forall i j,
      0 <= i < n_dofs -> 0 <= j < GetVDim fes ->
      same_cell (fld_data coords) nd (i * nstride + j * vstride).
Proof.
  intros Hmain Hbdr Htopo by_vdim fes nstride vstride n_dofs Hzero Hfit Hcall.
  destruct (FmsMeshToMesh_success_inv _ _ _ _ _ _ Hcall)
    as (i0 & c0 & f0 & b0 & m & Hmain' & Hbdr' & Hbuild & _ & -> & Hm).
  rewrite Hmain in Hmain'. injection Hmain' as <- <- <-.
  rewrite Hbdr in Hbdr'. injection Hbdr' as <-.
  unfold build_mesh in Hbuild. rewrite Htopo in Hbuild. cbn [bind] in Hbuild.
  unfold transfer_coordinates in Hbuild.
  destruct (finalize_mesh _ _ _ _ _) as [fin| |] eqn:Hfin; try discriminate.
  cbn [bind] in Hbuild.
  pose proof (finalize_mesh_Ok _ _ _ _ _ _ Hfin) as Hfin'. cbv zeta in Hfin'.
  fold by_vdim in Hfin'. fold fes in Hfin'. fold nstride in Hfin'.
  fold vstride in Hfin'. subst fin. cbn [fin_mesh fin_edges fin_faces fin_fes
                                         fin_nstride fin_vstride] in Hbuild.
  destruct (build_edge_table _ _) as [me| |]; try discriminate.
  cbn [bind] in Hbuild.
  destruct (build_face_table _ _ _) as [mf| |]; try discriminate.
  cbn [bind] in Hbuild.
  destruct (scatter _ _ _ _ _ _ _ _ _ _ _) as [st| |] eqn:Hsc; try discriminate.
  cbn [bind] in Hbuild. injection Hbuild as <-.
  exists (fresh (dom heap)). eexists. exists (nodes st).
  split; [reflexivity|]. split; [exact Hm|]. split; [reflexivity|].
  assert (Hinit : vertex_scatter_inv fes (fld_data coords) nstride vstride
                    (Z.to_nat (nodes_Size fes)) 0
                    (initial_scatter_state (initial_nodes fes))).
  { unfold vertex_scatter_inv, initial_scatter_state, initial_nodes. cbn.
    split; [lia|].
    split; [reflexivity|]. split; [reflexivity|]. split; [reflexivity|].
    split; [apply length_replicate|]. intros i j Hi Hj. lia. }
  destruct (scatter_vertex_inv _ _ _ _ _ _ _ _ _ _ _ Hzero Hfit _ _ Hinit Hsc)
    as (_ & _ & _ & _ & Hsize & Hcopied).
  split; [exact Hsize|exact Hcopied].
Qed.

Lemma vertex_only_nodes_are_the_data_witness :
  exists main_comp coords bdr mesh1 heap' out',
    find_main_comp (fms_comps ExampleCalls.linear_triangle) 0
      = Some (0, main_comp, coords) /\
    find_bdr_comp (fms_comps ExampleCalls.linear_triangle)
      (comp_dim main_comp) (comp_relations main_comp) = Ok bdr /\
    build_topology ExampleCalls.linear_triangle 0 main_comp bdr
      (new_Mesh (comp_dim main_comp) (count_ents (comp_parts main_comp) FMS_VERTEX)
         (comp_num_entities main_comp) (n_bdr_elem_of bdr) (fld_num_vec_comp coords))
      = Ok mesh1 /\
    indices_fit_int 2 1 2 3 /\
    FmsMeshToMesh Examples.plane_kernel ExampleCalls.linear_triangle
      ExampleCalls.old_heap None = Returned 0 heap' out' /\
    exists mesh m nd,
      out' = Some mesh /\ heap' !! mesh = Some m /\ Nodes m = Some nd /\
      length nd = 6%nat /\
      forall i j, 0 <= i < 3 -> 0 <= j < 2 ->
        same_cell ExampleCalls.vertex_data nd (i * 2 + j * 1).
Proof.
  assert (Hfit : indices_fit_int 2 1 2 3).
  { split; [reflexivity|]. intros i j Hi Hj.
    change (2 ^ 31) with 2147483648. lia. }
  eexists _, _, _, _, _, _.
  split; [vm_compute; reflexivity|].
  split; [vm_compute; reflexivity|].
  split; [vm_compute; reflexivity|].
  split; [exact Hfit|].
  split; [vm_compute; reflexivity|].
  apply (vertex_only_nodes_are_the_data Examples.plane_kernel
           ExampleCalls.linear_triangle ExampleCalls.old_heap None _ _
           0 _ _ _ _ ltac:(vm_compute; reflexivity) ltac:(vm_compute; reflexivity)
           ltac:(vm_compute; reflexivity)).
  - intros et Het. destruct et; try reflexivity. now destruct Het.
  - exact Hfit.
  - vm_compute; reflexivity.
Defined.

(** ** Entity ids of an unsupported type *)

(** The three places where the type of the ids is looked at: before the
    orientation array, whatever the state. *)
Lemma add_elements_step_ids dim attr part et mesh :
  FmsEntityDim et = dim -> pe_num_ents (part et) <> 0 ->
  ids_unsupported (part et) = true ->
  add_elements_step dim attr part et mesh = Exit 3.
Proof.
  intros Hdim Hnum Hids. unfold add_elements_step.
  rewrite (proj2 (Z.eqb_eq _ _) Hdim). cbn [negb].
  destruct (Z.eqb_spec (pe_num_ents (part et)) 0); [contradiction|].
  now rewrite Hids.
Qed.

Lemma add_bdr_elements_step_ids dim attr part et mesh :
  FmsEntityDim et = FmsInt_sub dim 1 -> pe_num_ents (part et) <> 0 ->
  ids_unsupported (part et) = true ->
  add_bdr_elements_step dim attr part et mesh = Exit 6.
Proof.
  intros Hdim Hnum Hids. unfold add_bdr_elements_step.
  rewrite (proj2 (Z.eqb_eq _ _) Hdim). cbn [negb].
  destruct (Z.eqb_spec (pe_num_ents (part et)) 0); [contradiction|].
  now rewrite Hids.
Qed.

Lemma scatter_step_ids fes data nstride vstride dim edges faces
    mfem_edge mfem_face part et st :
  ent_dofs fes et <> 0 -> pe_num_ents (part et) <> 0 ->
  ids_unsupported (part et) = true ->
  scatter_step fes data nstride vstride dim edges faces
    mfem_edge mfem_face part et st = Exit 15.
Proof.
  intros Hdofs Hnum Hids. unfold scatter_step.
  destruct (Z.eqb_spec (pe_num_ents (part et)) 0); [contradiction|].
  destruct (Z.eqb_spec (ent_dofs fes et) 0); [contradiction|].
  now rewrite Hids.
Qed.

(** X10. Entity ids of a type other than 32-bit are rejected where a
    pass handles a non-empty enumeration that lists ids: of the top
    dimension in a part of the main component (code 3), of dimension
    [dim-1] in a part of the boundary component that reports entities
    (code 6), of a type with DOFs in the node space the conversion builds,
    in a part of the main component (code 15).  The step leaves with that
    code whatever the state, also when the enumeration has an orientation
    array, and with such an enumeration [FmsMeshToMesh] does not succeed:
    when it returns, the code is nonzero and heap and output cell are those
    of the call. *)
Theorem unsupported_ids_rejected_where_checked
    K fms heap out main_id main_comp coords bdr part et :
  find_main_comp (fms_comps fms) 0 = Some (main_id, main_comp, coords) ->
  find_bdr_comp (fms_comps fms) (comp_dim main_comp) (comp_relations main_comp)
    = Ok bdr ->
  ids_unsupported (part et) = true ->
  pe_num_ents (part et) <> 0 ->
  (In part (comp_parts main_comp) /\ FmsEntityDim et = comp_dim main_comp) \/
  (exists bdr_id bdr_comp,
     bdr = Some (bdr_id, bdr_comp) /\ 0 < comp_num_entities bdr_comp /\
     In part (comp_parts bdr_comp) /\
     FmsEntityDim et = FmsInt_sub (comp_dim main_comp) 1) \/
  (In part (comp_parts main_comp) /\
   dofs_in_built_space K fms main_id main_comp coords bdr et (fun n => n <> 0)) ->
  ((exists err, err <> 0 /\ FmsMeshToMesh K fms heap out = Returned err heap out) \/
   FmsMeshToMesh K fms heap out = Undefined) /\
  (forall attr mesh,
     FmsEntityDim et = comp_dim main_comp ->
     add_elements_step (comp_dim main_comp) attr part et mesh = Exit 3) /\
  (forall attr mesh,
     FmsEntityDim et = FmsInt_sub (comp_dim main_comp) 1 ->
     add_bdr_elements_step (comp_dim main_comp) attr part et mesh = Exit 6) /\
  (forall fes data nstride vstride edges faces mfem_edge mfem_face st,
     ent_dofs fes et <> 0 ->
     scatter_step fes data nstride vstride (comp_dim main_comp) edges faces
       mfem_edge mfem_face part et st = Exit 15).
Proof.
  intros Hmain Hbdr Hids Hnum Hwhere.
  assert (Hel : forall attr mesh,
            FmsEntityDim et = comp_dim main_comp ->
            add_elements_step (comp_dim main_comp) attr part et mesh = Exit 3)
    by (intros; now apply add_elements_step_ids).
  assert (Hbd : forall attr mesh,
            FmsEntityDim et = FmsInt_sub (comp_dim main_comp) 1 ->
            add_bdr_elements_step (comp_dim main_comp) attr part et mesh = Exit 6)
    by (intros; now apply add_bdr_elements_step_ids).
  assert (Hsc : forall fes data nstride vstride edges faces mfem_edge mfem_face st,
            ent_dofs fes et <> 0 ->
            scatter_step fes data nstride vstride (comp_dim main_comp) edges faces
              mfem_edge mfem_face part et st = Exit 15)
    by (intros; now apply scatter_step_ids).
  split; [|auto].
  destruct (FmsMeshToMesh_cases K fms heap out)
    as [(m & Hconv & _)|[(err & Herr & _ & Heq)|[_ Heq]]].
  - exfalso. destruct Hconv as (i & c & f & b & Ha & Hb & Hbuild).
    rewrite Hmain in Ha. injection Ha as <- <- <-.
    rewrite Hbdr in Hb. injection Hb as <-.
    revert Hbuild. apply (build_mesh_stuck K fms _ _ _ _ part et).
    destruct Hwhere
      as [[Hpart Hdim]|[(bdr_id & bdr_comp & Hb & Hn & Hpart & Hdim)|[Hpart Hdofs]]].
    + left. split; [exact Hpart|]. intros attr s s'. now rewrite Hel.
    + right; left. exists bdr_id, bdr_comp.
      split; [exact Hb|]. split; [exact Hn|]. split; [exact Hpart|].
      intros attr s s'. now rewrite Hbd.
    + right; right. split; [exact Hpart|]. intros mesh1 Htopo.
      intros data ns vs edges faces me mf s s'. rewrite Hsc; [discriminate|].
      exact (Hdofs mesh1 Htopo).
  - left. exists err. unfold nonzero in Herr. split; [lia|exact Heq].
  - right. exact Heq.
Qed.

Lemma unsupported_ids_rejected_where_checked_witness :
  (exists main_comp coords bdr,
     find_main_comp (fms_comps WideIds.wide_ids_triangle) 0
       = Some (0, main_comp, coords) /\
     find_bdr_comp (fms_comps WideIds.wide_ids_triangle)
       (comp_dim main_comp) (comp_relations main_comp) = Ok bdr /\
     ids_unsupported (WideIds.wide_ids_part FMS_TRIANGLE) = true /\
     pe_num_ents (WideIds.wide_ids_part FMS_TRIANGLE) <> 0 /\
     In WideIds.wide_ids_part (comp_parts main_comp) /\
     FmsEntityDim FMS_TRIANGLE = comp_dim main_comp /\
     FmsMeshToMesh Examples.plane_kernel WideIds.wide_ids_triangle
       ExampleCalls.old_heap (Some 7%nat)
       = Returned 3 ExampleCalls.old_heap (Some 7%nat) /\
     ((exists err, err <> 0 /\
         FmsMeshToMesh Examples.plane_kernel WideIds.wide_ids_triangle
           ExampleCalls.old_heap (Some 7%nat)
         = Returned err ExampleCalls.old_heap (Some 7%nat)) \/
      FmsMeshToMesh Examples.plane_kernel WideIds.wide_ids_triangle
        ExampleCalls.old_heap (Some 7%nat) = Undefined)) /\
  (exists main_comp coords bdr,
     find_main_comp (fms_comps WideIds.wide_edge_ids_triangle) 0
       = Some (0, main_comp, coords) /\
     find_bdr_comp (fms_comps WideIds.wide_edge_ids_triangle)
       (comp_dim main_comp) (comp_relations main_comp) = Ok bdr /\
     ids_unsupported (WideIds.wide_edge_ids_part FMS_EDGE) = true /\
     pe_num_ents (WideIds.wide_edge_ids_part FMS_EDGE) <> 0 /\
     In WideIds.wide_edge_ids_part (comp_parts main_comp) /\
     dofs_in_built_space Examples.plane_kernel WideIds.wide_edge_ids_triangle
       0 main_comp coords bdr FMS_EDGE (fun n => n <> 0) /\
     FmsMeshToMesh Examples.plane_kernel WideIds.wide_edge_ids_triangle
       ExampleCalls.old_heap (Some 7%nat)
       = Returned 15 ExampleCalls.old_heap (Some 7%nat) /\
     ((exists err, err <> 0 /\
         FmsMeshToMesh Examples.plane_kernel WideIds.wide_edge_ids_triangle
           ExampleCalls.old_heap (Some 7%nat)
         = Returned err ExampleCalls.old_heap (Some 7%nat)) \/
      FmsMeshToMesh Examples.plane_kernel WideIds.wide_edge_ids_triangle
        ExampleCalls.old_heap (Some 7%nat) = Undefined)).
Proof.
  pose (bdr_comp := {| comp_coords := None; comp_dim := 1; comp_num_entities := 3;
                       comp_parts := [Examples.bdr_part]; comp_relations := [] |}).
  split.
  - eexists _, _, _.
    split; [vm_compute; reflexivity|].
    split; [vm_compute; reflexivity|].
    assert (Hids : ids_unsupported (WideIds.wide_ids_part FMS_TRIANGLE) = true)
      by reflexivity.
    assert (Hnum : pe_num_ents (WideIds.wide_ids_part FMS_TRIANGLE) <> 0)
      by (vm_compute; discriminate).
    split; [exact Hids|]. split; [exact Hnum|].
    split; [left; reflexivity|]. split; [reflexivity|].
    split; [vm_compute; reflexivity|].
    exact (proj1
      (unsupported_ids_rejected_where_checked Examples.plane_kernel
         WideIds.wide_ids_triangle ExampleCalls.old_heap (Some 7%nat)
         0 _ _ _ WideIds.wide_ids_part FMS_TRIANGLE
         ltac:(vm_compute; reflexivity) ltac:(vm_compute; reflexivity)
         Hids Hnum (or_introl (conj (or_introl eq_refl) eq_refl)))).
  - pose (coords :=
            Examples.tri_coords 2 [10; 11; 20; 21; 30; 31; 40; 41; 50; 51; 60; 61]).
    pose (main_comp := {| comp_coords := Some coords; comp_dim := 2;
                          comp_num_entities := 1;
                          comp_parts := [WideIds.wide_edge_ids_part];
                          comp_relations := [1] |}).
    exists main_comp, coords, (Some (1, bdr_comp)).
    split; [reflexivity|]. split; [reflexivity|].
    assert (Hids : ids_unsupported (WideIds.wide_edge_ids_part FMS_EDGE) = true)
      by reflexivity.
    assert (Hnum : pe_num_ents (WideIds.wide_edge_ids_part FMS_EDGE) <> 0)
      by (vm_compute; discriminate).
    assert (Hdofs : dofs_in_built_space Examples.plane_kernel
                      WideIds.wide_edge_ids_triangle 0 main_comp coords
                      (Some (1, bdr_comp)) FMS_EDGE (fun n => n <> 0))
      by (intros mesh1 _; simpl; discriminate).
    split; [exact Hids|]. split; [exact Hnum|].
    split; [left; reflexivity|]. split; [exact Hdofs|].
    split; [vm_compute; reflexivity|].
    exact (proj1
      (unsupported_ids_rejected_where_checked Examples.plane_kernel
         WideIds.wide_edge_ids_triangle ExampleCalls.old_heap (Some 7%nat)
         0 main_comp coords (Some (1, bdr_comp)) WideIds.wide_edge_ids_part
         FMS_EDGE eq_refl eq_refl
         Hids Hnum (or_intror (or_intror (conj (or_introl eq_refl) Hdofs))))).
Defined.

(** ** Source edges and faces the target does not have *)

Lemma sorted_key_iff (ps qs : list Z) :
  HashTable.sorted_key ps = HashTable.sorted_key qs <-> ps ≡ₚ qs.
Proof.
  split; [apply sorted_key_Permutation|]. intros Hperm.
  unfold HashTable.sorted_key.
  apply (Sorted_unique Z.le); try apply Sorted_merge_sort; try apply _.
  now rewrite !merge_sort_Permutation.
Qed.

Lemma FindId_negative tbl ps :
  HashTable.FindId tbl ps < 0 <-> ~ In (HashTable.sorted_key ps) tbl.
Proof.
  unfold HashTable.FindId. rewrite <- SearchList_None.
  destruct (HashTable.SearchList tbl _); split; intros H; try lia; congruence.
Qed.

Lemma build_edge_index_Ok edges tbl :
  build_edge_index edges = Ok tbl -> tbl = map edge_key edges.
Proof.
  intros Hrun. destruct (build_edge_index_spec edges) as [Hok Hdup].
  destruct (decide (NoDup (map edge_key edges))) as [Hnd|Hnd].
  - rewrite (Hok Hnd) in Hrun. congruence.
  - rewrite (Hdup Hnd) in Hrun. discriminate.
Qed.

(** A lookup in an index built from the targets fails exactly when no
    target has the vertices looked up. *)
Lemma FindId_negative_index {A} (verts : A -> list Z) (xs : list A) (ps : list Z) :
  HashTable.FindId (map (fun x => HashTable.sorted_key (verts x)) xs) ps < 0 <->
  forall x, In x xs -> ~ verts x ≡ₚ ps.
Proof.
  rewrite FindId_negative, in_map_iff. split.
  - intros Hno x Hx Hperm. apply Hno. exists x. split; [|exact Hx].
    now apply sorted_key_iff.
  - intros Hno (x & Hkey & Hx). apply (Hno x Hx). now apply sorted_key_iff.
Qed.

Lemma no_exit_scatter_permuted fes data nstride vstride n perm dofs st :
  exits (fun _ => False) (scatter_permuted fes data nstride vstride n perm dofs st).
Proof.
  unfold scatter_permuted, copy_dofs, for_range, copy_value. exits_tac.
Qed.

Lemma no_exit_face_orientation n tv m_ev :
  exits (fun _ => False) (face_orientation n tv m_ev).
Proof. unfold face_orientation. exits_tac. Qed.

(** The shape of the three lookups: the code when the lookup fails, no
    code at all from what follows a lookup that succeeds. *)
Lemma lookup_code {St} (id err : Z) (k : result St) (e : Z) :
  exits (fun _ => False) k ->
  (if id <? 0 then Exit err else k) = Exit e <-> id < 0 /\ e = err.
Proof.
  intros Hk. destruct (Z.ltb_spec id 0).
  - split; [intros [= <-]; auto|intros [_ ->]; reflexivity].
  - split; [intros H'; destruct (Hk _ H')|lia].
Qed.

(** X11. With the index built from the edges and the faces of the
    target, the scatter leaves with 17 at a source edge, 18 at a source
    triangle, 19 at a source quadrilateral exactly when no target edge or
    face has the same vertices (a triangle among the faces padded with
    [INT_MAX], in any order); an entity that is found gives no code. *)
Theorem orphan_entities_codes
    fes data nstride vstride edges faces mfem_edge mfem_face :
  build_edge_index edges = Ok mfem_edge ->
  build_face_index faces = Ok mfem_face ->
  (forall ents_verts i st ev0 ev1 e,
     rd (at_ ents_verts (2 * i)) 0 = Ok ev0 ->
     rd (at_ ents_verts (2 * i)) 1 = Ok ev1 ->
     scatter_edge fes data nstride vstride edges mfem_edge ents_verts i st = Exit e
     <-> (forall m_ev, In m_ev edges -> ~ [fst m_ev; snd m_ev] ≡ₚ [ev0; ev1])
         /\ e = 17) /\
  (forall ents_verts i st tv0 tv1 tv2 e,
     rd (at_ ents_verts (3 * i)) 0 = Ok tv0 ->
     rd (at_ ents_verts (3 * i)) 1 = Ok tv1 ->
     rd (at_ ents_verts (3 * i)) 2 = Ok tv2 ->
     scatter_triangle fes data nstride vstride faces mfem_face ents_verts i st = Exit e
     <-> (forall fv, In fv faces -> ~ padded_face fv ≡ₚ [tv0; tv1; tv2; INT_MAX])
         /\ e = 18) /\
  (forall ents_verts i st qv0 qv1 qv2 qv3 e,
     rd (at_ ents_verts (4 * i)) 0 = Ok qv0 ->
     rd (at_ ents_verts (4 * i)) 1 = Ok qv1 ->
     rd (at_ ents_verts (4 * i)) 2 = Ok qv2 ->
     rd (at_ ents_verts (4 * i)) 3 = Ok qv3 ->
     scatter_quad fes data nstride vstride faces mfem_face ents_verts i st = Exit e
     <-> (forall fv, In fv faces -> ~ padded_face fv ≡ₚ [qv0; qv1; qv2; qv3])
         /\ e = 19).
Proof.
  intros Hedge Hface.
  apply build_edge_index_Ok in Hedge. subst mfem_edge.
  apply build_face_index_Ok in Hface as (-> & _ & _).
  split; [|split].
  - intros ents_verts i st ev0 ev1 e H0 H1. unfold scatter_edge.
    rewrite H0, H1. cbn [bind].
    rewrite lookup_code.
    + now rewrite (FindId_negative_index (fun ev => [fst ev; snd ev])).
    + apply exits_bind; [apply exits_rd|intros m_ev].
      apply no_exit_scatter_permuted.
  - intros ents_verts i st tv0 tv1 tv2 e H0 H1 H2. unfold scatter_triangle.
    rewrite H0, H1, H2. cbn [bind].
    rewrite lookup_code.
    + now rewrite (FindId_negative_index padded_face).
    + apply exits_bind; [apply exits_rd|intros m_ev].
      apply exits_bind; [apply no_exit_face_orientation|intros ori].
      apply no_exit_scatter_permuted.
  - intros ents_verts i st qv0 qv1 qv2 qv3 e H0 H1 H2 H3. unfold scatter_quad.
    rewrite H0, H1, H2, H3. cbn [bind].
    rewrite lookup_code.
    + now rewrite (FindId_negative_index padded_face).
    + apply exits_bind; [apply exits_rd|intros m_ev].
      apply exits_bind; [apply no_exit_face_orientation|intros ori].
      apply no_exit_scatter_permuted.
Qed.

Lemma orphan_entities_codes_witness :
  let fes := TetExample.tet_space (new_Mesh 3 4 1 0 3) 3 3 Ordering.byVDIM in
  let st := initial_scatter_state (initial_nodes fes) in
  exists mfem_edge mfem_face,
    build_edge_index TetExample.tet_edges = Ok mfem_edge /\
    build_face_index TetExample.tet_faces = Ok mfem_face /\
    (scatter_edge fes TetExample.tet_data 3 1 TetExample.tet_edges mfem_edge
       [7; 8] 0 st = Exit 17
     <-> (forall m_ev, In m_ev TetExample.tet_edges ->
            ~ [fst m_ev; snd m_ev] ≡ₚ [7; 8]) /\ 17 = 17) /\
    scatter_edge fes TetExample.tet_data 3 1 TetExample.tet_edges mfem_edge
      [7; 8] 0 st = Exit 17.
Proof.
  intros fes st. eexists _, _.
  split; [vm_compute; reflexivity|].
  split; [vm_compute; reflexivity|].
  split; [|vm_compute; reflexivity].
  apply (proj1 (orphan_entities_codes fes TetExample.tet_data 3 1
                  TetExample.tet_edges TetExample.tet_faces _ _
                  ltac:(vm_compute; reflexivity) ltac:(vm_compute; reflexivity))
           [7; 8] 0 st 7 8 17); reflexivity.
Defined.

(** ** What the scatter stores in the nodes *)

Lemma copy_value_from data size dst src nd nd' :
  nodes_from data size nd ->
  copy_value data dst src nd = Ok nd' ->
  nodes_from data size nd'.
Proof.
  intros [Hlen Hall]. unfold copy_value, wr.
  destruct (rd data src) as [v| |] eqn:Hv; try discriminate. cbn [bind].
  destruct (_ && _); [|discriminate]. intros [= <-].
  split; [now rewrite length_insert|].
  apply Forall_insert; [exact Hall|]. right.
  apply rd_Ok in Hv as [_ Hv]. apply list_elem_of_In.
  now apply list_elem_of_lookup_2 in Hv.
Qed.

Lemma copy_dofs_from fes data size nstride vstride n dofs off src nd nd' :
  nodes_from data size nd ->
  copy_dofs fes data nstride vstride n dofs off src nd = Ok nd' ->
  nodes_from data size nd'.
Proof.
  intros Hnd. unfold copy_dofs, for_range.
  apply (foldM_invariant _ (nodes_from data size)); [|exact Hnd].
  intros i s s' _ Hs.
  apply (foldM_invariant _ (nodes_from data size)); [|exact Hs].
  intros j t t' _ Ht Hstep.
  destruct (rd dofs i) as [d| |]; try discriminate. cbn [bind] in Hstep.
  destruct (src i) as [k| |]; try discriminate. cbn [bind] in Hstep.
  eapply copy_value_from; eassumption.
Qed.

Lemma scatter_permuted_from fes data size nstride vstride n perm dofs st st' :
  nodes_from data size (nodes st) ->
  scatter_permuted fes data nstride vstride n perm dofs st = Ok st' ->
  nodes_from data size (nodes st').
Proof.
  intros Hnd. unfold scatter_permuted.
  destruct (copy_dofs _ _ _ _ _ _ _ _ _) as [nd| |] eqn:Hcopy; try discriminate.
  cbn [bind]. intros [= <-]. cbn. eapply copy_dofs_from; eassumption.
Qed.

Lemma scatter_step_from
    fes data size nstride vstride dim edges faces mfem_edge mfem_face part et st st' :
  nodes_from data size (nodes st) ->
  scatter_step fes data nstride vstride dim edges faces mfem_edge mfem_face
    part et st = Ok st' ->
  nodes_from data size (nodes st').
Proof.
  intros Hnd. unfold scatter_step.
  destruct (_ =? 0); [now intros [= <-]|].
  destruct (_ =? 0); [now intros [= <-]|].
  destruct (ids_unsupported _); [discriminate|].
  destruct (bool_decide _); [discriminate|].
  assert (Hvert : forall n s s',
             nodes_from data size (nodes s) ->
             scatter_vertices fes data nstride vstride n s = Ok s' ->
             nodes_from data size (nodes s')).
  { intros n s s' Hs. unfold scatter_vertices.
    destruct (for_range _ _ _) as [nd| |] eqn:Hloop; try discriminate.
    cbn [bind]. intros [= <-]. cbn. revert Hloop. unfold for_range.
    apply (foldM_invariant _ (nodes_from data size)); [|exact Hs].
    intros i t t' _ Ht.
    apply (foldM_invariant _ (nodes_from data size)); [|exact Ht].
    intros j u u' _ Hu. now apply copy_value_from. }
  assert (Helems : forall n s s',
             nodes_from data size (nodes s) ->
             scatter_elements fes data nstride vstride dim et n s = Ok s' ->
             nodes_from data size (nodes s')).
  { intros n s s' Hs. unfold scatter_elements.
    destruct (for_range _ _ _) as [s1| |] eqn:Hloop; try discriminate.
    cbn [bind]. intros [= <-]. cbn. revert Hloop. unfold for_range.
    apply (foldM_invariant _ (fun s => nodes_from data size (nodes s))); [|exact Hs].
    intros e t t' _ Ht.
    destruct (copy_dofs _ _ _ _ _ _ _ _ _) as [nd| |] eqn:Hcopy; try discriminate.
    cbn [bind]. intros [= <-]. cbn. eapply copy_dofs_from; eassumption. }
  assert (Hedge : forall ents_verts n s s',
             nodes_from data size (nodes s) ->
             for_range n (scatter_edge fes data nstride vstride edges mfem_edge
                            ents_verts) s = Ok s' ->
             nodes_from data size (nodes s')).
  { intros ents_verts n s s' Hs. unfold for_range.
    apply (foldM_invariant _ (fun s => nodes_from data size (nodes s))); [|exact Hs].
    intros i t t' _ Ht. unfold scatter_edge.
    destruct (rd _ 0) as [ev0| |]; try discriminate. cbn [bind].
    destruct (rd _ 1) as [ev1| |]; try discriminate. cbn [bind].
    destruct (_ <? 0); [discriminate|].
    destruct (rd edges _) as [m_ev| |]; try discriminate. cbn [bind].
    now apply scatter_permuted_from. }
  assert (Htri : forall ents_verts n s s',
             nodes_from data size (nodes s) ->
             for_range n (scatter_triangle fes data nstride vstride faces mfem_face
                            ents_verts) s = Ok s' ->
             nodes_from data size (nodes s')).
  { intros ents_verts n s s' Hs. unfold for_range.
    apply (foldM_invariant _ (fun s => nodes_from data size (nodes s))); [|exact Hs].
    intros i t t' _ Ht. unfold scatter_triangle.
    destruct (rd _ 0) as [tv0| |]; try discriminate. cbn [bind].
    destruct (rd _ 1) as [tv1| |]; try discriminate. cbn [bind].
    destruct (rd _ 2) as [tv2| |]; try discriminate. cbn [bind].
    destruct (_ <? 0); [discriminate|].
    destruct (rd faces _) as [m_ev| |]; try discriminate. cbn [bind].
    destruct (face_orientation _ _ _) as [ori| |]; try discriminate. cbn [bind].
    now apply scatter_permuted_from. }
  assert (Hquad : forall ents_verts n s s',
             nodes_from data size (nodes s) ->
             for_range n (scatter_quad fes data nstride vstride faces mfem_face
                            ents_verts) s = Ok s' ->
             nodes_from data size (nodes s')).
  { intros ents_verts n s s' Hs. unfold for_range.
    apply (foldM_invariant _ (fun s => nodes_from data size (nodes s))); [|exact Hs].
    intros i t t' _ Ht. unfold scatter_quad.
    destruct (rd _ 0) as [qv0| |]; try discriminate. cbn [bind].
    destruct (rd _ 1) as [qv1| |]; try discriminate. cbn [bind].
    destruct (rd _ 2) as [qv2| |]; try discriminate. cbn [bind].
    destruct (rd _ 3) as [qv3| |]; try discriminate. cbn [bind].
    destruct (_ <? 0); [discriminate|].
    destruct (rd faces _) as [m_ev| |]; try discriminate. cbn [bind].
    destruct (face_orientation _ _ _) as [ori| |]; try discriminate. cbn [bind].
    now apply scatter_permuted_from. }
  destruct et; try (now apply Hvert);
    (destruct (_ =? dim); [now apply Helems|]);
    match goal with
    | |- bind ?c _ = Ok _ -> _ =>
        let s1 := fresh "s1" in
        let H1 := fresh "H1" in
        destruct c as [s1| |] eqn:H1; try discriminate;
        cbn [bind]; intros [= <-]; cbn
    end.
  - eapply Hedge; eassumption.
  - eapply Htri; eassumption.
  - eapply Hquad; eassumption.
  - now injection H1 as <-.
  - now injection H1 as <-.
Qed.

Lemma scatter_from
    fes data size nstride vstride dim edges faces mfem_edge mfem_face parts st st' :
  nodes_from data size (nodes st) ->
  scatter fes data nstride vstride dim edges faces mfem_edge mfem_face parts st
    = Ok st' ->
  nodes_from data size (nodes st').
Proof.
  intros Hnd. unfold scatter.
  apply (foldM_invariant _ (fun s => nodes_from data size (nodes s))); [|exact Hnd].
  intros part s s' _ Hs.
  apply (foldM_invariant _ (fun s => nodes_from data size (nodes s))); [|exact Hs].
  intros et t t' _ Ht. now apply scatter_step_from.
Qed.

(** X12. The nodes of a converted mesh hold nothing but coordinates of
    the source: every cell of the node array is a value of the data of the
    coordinates field of the main component, or the 0 the nodes start from
    where the scatter stored nothing. *)
Theorem node_values_come_from_the_field K fms heap out heap' out' :
  FmsMeshToMesh K fms heap out = Returned 0 heap' out' ->
  exists mesh m main_id main_comp coords nd,
    out' = Some mesh /\ heap' !! mesh = Some m /\
    find_main_comp (fms_comps fms) 0 = Some (main_id, main_comp, coords) /\
    Nodes m = Some nd /\
    Forall (fun v => v = 0 \/ In v (fld_data coords)) nd.
Proof.
  intros Hcall.
  destruct (FmsMeshToMesh_success_inv _ _ _ _ _ _ Hcall)
    as (main_id & main_comp & coords & bdr & m & Hmain & Hbdr & Hbuild & _ & -> & Hm).
  unfold build_mesh in Hbuild.
  destruct (build_topology _ _ _ _ _) as [mesh1| |]; try discriminate.
  cbn [bind] in Hbuild. unfold transfer_coordinates in Hbuild.
  destruct (finalize_mesh _ _ _ _ _) as [fin| |]; try discriminate.
  cbn [bind] in Hbuild.
  destruct (build_edge_table _ _) as [me| |]; try discriminate.
  cbn [bind] in Hbuild.
  destruct (build_face_table _ _ _) as [mf| |]; try discriminate.
  cbn [bind] in Hbuild.
  destruct (scatter _ _ _ _ _ _ _ _ _ _ _) as [st| |] eqn:Hsc; try discriminate.
  cbn [bind] in Hbuild. injection Hbuild as <-.
  exists (fresh (dom heap)). eexists. exists main_id, main_comp, coords, (nodes st).
  split; [reflexivity|]. split; [exact Hm|]. split; [exact Hmain|].
  split; [reflexivity|].
  eapply (scatter_from _ _ (Z.to_nat (nodes_Size (fin_fes fin)))); [|exact Hsc].
  unfold initial_scatter_state, initial_nodes. cbn.
  split; [apply length_replicate|].
  apply Forall_replicate. now left.
Qed.

Lemma node_values_come_from_the_field_witness :
  exists heap' out',
    FmsMeshToMesh Examples.plane_kernel ExampleCalls.quadratic_triangle
      ExampleCalls.old_heap None = Returned 0 heap' out' /\
    exists mesh m main_id main_comp coords nd,
      out' = Some mesh /\ heap' !! mesh = Some m /\
      find_main_comp (fms_comps ExampleCalls.quadratic_triangle) 0
        = Some (main_id, main_comp, coords) /\
      Nodes m = Some nd /\
      Forall (fun v => v = 0 \/ In v (fld_data coords)) nd.
Proof.
  eexists _, _. split; [vm_compute; reflexivity|].
  apply (node_values_come_from_the_field Examples.plane_kernel
           ExampleCalls.quadratic_triangle ExampleCalls.old_heap None).
  vm_compute; reflexivity.
Defined.

(** ** The vertices of the mesh built *)

Lemma count_ents_from parts et a :
  fold_left (fun n part => FmsInt_wrap (n + pe_num_ents (part et))) parts
    (FmsInt_wrap a)
  = FmsInt_wrap (a + total_ents parts et).
Proof.
  unfold total_ents. revert a.
  induction parts as [|part parts IH]; intros a; simpl.
  - now rewrite Z.add_0_r.
  - replace (FmsInt_wrap (FmsInt_wrap a + pe_num_ents (part et)))
      with (FmsInt_wrap (a + pe_num_ents (part et)))
      by (unfold FmsInt_wrap; now rewrite Zplus_mod_idemp_l).
    rewrite IH. f_equal. ring.
Qed.

Lemma count_ents_total parts et :
  count_ents parts et = FmsInt_wrap (total_ents parts et).
Proof. exact (count_ents_from parts et 0). Qed.

Lemma iter_AddVertex_vertices n x mesh :
  vertices (Nat.iter n (AddVertex x) mesh) = vertices mesh ++ replicate n x.
Proof.
  induction n as [|n IH]; simpl.
  - now rewrite app_nil_r.
  - now rewrite IH, <- app_assoc, <- replicate_S_end.
Qed.

Lemma add_elements_vertices dim attr parts mesh mesh' :
  add_elements dim attr parts mesh = Ok mesh' ->
  vertices mesh' = vertices mesh.
Proof.
  unfold add_elements.
  apply (foldM_invariant _ (fun m => vertices m = vertices mesh));
    [|reflexivity].
  intros part m m' _ Hm.
  apply (foldM_invariant _ (fun m => vertices m = vertices mesh));
    [|exact Hm].
  intros et t t' _ <-. unfold add_elements_step.
  destruct (negb _); [now intros [= <-]|].
  destruct (_ =? 0); [now intros [= <-]|].
  destruct (ids_unsupported _); [discriminate|].
  destruct (bool_decide _); [discriminate|].
  destruct et; try discriminate; try (now intros [= <-]);
    intros Hrun; (eapply (add_loop_frame _ vertices); [|exact Hrun]); reflexivity.
Qed.

Lemma add_bdr_elements_vertices dim attr bdr n mesh mesh' :
  add_bdr_elements dim attr bdr n mesh = Ok mesh' ->
  vertices mesh' = vertices mesh.
Proof.
  unfold add_bdr_elements.
  destruct bdr as [comp|]; [|now intros [= <-]].
  destruct (0 <? n); [|now intros [= <-]].
  apply (foldM_invariant _ (fun m => vertices m = vertices mesh));
    [|reflexivity].
  intros part m m' _ Hm.
  apply (foldM_invariant _ (fun m => vertices m = vertices mesh));
    [|exact Hm].
  intros et t t' _ <-. unfold add_bdr_elements_step.
  destruct (negb _); [now intros [= <-]|].
  destruct (_ =? 0); [now intros [= <-]|].
  destruct (ids_unsupported _); [discriminate|].
  destruct (bool_decide _); [discriminate|].
  destruct et; try discriminate; try (now intros [= <-]);
    intros Hrun; (eapply (add_loop_frame _ vertices); [|exact Hrun]); reflexivity.
Qed.

(** X13. The vertex array of a converted mesh has one vertex for every
    vertex entity of the parts of the main component, their number summed
    as the code sums it, modulo [2^64]; every vertex is at the origin: the
    passes over the elements and the boundary elements add none, and the
    coordinates go to the nodes alone. *)
Theorem converted_mesh_vertices_at_origin K fms heap out heap' out' :
  FmsMeshToMesh K fms heap out = Returned 0 heap' out' ->
  exists mesh m main_id main_comp coords,
    out' = Some mesh /\ heap' !! mesh = Some m /\
    find_main_comp (fms_comps fms) 0 = Some (main_id, main_comp, coords) /\
    vertices m
      = replicate
          (Z.to_nat (FmsInt_wrap (total_ents (comp_parts main_comp) FMS_VERTEX)))
          origin.
Proof.
  intros Hcall.
  destruct (FmsMeshToMesh_success_inv _ _ _ _ _ _ Hcall)
    as (main_id & main_comp & coords & bdr & m & Hmain & Hbdr & Hbuild & _ & -> & Hm).
  exists (fresh (dom heap)), m, main_id, main_comp, coords.
  split; [reflexivity|]. split; [exact Hm|]. split; [exact Hmain|].
  unfold build_mesh in Hbuild.
  destruct (build_topology _ _ _ _ _) as [mesh1| |] eqn:Htopo; try discriminate.
  cbn [bind] in Hbuild.
  assert (H1 : vertices mesh1 = []).
  { unfold build_topology in Htopo.
    destruct (select_tags _ _ _) as [elem_tag bdr_tag].
    destruct (attributes_of elem_tag 1) as [attr| |]; try discriminate.
    destruct (attributes_of bdr_tag 2) as [bdr_attr| |]; try discriminate.
    cbn [bind] in Htopo.
    destruct (add_elements _ _ _ _) as [m0| |] eqn:Hadd; try discriminate.
    cbn [bind] in Htopo.
    rewrite (add_bdr_elements_vertices _ _ _ _ _ _ Htopo).
    now rewrite (add_elements_vertices _ _ _ _ _ Hadd). }
  unfold transfer_coordinates in Hbuild.
  destruct (finalize_mesh _ _ _ _ _) as [fin| |] eqn:Hfin; try discriminate.
  cbn [bind] in Hbuild.
  destruct (build_edge_table _ _) as [me| |]; try discriminate.
  cbn [bind] in Hbuild.
  destruct (build_face_table _ _ _) as [mf| |]; try discriminate.
  cbn [bind] in Hbuild.
  destruct (scatter _ _ _ _ _ _ _ _ _ _ _) as [st| |]; try discriminate.
  cbn [bind] in Hbuild. injection Hbuild as <-.
  rewrite (finalize_mesh_mesh _ _ _ _ _ _ Hfin).
  unfold set_Nodes. cbn [vertices].
  now rewrite iter_AddVertex_vertices, H1, count_ents_total.
Qed.

Lemma converted_mesh_vertices_at_origin_witness :
  exists heap' out',
    FmsMeshToMesh Examples.plane_kernel ExampleCalls.linear_triangle
      ExampleCalls.old_heap None = Returned 0 heap' out' /\
    exists mesh m,
      out' = Some mesh /\ heap' !! mesh = Some m /\
      vertices m = replicate 3 origin.
Proof.
  eexists _, _. split; [vm_compute; reflexivity|].
  destruct (converted_mesh_vertices_at_origin Examples.plane_kernel
              ExampleCalls.linear_triangle ExampleCalls.old_heap None _ _
              ltac:(vm_compute; reflexivity))
    as (mesh & m & main_id & main_comp & coords & Hout & Hm & Hmain & Hv).
  exists mesh, m. split; [exact Hout|]. split; [exact Hm|].
  rewrite Hv. injection Hmain as <- <- <-. reflexivity.
Defined.
